(** * NeonVox: the TTS request broker

    A shallow embedding of [backend/main.py] (the FastAPI service) and of
    [scripts/batch_tts_reels.py] (the batch command-line script), and the
    properties of their validation, dispatch and batch logic.

    Conventions.
    - Python [str] values are [string]s whose characters are read as the code
      points U+0000..U+00FF; [len] is [String.length].
    - Python [int] is [Z]; Python [float] is the binary64 [float] of the
      kernel; [None] is the [None] of [option].
    - The third-party libraries (gTTS, pyttsx3, pydub) and the system
      ([tempfile], [mkdir]) are external: what they answer is read from a
      [Platform] record, what they are asked is recorded in the [World].
    - A [csv.DictReader] is given by what its iteration yields, row after
      row, up to the error it raises, if it does.
    - [os.path], [pathlib] and [zipfile] are those of CPython 3.11 on a
      POSIX system. *)

From Stdlib Require Import ZArith String Ascii List Bool Lia PrimFloat.
From Stdlib Require Import DecimalString.
From stdpp Require Import base gmap strings list.

Open Scope Z_scope.
Open Scope string_scope.
Open Scope list_scope.

(** ** Python built-ins used by the program *)

Module Py.

(** [c.isspace()] on the code points below 256. *)
Definition isspace (c : ascii) : bool :=
  let n := N_of_ascii c in
  ((9 <=? n) && (n <=? 13) || (28 <=? n) && (n <=? 32)
   || (n =? 133) || (n =? 160))%N.

Fixpoint lstrip (s : string) : string :=
  match s with
  | EmptyString => EmptyString
  | String c r => if isspace c then lstrip r else s
  end.

Fixpoint rstrip (s : string) : string :=
  match s with
  | EmptyString => EmptyString
  | String c r =>
      match rstrip r with
      | EmptyString => if isspace c then EmptyString else String c EmptyString
      | r' => String c r'
      end
  end.

(** [s.strip()] *)
Definition strip (s : string) : string := rstrip (lstrip s).

(** [c.lower()] on the code points below 256: A-Z and the Latin-1 capitals
    (U+00C0..U+00DE but the multiplication sign) move up by 32. *)
Definition lower_char (c : ascii) : ascii :=
  let n := N_of_ascii c in
  if ((65 <=? n) && (n <=? 90)
      || (192 <=? n) && (n <=? 222) && negb (n =? 215))%N
  then ascii_of_N (n + 32) else c.

(** [s.lower()] *)
Fixpoint lower (s : string) : string :=
  match s with
  | EmptyString => EmptyString
  | String c r => String (lower_char c) (lower r)
  end.

(** [needle in hay] on strings. *)
Fixpoint str_in (needle hay : string) : bool :=
  String.prefix needle hay
  || match hay with
     | EmptyString => false
     | String _ r => str_in needle r
     end.

(** Truth value of a string: [bool(s)]. *)
Definition truthy (s : string) : bool :=
  match s with EmptyString => false | _ => true end.

(** [x or ""] for [x] a string or [None]. *)
Definition or_empty (x : option string) : string :=
  match x with
  | Some s => if truthy s then s else ""
  | None => ""
  end.

(** [len(s)] *)
Definition len (s : string) : Z := Z.of_nat (String.length s).

(** [str(n)] for an [int]. *)
Definition str_of_int (n : Z) : string := NilZero.string_of_int (Z.to_int n).

(** [s.rfind(c)] for a one-character [c]: the last index, or -1. *)
Fixpoint rfind_from (c : ascii) (s : string) (i : Z) (last : Z) : Z :=
  match s with
  | EmptyString => last
  | String d r => rfind_from c r (i + 1) (if Ascii.eqb d c then i else last)
  end.

Definition rfind (c : ascii) (s : string) : Z := rfind_from c s 0 (-1).

(** [s[:i]] and [s[i:]] for [0 <= i]. *)
Definition slice_to (s : string) (i : Z) : string :=
  String.substring 0 (Z.to_nat i) s.

Definition slice_from (s : string) (i : Z) : string :=
  String.substring (Z.to_nat i) (String.length s - Z.to_nat i) s.

(** The [while] loop of [genericpath._splitext]: from [filenameIndex], for
    [steps] positions, is there a character that is not a dot? *)
Fixpoint splitext_scan (p : string) (filenameIndex : nat) (steps : nat) : bool :=
  match steps with
  | O => false
  | S k =>
      match String.get filenameIndex p with
      | Some c =>
          if negb (Ascii.eqb c ".") then true
          else splitext_scan p (S filenameIndex) k
      | None => true
      end
  end.

(** [os.path.splitext(p)] of [posixpath]: separator [/], no alternative
    separator, extension separator [.]. *)
Definition splitext (p : string) : string * string :=
  let sepIndex := rfind "/" p in
  let dotIndex := rfind "." p in
  if (sepIndex <? dotIndex)%Z
     && splitext_scan p (Z.to_nat (sepIndex + 1))
                      (Z.to_nat (dotIndex - (sepIndex + 1)))
  then (slice_to p dotIndex, slice_from p dotIndex)
  else (p, "").

(** [s.endswith(suffix)] *)
Definition endswith (s suffix : string) : bool :=
  let n := String.length s in
  let k := String.length suffix in
  (k <=? n)%nat && String.eqb (String.substring (n - k) k s) suffix.

(** [s.split("/")] *)
Fixpoint split_slash (s : string) : list string :=
  match s with
  | EmptyString => [EmptyString]
  | String c r =>
      if Ascii.eqb c "/" then EmptyString :: split_slash r
      else match split_slash r with
           | x :: xs => String c x :: xs
           | [] => [String c EmptyString]
           end
  end.

(** A [PurePosixPath]: its root (nothing, [/] or [//]) and its parts after
    the root. *)
Record PurePosixPath : Type := mkPath {
  path_root : string;
  path_parts : list string
}.

(** [PurePosixPath(s)]: a path that starts with exactly two separators has
    the root [//], one that starts with a separator otherwise has the root
    [/]; the parts are what is between the separators, but for the empty
    ones and the [.] ones. *)
Definition Path (s : string) : PurePosixPath :=
  mkPath
    (if String.prefix "//" s && negb (String.prefix "///" s) then "//"
     else if String.prefix "/" s then "/" else "")
    (List.filter (fun x => negb (String.eqb x "" || String.eqb x "."))
                 (split_slash s)).

(** [str(p)] *)
Definition path_str (p : PurePosixPath) : string :=
  match path_root p with
  | EmptyString =>
      match path_parts p with
      | [] => "."
      | parts => String.concat "/" parts
      end
  | root => root +:+ String.concat "/" (path_parts p)
  end.

(** [p / name]: a [name] with a root replaces [p]. *)
Definition truediv (p : PurePosixPath) (name : string) : PurePosixPath :=
  let q := Path name in
  match path_root q with
  | EmptyString => mkPath (path_root p) (path_parts p ++ path_parts q)
  | _ => q
  end.

(** [p.name]: the last part, if there is one. *)
Definition path_name (p : PurePosixPath) : string :=
  List.last (path_parts p) "".

(** [Path(s).stem]: the name up to its last dot, when that dot is neither
    the first nor the last character of the name. *)
Definition path_stem (s : string) : string :=
  let name := path_name (Path s) in
  let i := rfind "." name in
  if (0 <? i)%Z && (i <? len name - 1)%Z then slice_to name i else name.

(** [str(Path(outdir) / name)] *)
Definition path_join (outdir name : string) : string :=
  path_str (truediv (Path outdir) name).

End Py.

(** ** Data model *)

Definition bytes := list Byte.byte.

(** Exceptions the program raises or lets through.  [LibError] stands for any
    instance of [Exception] raised inside a third-party library;
    [RequestValidationError] is what the framework raises when a pydantic
    model rejects the request, with the messages of the failed validators, in
    field order; [SystemExit] is not an [Exception]. *)
Inductive exn : Type :=
| HTTPException (status_code : Z) (detail : string)
| RequestValidationError (errors : list string)
| LibError (msg : string)
| SystemExit (msg : string).

(** [isinstance(e, Exception)] *)
Definition is_Exception (e : exn) : bool :=
  match e with SystemExit _ => false | _ => true end.

(** The text an error carries, as the caller reads it. *)
Definition exn_text (e : exn) : string :=
  match e with
  | HTTPException _ d => d
  | RequestValidationError errs => String.concat "; " errs
  | LibError m => m
  | SystemExit m => m
  end.

(** A voice as [pyttsx3] enumerates it: [name] and [gender] may be missing or
    [None]. *)
Record Voice : Type := mkVoice {
  v_id : string;
  v_name : option string;
  v_gender : option string
}.

(** A [pyttsx3] engine object: its three properties and the commands queued
    by [save_to_file] until [runAndWait]. *)
Record Engine : Type := mkEngine {
  e_rate : Z;
  e_volume : float;
  e_voice : string;
  e_queue : list (string * string)
}.

Definition set_rate (r : Z) (e : Engine) : Engine :=
  mkEngine r (e_volume e) (e_voice e) (e_queue e).
Definition set_volume (v : float) (e : Engine) : Engine :=
  mkEngine (e_rate e) v (e_voice e) (e_queue e).
Definition set_voice (i : string) (e : Engine) : Engine :=
  mkEngine (e_rate e) (e_volume e) i (e_queue e).
Definition set_queue (q : list (string * string)) (e : Engine) : Engine :=
  mkEngine (e_rate e) (e_volume e) (e_voice e) q.

(** Calls into the synthesis backends and the transcoder, as they happen. *)
Inductive Event : Type :=
| EvGtts (text lang : string)
| EvSay (rate : Z) (volume : float) (voice : string) (text path : string)
| EvTranscode (wav_path mp3_path : string).

Definition is_synthesis (ev : Event) : bool :=
  match ev with EvGtts _ _ | EvSay _ _ _ _ _ => true | EvTranscode _ _ => false end.

(** What is installed and configured where the program runs, and what the
    external libraries answer.  The answers of the backends may vary from one
    call to the next: they take the number of backend calls made so far. *)
Record Platform : Type := mkPlatform {
  MAX_CHARS : Z;              (* NEONVOX_MAX_CHARS *)
  DEFAULT_ENGINE : string;    (* NEONVOX_DEFAULT_ENGINE, lowercased *)
  ALLOW_GTTS : bool;          (* NEONVOX_ALLOW_GTTS *)
  gTTS : bool;                (* [gTTS is not None] *)
  pyttsx3 : bool;             (* [pyttsx3 is not None] *)
  AudioSegment : bool;        (* [AudioSegment is not None] *)
  gtts_render : nat -> string -> string -> string + bytes;
  default_rate : Z;
  default_volume : float;
  default_voice : string;
  voices : string + option (list Voice);
  set_voice_error : string -> option string;
  engine_render : nat -> Z -> float -> string -> string -> string + bytes;
  wav_to_mp3 : nat -> bytes -> string + bytes;
  mkdir_error : string -> option string   (* [Path.mkdir]: the error, if any *)
}.

(** The world the program acts on: the engine objects alive (a handle is an
    index), the files, the backend calls so far (oldest first) and the number
    of temporary directories made. *)
Record World : Type := mkWorld {
  engines : list Engine;
  fs : gmap string bytes;
  log : list Event;
  tmpdirs : nat
}.

Definition with_engines (f : list Engine -> list Engine) (w : World) : World :=
  mkWorld (f (engines w)) (fs w) (log w) (tmpdirs w).
Definition with_fs (f : gmap string bytes -> gmap string bytes) (w : World) : World :=
  mkWorld (engines w) (f (fs w)) (log w) (tmpdirs w).
Definition with_log (f : list Event -> list Event) (w : World) : World :=
  mkWorld (engines w) (fs w) (f (log w)) (tmpdirs w).
Definition with_tmpdirs (f : nat -> nat) (w : World) : World :=
  mkWorld (engines w) (fs w) (log w) (f (tmpdirs w)).

Definition synthesis_calls (w : World) : list Event :=
  List.filter is_synthesis (log w).

(** ** Computations: state and exceptions *)

Definition M (A : Type) : Type := World -> (exn + A) * World.

Definition ret {A} (a : A) : M A := fun w => (inr a, w).

Definition raise {A} (e : exn) : M A := fun w => (inl e, w).

Definition bind {A B} (m : M A) (k : A -> M B) : M B :=
  fun w =>
    match m w with
    | (inl e, w') => (inl e, w')
    | (inr a, w') => k a w'
    end.

Notation "'do' x <- m ; k" := (bind m (fun x => k))
  (at level 10, x name, m at level 100, k at level 200).
Notation "m ;; k" := (bind m (fun _ => k))
  (at level 100, k at level 200, right associativity).

(** [try: body / except Exception: handler] *)
Definition try_except {A} (body : M A) (handler : exn -> M A) : M A :=
  fun w =>
    match body w with
    | (inl e, w') => if is_Exception e then handler e w' else (inl e, w')
    | r => r
    end.

(** A pure step that may raise. *)
Definition lift {A} (r : exn + A) : M A :=
  match r with inl e => raise e | inr a => ret a end.

Definition get_world : M World := fun w => (inr w, w).
Definition modify_world (f : World -> World) : M unit := fun w => (inr tt, f w).

Definition result {A} (r : (exn + A) * World) : exn + A := fst r.
Definition world_after {A} (r : (exn + A) * World) : World := snd r.

(** ** The external libraries *)

Section Libraries.

Variable P : Platform.

(** Number of backend calls made so far. *)
Definition tick : M nat := fun w => (inr (length (log w)), w).

Definition record (ev : Event) : M unit :=
  modify_world (with_log (fun l => l ++ [ev])).

Definition write_file (path : string) (data : bytes) : M unit :=
  modify_world (with_fs (insert path data)).

(** [open(path, "rb").read()] *)
Definition read_file (path : string) : M bytes :=
  fun w =>
    match fs w !! path with
    | Some data => (inr data, w)
    | None => (inl (LibError "No such file or directory"), w)
    end.

(** *** tempfile *)

Definition tmp_name (n : nat) : string :=
  "/tmp/tmp" +:+ Py.str_of_int (Z.of_nat n).

Definition under (dir path : string) : bool :=
  String.prefix (dir +:+ "/") path.

Definition remove_tree (dir : string) (files : gmap string bytes)
  : gmap string bytes :=
  filter (fun kv => under dir (fst kv) = false) files.

(** [with tempfile.TemporaryDirectory() as td: body]: a directory of a
    name not used before, removed with its files however [body] ends. *)
Definition TemporaryDirectory {A} (body : string -> M A) : M A :=
  fun w =>
    let td := tmp_name (tmpdirs w) in
    match body td (with_tmpdirs S w) with
    | (r, w') => (r, with_fs (remove_tree td) w')
    end.

(** [os.path.join(td, name)] for a relative [name] and a [td] without a
    trailing separator. *)
Definition os_path_join (td name : string) : string := td +:+ "/" +:+ name.

(** *** gTTS *)

(** [gTTS(text, lang=lang).save(path)] *)
Definition gTTS_save (text lang path : string) : M unit :=
  do n <- tick;
  record (EvGtts text lang);;
  match gtts_render P n text lang with
  | inl msg => raise (LibError msg)
  | inr mp3 => write_file path mp3
  end.

(** *** pyttsx3 *)

Definition fresh_engine : Engine :=
  mkEngine (default_rate P) (default_volume P) (default_voice P) [].

(** [pyttsx3.init()] when the library holds no engine that is still alive:
    a new engine object.  The library keeps the engines it has made for as
    long as they are alive, and gives such an engine again; what the program
    does with an engine it is given is [Backend.synthesize_on]. *)
Definition pyttsx3_init : M nat :=
  fun w => (inr (length (engines w)),
            with_engines (fun es => es ++ [fresh_engine]) w).

Definition update_engine (h : nat) (f : Engine -> Engine) : M unit :=
  modify_world (with_engines (alter f h)).

Definition setProperty_rate (h : nat) (r : Z) : M unit :=
  update_engine h (set_rate r).

Definition setProperty_volume (h : nat) (v : float) : M unit :=
  update_engine h (set_volume v).

Definition setProperty_voice (h : nat) (i : string) : M unit :=
  match set_voice_error P i with
  | Some msg => raise (LibError msg)
  | None => update_engine h (set_voice i)
  end.

Definition getProperty_voices (h : nat) : M (option (list Voice)) :=
  match voices P with
  | inl msg => raise (LibError msg)
  | inr vs => ret vs
  end.

Definition save_to_file (h : nat) (text path : string) : M unit :=
  update_engine h (fun e => set_queue (e_queue e ++ [(text, path)]) e).

Fixpoint run_queue (e : Engine) (q : list (string * string)) : M unit :=
  match q with
  | [] => ret tt
  | (text, path) :: q' =>
      do n <- tick;
      record (EvSay (e_rate e) (e_volume e) (e_voice e) text path);;
      match engine_render P n (e_rate e) (e_volume e) (e_voice e) text with
      | inl msg => raise (LibError msg)
      | inr wav => write_file path wav;; run_queue e q'
      end
  end.

Definition runAndWait (h : nat) : M unit :=
  do w <- get_world;
  match engines w !! h with
  | None => raise (LibError "engine object is gone")
  | Some e => update_engine h (set_queue []);; run_queue e (e_queue e)
  end.

(** *** pydub *)

(** [AudioSegment.from_wav(path)] *)
Definition from_wav (path : string) : M bytes := read_file path.

(** [audio.export(path, format="mp3")] *)
Definition export (audio : bytes) (wav_path mp3_path : string) : M unit :=
  do n <- tick;
  record (EvTranscode wav_path mp3_path);;
  match wav_to_mp3 P n audio with
  | inl msg => raise (LibError msg)
  | inr mp3 => write_file mp3_path mp3
  end.

End Libraries.

(** ** Text items and CSV rows *)

(** A row as [csv.DictReader] yields it: column name to cell, a cell being
    [None] when the line is shorter than the header. *)
Abbreviation Row := (gmap string (option string)).

(** One step of the iteration over a [csv.DictReader]: the next row, or
    the error the reader raises there ([_csv.Error], or an error of the file
    it reads). *)
Inductive Next : Type :=
| Yield (r : Row)
| Raises (msg : string).

(** A reader: what its iteration gives, step by step.  Nothing is read
    after a step that raises. *)
Abbreviation Reader := (list Next).

(** [r.get(key)] *)
Definition dict_get (r : Row) (key : string) : option string :=
  match r !! key with
  | Some cell => cell
  | None => None
  end.

Record Item : Type := mkItem {
  filename : string;
  script_text : string
}.

(** A ZIP archive being written: the entries in the order of the writes. *)
Definition Archive := list (string * bytes).

(** The name [ZipInfo] keeps of the name it is given: what comes before the
    first NUL character. *)
Fixpoint name_until_nul (s : string) : string :=
  match s with
  | EmptyString => EmptyString
  | String c r =>
      if Ascii.eqb c "000" then EmptyString
      else String c (name_until_nul r)
  end.

(** The length of a name in the archive, in bytes: a character over 127 is
    written in UTF-8, on two bytes. *)
Fixpoint encoded_length (s : string) : Z :=
  match s with
  | EmptyString => 0
  | String c r =>
      (if (nat_of_ascii c <? 128)%nat then 1 else 2) + encoded_length r
  end.

(** [zf.writestr(name, data)]: [ZipInfo] looks at the last character of the
    name it keeps ([IndexError] when there is none), and the header has
    sixteen bits for the length of the name ([struct.error] over that).  An
    entry of a name already in the archive is written all the same. *)
Definition writestr (zf : Archive) (name : string) (data : bytes)
  : exn + Archive :=
  let stored := name_until_nul name in
  match stored with
  | EmptyString => inl (LibError "string index out of range")
  | _ =>
      if (65535 <? encoded_length stored)%Z then
        inl (LibError "ushort format requires 0 <= number <= 65535")
      else inr (zf ++ [(stored, data)])
  end.

(** [zf.read(name)]: of several entries of one name the last one is read. *)
Fixpoint zip_read (zf : Archive) (name : string) : option bytes :=
  match zf with
  | [] => None
  | (n, data) :: rest =>
      match zip_read rest name with
      | Some d => Some d
      | None => if String.eqb n name then Some data else None
      end
  end.

Inductive Body : Type :=
| BodyBytes (data : bytes)
| BodyZip (zf : Archive).

Record Response : Type := mkResponse {
  media_type : string;
  headers : list (string * string);
  body : Body
}.

(** ** backend/main.py *)

Module Backend.

(** The JSON body of [POST /api/tts] before validation: an omitted field is
    [None]. *)
Record RawRequest : Type := mkRaw {
  raw_text : string;
  raw_engine : option string;
  raw_lang : option string;
  raw_voice : option string;
  raw_rate : option Z;
  raw_volume : option float
}.

Record TTSRequest : Type := mkReq {
  text : string;
  engine : string;
  lang : string;
  voice : option string;
  rate : option Z;
  volume : option float
}.

Definition is_known_engine (v : string) : bool :=
  String.eqb v "gtts" || String.eqb v "pyttsx3".

Section Main.

Variable P : Platform.

(** [TTSRequest.validate_engine] *)
Definition validate_engine (v : string) : string + string :=
  let v := Py.lower v in
  if negb (is_known_engine v) then inl "engine must be 'gtts' or 'pyttsx3'"
  else inr v.

(** [TTSRequest.validate_text] *)
Definition validate_text (v : string) : string + string :=
  let v := Py.strip (Py.or_empty (Some v)) in
  if negb (Py.truthy v) then inl "text is required"
  else if (MAX_CHARS P <? Py.len v)%Z then
    inl ("text exceeds limit of " +:+ Py.str_of_int (MAX_CHARS P)
         +:+ " characters")
  else inr v.

Definition errors_of {A} (r : string + A) : list string :=
  match r with inl msg => [msg] | inr _ => [] end.

(** Construction of a [TTSRequest] by pydantic: the validators run in
    field order, every failure is reported, and a default value is taken
    as it is. *)
Definition TTSRequest_new (raw : RawRequest) : list string + TTSRequest :=
  let t := validate_text (raw_text raw) in
  let e := match raw_engine raw with
           | Some v => validate_engine v
           | None => inr (DEFAULT_ENGINE P)
           end in
  match t, e with
  | inr t', inr e' =>
      inr (mkReq t' e'
                 (match raw_lang raw with Some l => l | None => "en" end)
                 (raw_voice raw) (raw_rate raw) (raw_volume raw))
  | _, _ => inl (errors_of t ++ errors_of e)
  end.

(** [synthesize_gtts] *)
Definition synthesize_gtts (text lang : string) : M bytes :=
  if negb (ALLOW_GTTS P) then
    raise (HTTPException 403 "gTTS is disabled by server policy")
  else if negb (gTTS P) then
    raise (HTTPException 500 "gTTS not installed. Run: pip install gTTS")
  else
    TemporaryDirectory (fun td =>
      let mp3_path := os_path_join td "out.mp3" in
      gTTS_save P text lang mp3_path;;
      read_file mp3_path).

(** The [for v in voices] loop of [_pyttsx3_select_voice]. *)
Fixpoint select_voice_loop (engine : nat) (pref_low : string)
         (voices : list Voice) : M unit :=
  match voices with
  | [] => ret tt
  | v :: rest =>
      let name := Py.lower (Py.or_empty (v_name v)) in
      let gender := Py.lower (Py.or_empty (v_gender v)) in
      if Py.str_in pref_low name || Py.str_in pref_low gender then
        setProperty_voice P engine (v_id v)
      else select_voice_loop engine pref_low rest
  end.

(** [_pyttsx3_select_voice] *)
Definition _pyttsx3_select_voice (engine : nat) (pref : option string)
  : M unit :=
  match pref with
  | None => ret tt
  | Some pref =>
      if negb (Py.truthy pref) then ret tt
      else
        try_except
          (do got <- getProperty_voices P engine;
           let voices := match got with Some vs => vs | None => [] end in
           let pref_low := Py.lower pref in
           select_voice_loop engine pref_low voices)
          (fun _ => ret tt)
  end.

(** [if rate:] *)
Definition rate_given (rate : option Z) : option Z :=
  match rate with
  | Some r => if (r =? 0)%Z then None else Some r
  | None => None
  end.

(** [synthesize_pyttsx3_mp3] from the line after [engine = pyttsx3.init()]:
    what it does with the engine it is given. *)
Definition synthesize_on (engine : nat) (text : string)
           (voice : option string) (rate : option Z)
           (volume : option float) : M bytes :=
  match rate_given rate with
  | Some r => setProperty_rate engine r
  | None => ret tt
  end;;
  match volume with
  | Some v => setProperty_volume engine v
  | None => ret tt
  end;;
  _pyttsx3_select_voice engine voice;;
  TemporaryDirectory (fun td =>
    let wav_path := os_path_join td "out.wav" in
    save_to_file engine text wav_path;;
    runAndWait P engine;;
    let mp3_path := os_path_join td "out.mp3" in
    try_except
      (do audio <- from_wav wav_path;
       export P audio wav_path mp3_path)
      (fun e =>
         raise (HTTPException 500
                  ("ffmpeg missing or conversion failed: "
                   +:+ exn_text e)));;
    read_file mp3_path).

(** [synthesize_pyttsx3_mp3] *)
Definition synthesize_pyttsx3_mp3 (text : string) (voice : option string)
           (rate : option Z) (volume : option float) : M bytes :=
  if negb (pyttsx3 P) then
    raise (HTTPException 500
             "pyttsx3 not installed. Run: pip install pyttsx3")
  else if negb (AudioSegment P) then
    raise (HTTPException 500
             "pydub not installed. Run: pip install pydub and install ffmpeg")
  else
    do engine <- pyttsx3_init P;
    synthesize_on engine text voice rate volume.

Definition audio_response (data : bytes) (filename : string) : Response :=
  mkResponse "audio/mpeg"
    [("Content-Disposition", "attachment; filename=" +:+ filename)]
    (BodyBytes data).

(** [tts]: the handler of [POST /api/tts], on a validated request. *)
Definition tts (req : TTSRequest) : M Response :=
  if String.eqb (engine req) "gtts" then
    do data <- synthesize_gtts (text req) (lang req);
    ret (audio_response data "neonvox.mp3")
  else
    do data <- synthesize_pyttsx3_mp3 (text req) (voice req) (rate req)
                                      (volume req);
    ret (audio_response data "neonvox.mp3").

(** [POST /api/tts] as the framework serves it: the body is validated
    into a [TTSRequest] first, and the handler runs only on success. *)
Definition api_tts (raw : RawRequest) : M Response :=
  match TTSRequest_new raw with
  | inl errs => raise (RequestValidationError errs)
  | inr req => tts req
  end.

(** The first loop of [tts_csv]: [for r in reader]. *)
Fixpoint read_rows (reader : Reader) (rows : list Item)
  : exn + list Item :=
  match reader with
  | [] => inr rows
  | Raises msg :: _ => inl (LibError msg)
  | Yield r :: reader' =>
      let fn := Py.strip (Py.or_empty (dict_get r "filename")) in
      let txt := Py.strip (Py.or_empty (dict_get r "script_text")) in
      if negb (Py.truthy fn) || negb (Py.truthy txt) then
        read_rows reader' rows
      else if (MAX_CHARS P <? Py.len txt)%Z then
        inl (HTTPException 400
               ("Row '" +:+ fn +:+ "': text exceeds "
                +:+ Py.str_of_int (MAX_CHARS P) +:+ " chars"))
      else read_rows reader' (rows ++ [mkItem fn txt])
  end.

(** The second loop of [tts_csv]: [for i, item in enumerate(rows, 1)],
    with the archive written so far. *)
Fixpoint zip_loop (engine lang : string) (voice : option string)
         (rate : option Z) (volume : option float)
         (rows : list Item) (zf : Archive) : M Archive :=
  match rows with
  | [] => ret zf
  | item :: rest =>
      let base := fst (Py.splitext (filename item)) in
      do data <-
        (if String.eqb engine "gtts" then
           synthesize_gtts (script_text item) lang
         else
           synthesize_pyttsx3_mp3 (script_text item) voice rate volume);
      do zf' <- lift (writestr zf (base +:+ ".mp3") data);
      zip_loop engine lang voice rate volume rest zf'
  end.

(** [tts_csv]: the handler of [POST /api/tts-csv].  [file] is the upload:
    [None] when its bytes are not UTF-8, else the [csv.DictReader] over its
    lines. *)
Definition tts_csv (file : option Reader) (engine lang : string)
           (voice : option string) (rate : option Z)
           (volume : option float) : M Response :=
  let engine := Py.lower (Py.or_empty (Some engine)) in
  if negb (is_known_engine engine) then
    raise (HTTPException 400 "engine must be 'gtts' or 'pyttsx3'")
  else
    match file with
    | None => raise (HTTPException 400 "CSV must be UTF-8 encoded")
    | Some reader =>
        do rows <- lift (read_rows reader []);
        match rows with
        | [] =>
            raise (HTTPException 400
              "CSV appears empty or missing required columns: filename, script_text")
        | _ =>
            do zf <- zip_loop engine lang voice rate volume rows [];
            ret (mkResponse "application/zip"
                   [("Content-Disposition",
                     "attachment; filename=neonvox_batch.zip")]
                   (BodyZip zf))
        end
    end.

End Main.

End Backend.

(** ** scripts/batch_tts_reels.py *)

Module Script.

Section Cli.

Variable P : Platform.

(** The loop of [load_from_csv]: [for r in reader]. *)
Fixpoint load_rows (reader : Reader) (rows : list Item)
  : exn + list Item :=
  match reader with
  | [] => inr rows
  | Raises msg :: _ => inl (LibError msg)
  | Yield r :: reader' =>
      let filename := Py.strip (Py.or_empty (dict_get r "filename")) in
      let text := Py.strip (Py.or_empty (dict_get r "script_text")) in
      if Py.truthy filename && Py.truthy text then
        load_rows reader' (rows ++ [mkItem filename text])
      else load_rows reader' rows
  end.

(** [load_from_csv], on the [csv.DictReader] over the file. *)
Definition load_from_csv (reader : Reader) : exn + list Item :=
  match load_rows reader [] with
  | inl e => inl e
  | inr [] =>
      inl (SystemExit
        "CSV appears empty or missing required columns: filename, script_text")
  | inr rows => inr rows
  end.

(** [ensure_dir]: [path.mkdir(parents=True, exist_ok=True)], which raises
    when the directory is neither there nor can be made.  The [World] holds
    the files, not the directories. *)
Definition ensure_dir (path : string) : M unit :=
  match mkdir_error P path with
  | Some msg => raise (LibError msg)
  | None => ret tt
  end.

(** The loop of [save_with_gtts]. *)
Fixpoint save_with_gtts_loop (items : list Item) (outdir lang : string)
  : M unit :=
  match items with
  | [] => ret tt
  | item :: rest =>
      let fn := filename item in
      let fn := if negb (Py.endswith (Py.lower fn) ".mp3")
                then fn +:+ ".mp3" else fn in
      let outpath := Py.path_join outdir fn in
      gTTS_save P (script_text item) lang outpath;;
      save_with_gtts_loop rest outdir lang
  end.

(** [save_with_gtts] *)
Definition save_with_gtts (items : list Item) (outdir lang : string)
  : M unit :=
  if negb (gTTS P) then raise (LibError "No module named 'gtts'")
  else save_with_gtts_loop items outdir lang.

(** [wav_to_mp3_if_possible] *)
Definition wav_to_mp3_if_possible (wav_path mp3_path : string) : M unit :=
  if negb (AudioSegment P) then ret tt
  else
    do audio <- from_wav wav_path;
    export P audio wav_path mp3_path.

(** The voice search of [save_with_pyttsx3]: [selected_id] after the
    [for v in voices] loop. *)
Fixpoint find_voice_id (pref : string) (voices : list Voice)
  : option string :=
  match voices with
  | [] => None
  | v :: rest =>
      let name := Py.lower (Py.or_empty (v_name v)) in
      let gender := Py.lower (Py.or_empty (v_gender v)) in
      if Py.str_in pref name || Py.str_in pref gender then Some (v_id v)
      else find_voice_id pref rest
  end.

(** The synthesis loop of [save_with_pyttsx3]. *)
Fixpoint save_with_pyttsx3_loop (engine : nat) (items : list Item)
         (outdir : string) (mp3_convert : bool) : M unit :=
  match items with
  | [] => ret tt
  | item :: rest =>
      let base := Py.path_stem (filename item) in
      let wav_path := Py.path_join outdir (base +:+ ".wav") in
      let mp3_path := Py.path_join outdir (base +:+ ".mp3") in
      save_to_file engine (script_text item) wav_path;;
      runAndWait P engine;;
      (if mp3_convert then wav_to_mp3_if_possible wav_path mp3_path
       else ret tt);;
      save_with_pyttsx3_loop engine rest outdir mp3_convert
  end.

(** The [if voice_pref:] block of [save_with_pyttsx3]. *)
Definition select_voice_block (engine : nat) (voice_pref : option string)
  : M unit :=
  match voice_pref with
  | None => ret tt
  | Some voice_pref =>
      if negb (Py.truthy voice_pref) then ret tt
      else
        do got <- getProperty_voices P engine;
        let voices := match got with Some vs => vs | None => [] end in
        let pref := Py.lower voice_pref in
        match find_voice_id pref voices with
        | Some selected_id =>
            if Py.truthy selected_id
            then setProperty_voice P engine selected_id
            else ret tt
        | None => ret tt
        end
  end.

(** [save_with_pyttsx3] *)
Definition save_with_pyttsx3 (items : list Item) (outdir : string)
           (voice_pref : option string) (rate : option Z)
           (volume : option float) (mp3_convert : bool) : M unit :=
  if negb (pyttsx3 P) then raise (LibError "No module named 'pyttsx3'")
  else
    do engine <- pyttsx3_init P;
    match Backend.rate_given rate with
    | Some r => setProperty_rate engine r
    | None => ret tt
    end;;
    match volume with
    | Some v => setProperty_volume engine v
    | None => ret tt
    end;;
    select_voice_block engine voice_pref;;
    save_with_pyttsx3_loop engine items outdir mp3_convert.

(** [main] when [--csv] is given, on the parsed arguments; [csv] is the
    [csv.DictReader] over that file. *)
Definition main (csv : Reader) (engine out lang : string)
           (voice : option string) (rate : option Z)
           (volume : option float) (no_mp3_convert : bool) : M unit :=
  ensure_dir (Py.path_str (Py.Path out));;
  do items <- lift (load_from_csv csv);
  if String.eqb engine "gtts" then save_with_gtts items out lang
  else save_with_pyttsx3 items out voice rate volume
                         (negb no_mp3_convert).

End Cli.

End Script.

(** ** Vocabulary of the properties *)

(** [needle] occurs in [hay]. *)
Definition contains (hay needle : string) : Prop :=
  exists pre post, hay = pre +:+ needle +:+ post.

Definition is_error {A} (r : exn + A) : Prop := exists e, r = inl e.

(** The two cells of a row the program looks at, trimmed. *)
Definition row_filename (r : Row) : string :=
  Py.strip (Py.or_empty (dict_get r "filename")).

Definition row_text (r : Row) : string :=
  Py.strip (Py.or_empty (dict_get r "script_text")).

(** A row that has both cells. *)
Definition row_valid (r : Row) : bool :=
  Py.truthy (row_filename r) && Py.truthy (row_text r).

(** The rows a reader delivers: those before its first error. *)
Fixpoint delivered (reader : Reader) : list Row :=
  match reader with
  | Yield r :: rest => r :: delivered rest
  | _ => []
  end.

(** The error the iteration over a reader ends with, if it does. *)
Fixpoint reader_error (reader : Reader) : option string :=
  match reader with
  | [] => None
  | Raises msg :: _ => Some msg
  | Yield _ :: rest => reader_error rest
  end.

(** The reader that delivers the given rows and reaches the end. *)
Definition delivers (rows : list Row) : Reader := List.map Yield rows.

(** The limit of the [csv] module on the length of a field. *)
Definition field_size_limit : Z := 131072.

Definition over_field_limit (r : Row) : bool :=
  List.existsb
    (fun kv => match snd kv with
               | Some cell => (field_size_limit <? Py.len cell)%Z
               | None => false
               end)
    (map_to_list r).

(** [csv.DictReader] over a document whose records have the given cells
    (under column names within the limit): it raises at the first record
    with a cell over the limit. *)
Fixpoint csv_reader (records : list Row) : Reader :=
  match records with
  | [] => []
  | r :: rest =>
      if over_field_limit r then
        [Raises ("field larger than field limit ("
                 +:+ Py.str_of_int field_size_limit +:+ ")")]
      else Yield r :: csv_reader rest
  end.

(** The text items of a CSV document: its valid rows, in order. *)
Definition items_of (reader : list Row) : list Item :=
  List.map (fun r => mkItem (row_filename r) (row_text r))
           (List.filter row_valid reader).

(** A reader without the rows it delivers that lack a cell. *)
Definition without_invalid_rows (reader : Reader) : Reader :=
  List.filter (fun n => match n with
                        | Yield r => row_valid r
                        | Raises _ => true
                        end) reader.

Definition oversized (P : Platform) (it : Item) : bool :=
  (MAX_CHARS P <? Py.len (script_text it))%Z.

(** The error that reports an oversized item: its filename and the limit. *)
Definition row_too_long (P : Platform) (it : Item) : exn :=
  HTTPException 400
    ("Row '" +:+ filename it +:+ "': text exceeds "
     +:+ Py.str_of_int (MAX_CHARS P) +:+ " chars").

Definition empty_batch : string :=
  "CSV appears empty or missing required columns: filename, script_text".

(** The name [tts_csv] gives for an item's archive entry. *)
Definition entry_name (it : Item) : string :=
  fst (Py.splitext (filename it)) +:+ ".mp3".

(** A string without a NUL character. *)
Definition nul_free (s : string) : Prop :=
  forall j, String.get j s <> Some "000"%char.

(** The name the archive has for an item's entry. *)
Definition stored_name (it : Item) : string :=
  name_until_nul (entry_name it).

(** [os.path.splitext] splits the path [p] at index [d]: the last dot of
    [p] is there, and before it there is a character that is not a dot, with
    no separator from that character on. *)
Definition splits_at (p : string) (d : nat) : Prop :=
  String.get d p = Some "."%char
  /\ (forall j, (d < j)%nat -> String.get j p <> Some "."%char)
  /\ exists k, (k < d)%nat
               /\ String.get k p <> Some "."%char
               /\ forall j, (k <= j)%nat -> String.get j p <> Some "/"%char.

(** The synthesis call the batch loop makes for one item. *)
Definition item_audio (P : Platform) (engine lang : string)
           (voice : option string) (rate : option Z) (volume : option float)
           (it : Item) : M bytes :=
  if String.eqb engine "gtts" then
    Backend.synthesize_gtts P (script_text it) lang
  else
    Backend.synthesize_pyttsx3_mp3 P (script_text it) voice rate volume.

(** The engine name as [tts_csv] normalises it. *)
Definition engine_name (engine : string) : string :=
  Py.lower (Py.or_empty (Some engine)).

(** Does the text of an error mention the item: its filename, the name of its
    archive entry, its text, or its position in the batch (from 1)? *)
Definition names_item (e : exn) (position : Z) (it : Item) : bool :=
  Py.str_in (filename it) (exn_text e)
  || Py.str_in (entry_name it) (exn_text e)
  || Py.str_in (script_text it) (exn_text e)
  || Py.str_in (Py.str_of_int position) (exn_text e).

(** The test of the voice search, as a predicate and as the code computes
    it. *)
Definition voice_matches (pref : string) (v : Voice) : Prop :=
  contains (Py.lower (Py.or_empty (v_name v))) (Py.lower pref)
  \/ contains (Py.lower (Py.or_empty (v_gender v))) (Py.lower pref).

Definition voice_matchesb (pref : string) (v : Voice) : bool :=
  Py.str_in (Py.lower pref) (Py.lower (Py.or_empty (v_name v)))
  || Py.str_in (Py.lower pref) (Py.lower (Py.or_empty (v_gender v))).

(** The voice selection as the specification words it: with a preference, the
    first voice that matches it; without one, none. *)
Definition spec_select_voice (pref : option string) (voices : list Voice)
  : option Voice :=
  match pref with
  | Some p => List.find (voice_matchesb p) voices
  | None => None
  end.

(** The body of the [try] of [_pyttsx3_select_voice], for a preference that
    is there. *)
Definition select_voice_body (P : Platform) (engine : nat) (pref : string)
  : M unit :=
  do got <- getProperty_voices P engine;
  let voices := match got with Some vs => vs | None => [] end in
  let pref_low := Py.lower pref in
  Backend.select_voice_loop P engine pref_low voices.

(** The voice selection raises: the enumeration does, or the backend refuses
    the voice that was found. *)
Definition selection_raises (P : Platform) (pref : string) (msg : string)
  : Prop :=
  voices P = inl msg
  \/ exists got v,
       voices P = inr got
       /\ List.find (voice_matchesb pref)
                    (match got with Some vs => vs | None => [] end) = Some v
       /\ set_voice_error P (v_id v) = Some msg.

(** The voice identifier [_pyttsx3_select_voice] ends up setting, if any. *)
Definition voice_set_by (P : Platform) (pref : option string) : option string :=
  match pref with
  | None => None
  | Some p =>
      if Py.truthy p then
        match voices P with
        | inl _ => None
        | inr got =>
            match List.find (voice_matchesb p)
                            (match got with Some vs => vs | None => [] end) with
            | Some v =>
                match set_voice_error P (v_id v) with
                | Some _ => None
                | None => Some (v_id v)
                end
            | None => None
            end
        end
      else None
  end.

Definition choose_voice (P : Platform) (pref : option string) (e : Engine)
  : Engine :=
  match voice_set_by P pref with
  | Some i => set_voice i e
  | None => e
  end.

(** The engine [synthesize_pyttsx3_mp3] synthesises with. *)
Definition configured (P : Platform) (voice : option string)
           (rate : option Z) (volume : option float) : Engine :=
  choose_voice P voice
    (match volume with
     | Some v => set_volume v
     | None => fun e => e
     end
       (match Backend.rate_given rate with
        | Some r => set_rate r
        | None => fun e => e
        end (fresh_engine P))).

(** One local synthesis, seen from outside: [n] backend calls were made
    before it, [e] is the engine it runs on, [td] its temporary directory. *)
Definition local_outcome (P : Platform) (n : nat) (e : Engine) (text : string)
  : exn + bytes :=
  match engine_render P n (e_rate e) (e_volume e) (e_voice e) text with
  | inl msg => inl (LibError msg)
  | inr wav =>
      match wav_to_mp3 P (S n) wav with
      | inl msg =>
          inl (HTTPException 500
                 ("ffmpeg missing or conversion failed: " +:+ msg))
      | inr mp3 => inr mp3
      end
  end.

Definition local_events (P : Platform) (n : nat) (e : Engine)
           (text td : string) : list Event :=
  EvSay (e_rate e) (e_volume e) (e_voice e) text (os_path_join td "out.wav")
  :: match engine_render P n (e_rate e) (e_volume e) (e_voice e) text with
     | inl _ => []
     | inr _ => [EvTranscode (os_path_join td "out.wav")
                             (os_path_join td "out.mp3")]
     end.

Definition local_files (P : Platform) (n : nat) (e : Engine)
           (text td : string) (files : gmap string bytes)
  : gmap string bytes :=
  remove_tree td
    (match engine_render P n (e_rate e) (e_volume e) (e_voice e) text with
     | inl _ => files
     | inr wav =>
         match wav_to_mp3 P (S n) wav with
         | inl _ => <[os_path_join td "out.wav" := wav]> files
         | inr mp3 =>
             <[os_path_join td "out.mp3" := mp3]>
               (<[os_path_join td "out.wav" := wav]> files)
         end
     end).

(** What [synthesize_on] makes of the engine it is given: it sets what the
    request gives, and leaves the rest as it finds it. *)
Definition configure (P : Platform) (voice : option string)
           (rate : option Z) (volume : option float) (e0 : Engine) : Engine :=
  choose_voice P voice
    (match volume with
     | Some v => set_volume v
     | None => fun e => e
     end
       (match Backend.rate_given rate with
        | Some r => set_rate r
        | None => fun e => e
        end e0)).

(** A world whose engine object of handle [length pre] is [e]. *)
Definition focus_at (pre : list Engine) (e : Engine) (post : list Engine)
           (files : gmap string bytes) (l : list Event) (t : nat) : World :=
  mkWorld (pre ++ e :: post) files l t.

(** A world with one more engine object than [es]. *)
Definition focus (es : list Engine) (e : Engine) (files : gmap string bytes)
           (l : list Event) (t : nat) : World :=
  mkWorld (es ++ [e]) files l t.

(** A batch entry point checks the lengths first when, on a document with
    an oversized item, it fails and no synthesis call is added. *)
Definition lengths_checked_first {A} (P : Platform) (batch : Reader -> M A)
  : Prop :=
  forall reader w,
    (exists it, In it (items_of (delivered reader))
                /\ oversized P it = true) ->
    is_error (result (batch reader w))
    /\ synthesis_calls (world_after (batch reader w)) = synthesis_calls w.

(** ** Sample platforms and inputs *)

Definition repeat_char (c : ascii) (n : nat) : string :=
  Nat.iter n (String c) EmptyString.

Definition tone (text : string) : bytes :=
  List.map Ascii.byte_of_ascii (list_ascii_of_string text).

Definition anna : Voice := mkVoice "voice.anna" (Some "Anna") (Some "Female").
Definition boris : Voice := mkVoice "voice.boris" (Some "Boris") (Some "Male").
Definition clara : Voice := mkVoice "voice.clara" (Some "Clara Female") None.

(** Everything installed, every backend answering. *)
Definition studio : Platform :=
  mkPlatform 2000 "gtts" true true true true
    (fun _ text _ => inr (tone text))
    200 1%float "voice.default"
    (inr (Some [boris; anna; clara]))
    (fun _ => None)
    (fun _ _ _ _ text => inr (tone ("RIFF" +:+ text)))
    (fun _ wav => inr wav)
    (fun _ => None).

(** As [studio], without pydub. *)
Definition no_pydub : Platform :=
  mkPlatform 2000 "gtts" true true true false
    (gtts_render studio) 200 1%float "voice.default"
    (voices studio) (set_voice_error studio)
    (engine_render studio) (wav_to_mp3 studio) (mkdir_error studio).

(** As [studio], with a cloud backend that refuses its second call. *)
Definition flaky : Platform :=
  mkPlatform 2000 "gtts" true true true true
    (fun n text _ => if Nat.eqb n 1 then inl "quota exceeded" else inr (tone text))
    200 1%float "voice.default"
    (voices studio) (set_voice_error studio)
    (engine_render studio) (wav_to_mp3 studio) (mkdir_error studio).

(** As [studio], with a voice enumeration that raises. *)
Definition mute : Platform :=
  mkPlatform 2000 "gtts" true true true true
    (gtts_render studio) 200 1%float "voice.default"
    (inl "driver error") (set_voice_error studio)
    (engine_render studio) (wav_to_mp3 studio) (mkdir_error studio).

Definition empty_world : World := mkWorld [] ∅ [] 0.

Definition csv_row (fn txt : option string) : Row :=
  <["filename" := fn]> (<["script_text" := txt]> ∅).

Definition three_rows : Reader :=
  delivers [csv_row (Some "a.mp3") (Some "hello");
            csv_row (Some "b.mp3") (Some "world");
            csv_row (Some "c.mp3") (Some "again")].

Definition long_text : string := repeat_char "a" 2001.

Definition padded_text : string := repeat_char "a" 2000 +:+ " ".

(** A cell one character over the field limit of the [csv] module. *)
Definition huge_cell : string :=
  repeat_char "a" (Z.to_nat (field_size_limit + 1)).

(** ** Vocabulary of the further properties *)

(** No file of the world is in a temporary directory yet to be made. *)
Definition temp_fresh (w : World) : Prop :=
  forall n p data,
    (tmpdirs w <= n)%nat -> fs w !! p = Some data ->
    under (tmp_name n) p = false.

(** The cloud backend calls a batch makes, one per item, in order. *)
Definition gtts_calls (lang : string) (items : list Item) : list Event :=
  List.map (fun it => EvGtts (script_text it) lang) items.

(** The name [save_with_gtts] writes an item under. *)
Definition gtts_out_name (it : Item) : string :=
  if negb (Py.endswith (Py.lower (filename it)) ".mp3")
  then filename it +:+ ".mp3" else filename it.

(** The two paths [save_with_pyttsx3] uses for an item. *)
Definition script_wav_path (outdir : string) (it : Item) : string :=
  Py.path_join outdir (Py.path_stem (filename it) +:+ ".wav").

Definition script_mp3_path (outdir : string) (it : Item) : string :=
  Py.path_join outdir (Py.path_stem (filename it) +:+ ".mp3").

(** A local synthesis call made with the properties of engine [e]. *)
Definition said_by (e : Engine) (ev : Event) : Prop :=
  match ev with
  | EvSay r v i _ _ => r = e_rate e /\ v = e_volume e /\ i = e_voice e
  | EvGtts _ _ => False
  | EvTranscode _ _ => True
  end.

(** As [studio], with the cloud engine disabled by policy and not
    installed. *)
Definition policy_off : Platform :=
  mkPlatform 2000 "gtts" false false true true
    (gtts_render studio) 200 1%float "voice.default"
    (voices studio) (set_voice_error studio)
    (engine_render studio) (wav_to_mp3 studio) (mkdir_error studio).

(** As [studio], with a transcoder that fails. *)
Definition no_ffmpeg : Platform :=
  mkPlatform 2000 "gtts" true true true true
    (gtts_render studio) 200 1%float "voice.default"
    (voices studio) (set_voice_error studio)
    (engine_render studio) (fun _ _ => inl "ffmpeg not found")
    (mkdir_error studio).


(** What the voice block of the script comes to: the error it raises, or
    the voice it sets, if any. *)
Definition script_voice_choice (P : Platform) (voice_pref : option string)
  : exn + option string :=
  match voice_pref with
  | None => inr None
  | Some p =>
      if Py.truthy p then
        match voices P with
        | inl msg => inl (LibError msg)
        | inr got =>
            match List.find (voice_matchesb p)
                            (match got with Some vs => vs | None => [] end) with
            | Some v =>
                if Py.truthy (v_id v) then
                  match set_voice_error P (v_id v) with
                  | Some msg => inl (LibError msg)
                  | None => inr (Some (v_id v))
                  end
                else inr None
            | None => inr None
            end
        end
      else inr None
  end.

(** The engine of a run of the script once its rate and volume are set. *)
Definition script_base_engine (P : Platform) (rate : option Z)
           (volume : option float) : Engine :=
  match volume with
  | Some v => set_volume v
  | None => fun e => e
  end (match Backend.rate_given rate with
       | Some r => set_rate r
       | None => fun e => e
       end (fresh_engine P)).

(** The engine the items of a run are synthesised on. *)
Definition script_engine (P : Platform) (voice_pref : option string)
           (rate : option Z) (volume : option float) : Engine :=
  match script_voice_choice P voice_pref with
  | inr (Some i) => set_voice i (script_base_engine P rate volume)
  | _ => script_base_engine P rate volume
  end.

(** The engine calls of a batch for the local engine: one per item, each
    with the properties of [e], in the temporary directory of its turn. *)
Fixpoint local_says (e : Engine) (t : nat) (items : list Item)
  : list Event :=
  match items with
  | [] => []
  | it :: rest =>
      EvSay (e_rate e) (e_volume e) (e_voice e) (script_text it)
            (os_path_join (tmp_name t) "out.wav")
      :: local_says e (S t) rest
  end.

Definition is_transcode (ev : Event) : bool :=
  match ev with EvTranscode _ _ => true | _ => false end.

(** ** Facts about the built-ins *)

Lemma append_nil (s : string) : EmptyString +:+ s = s.
Proof. reflexivity. Qed.

Lemma append_cons (c : ascii) (a b : string) :
  String c a +:+ b = String c (a +:+ b).
Proof. reflexivity. Qed.

Lemma append_assoc (a b c : string) : (a +:+ b) +:+ c = a +:+ (b +:+ c).
Proof.
  induction a as [|x a IH]; [reflexivity|].
  rewrite !append_cons. now f_equal.
Qed.

Lemma prefix_true_iff (a b : string) :
  String.prefix a b = true <-> exists post, b = a +:+ post.
Proof.
  revert b. induction a as [|x a IH]; intros b.
  - split; [intros _; now exists b | intros _; destruct b; reflexivity].
  - destruct b as [|y b]; simpl.
    + split; [discriminate | intros [post H]; discriminate].
    + destruct (Ascii.ascii_dec x y) as [->|Hne].
      * rewrite IH. split; intros [post H]; exists post.
        -- now rewrite append_cons, H.
        -- rewrite append_cons in H. now inversion H.
      * split; [discriminate |].
        intros [post H]. rewrite append_cons in H. inversion H; congruence.
Qed.

(** [needle in hay] is true exactly when [hay] is some text, [needle], some
    text. *)
Lemma str_in_contains (needle hay : string) :
  Py.str_in needle hay = true <-> contains hay needle.
Proof.
  unfold contains. induction hay as [|c hay IH]; cbn [Py.str_in].
  - rewrite orb_false_r, prefix_true_iff. split.
    + intros [post H]. now exists EmptyString, post.
    + intros [[|x pre] [post H]]; [now exists post | discriminate].
  - rewrite orb_true_iff, prefix_true_iff, IH. split.
    + intros [[post H] | [pre [post H]]].
      * now exists EmptyString, post.
      * exists (String c pre), post. now rewrite append_cons, H.
    + intros [[|x pre] [post H]].
      * left. now exists post.
      * right. rewrite append_cons in H. inversion H; subst. now exists pre, post.
Qed.

Lemma voice_matchesb_iff (pref : string) (v : Voice) :
  voice_matchesb pref v = true <-> voice_matches pref v.
Proof.
  unfold voice_matchesb, voice_matches.
  now rewrite orb_true_iff, !str_in_contains.
Qed.

Lemma substring_all (s : string) : String.substring 0 (String.length s) s = s.
Proof. induction s as [|d s IH]; simpl; [reflexivity | now f_equal]. Qed.

Lemma substring_split (n : nat) (s : string) :
  (n <= String.length s)%nat ->
  String.substring 0 n s +:+ String.substring n (String.length s - n) s = s.
Proof.
  revert s. induction n as [|n IH]; intros s Hn.
  - rewrite Nat.sub_0_r, substring_all.
    destruct s; reflexivity.
  - destruct s as [|c s]; simpl in *; [lia|].
    rewrite append_cons. f_equal. apply IH. lia.
Qed.

Lemma rfind_from_range (c : ascii) (s : string) (i last : Z) :
  (-1 <= last < i)%Z ->
  (-1 <= Py.rfind_from c s i last < i + Z.of_nat (String.length s))%Z.
Proof.
  revert i last. induction s as [|d s IH]; intros i last H; simpl.
  - lia.
  - destruct (Ascii.eqb d c).
    + specialize (IH (i + 1)%Z i). lia.
    + specialize (IH (i + 1)%Z last). lia.
Qed.

(** The two parts [os.path.splitext] returns make up the path. *)
Lemma splitext_join (p : string) :
  fst (Py.splitext p) +:+ snd (Py.splitext p) = p.
Proof.
  unfold Py.splitext.
  destruct (_ && _) eqn:E; simpl.
  - unfold Py.slice_to, Py.slice_from. apply substring_split.
    pose proof (rfind_from_range "." p 0 (-1)) as H. unfold Py.rfind. lia.
  - clear E. induction p as [|c p IH]; [reflexivity|].
    rewrite append_cons. now f_equal.
Qed.

(** ** What [os.path.splitext] calls the extension *)

Lemma rfind_from_spec (c : ascii) (s : string) (i last : Z) :
  let r := Py.rfind_from c s i last in
  (r = last /\ forall j, String.get j s <> Some c)
  \/ ((i <= r)%Z
      /\ String.get (Z.to_nat (r - i)) s = Some c
      /\ forall j, (Z.to_nat (r - i) < j)%nat -> String.get j s <> Some c).
Proof.
  revert i last. induction s as [|d s IH]; intros i last; cbn [Py.rfind_from].
  - left. split; [reflexivity | intros j; destruct j; discriminate].
  - cbv zeta.
    destruct (IH (i + 1)%Z (if Ascii.eqb d c then i else last))
      as [[E N] | (L & G & N)].
    + destruct (Ascii.eqb_spec d c) as [->|Hne].
      * right. rewrite E, Z.sub_diag. cbn. repeat split; [lia|].
        intros [|j] Hj; [lia|]. apply N.
      * left. split; [exact E|]. intros [|j]; cbn; [congruence | apply N].
    + right. split; [lia|].
      replace (Z.to_nat (Py.rfind_from c s (i + 1)
                           (if Ascii.eqb d c then i else last) - i))
        with (S (Z.to_nat (Py.rfind_from c s (i + 1)
                           (if Ascii.eqb d c then i else last) - (i + 1))))
        by lia.
      split; [exact G|].
      intros [|j] Hj; [lia|]. cbn. apply N. lia.
Qed.

Lemma get_substring_tail (n j : nat) (s : string) :
  String.get j (String.substring n (String.length s - n) s)
  = if (j + n <? String.length s)%nat then String.get (j + n) s else None.
Proof.
  destruct (Nat.ltb_spec (j + n) (String.length s)) as [H|H].
  - apply String.substring_correct1. lia.
  - apply String.substring_correct2. lia.
Qed.

(** The extension is empty, or it starts at the last dot of the path and
    has no other dot and no separator. *)
Lemma splitext_extension (p : string) :
  snd (Py.splitext p) = ""
  \/ (String.get 0 (snd (Py.splitext p)) = Some "."%char
      /\ forall j, (0 < j)%nat ->
           String.get j (snd (Py.splitext p)) <> Some "."%char
           /\ String.get j (snd (Py.splitext p)) <> Some "/"%char).
Proof.
  unfold Py.splitext.
  destruct (_ && _) eqn:E; [|now left]. right.
  apply andb_true_iff in E as [Hlt _]. apply Z.ltb_lt in Hlt.
  cbn [snd]. unfold Py.slice_from, Py.rfind in *.
  pose proof (rfind_from_range "." p 0 (-1)) as Rd.
  pose proof (rfind_from_range "/" p 0 (-1)) as Rs.
  destruct (rfind_from_spec "." p 0 (-1)) as [[Ed _] | (Ld & Gd & Nd)];
    [lia|].
  rewrite Z.sub_0_r in Gd, Nd.
  set (dot := Z.to_nat (Py.rfind_from "." p 0 (-1))) in *.
  split.
  - rewrite get_substring_tail. cbn [Nat.add].
    destruct (Nat.ltb_spec dot (String.length p)) as [H|H]; [exact Gd | lia].
  - intros j Hj. rewrite get_substring_tail.
    destruct (Nat.ltb_spec (j + dot) (String.length p)) as [H|H];
      [|split; discriminate].
    split; [apply Nd; lia|].
    destruct (rfind_from_spec "/" p 0 (-1)) as [[_ Ns] | (Ls & _ & Ns)];
      [apply Ns|].
    apply Ns. lia.
Qed.

(** The scan of [os.path.splitext] finds a character that is not a dot
    exactly when there is one in the range it looks at. *)
Lemma splitext_scan_true_iff (p : string) (n i : nat) :
  Py.splitext_scan p i n = true
  <-> exists k, (i <= k < i + n)%nat /\ String.get k p <> Some "."%char.
Proof.
  revert i. induction n as [|n IH]; intros i; cbn [Py.splitext_scan].
  - split; [discriminate | intros (k & Hk & _); lia].
  - destruct (String.get i p) as [c|] eqn:G.
    + destruct (Ascii.eqb_spec c ".") as [->|Hc]; cbn [negb].
      * rewrite IH. split; intros (k & Hk & Gk).
        -- exists k. split; [lia | exact Gk].
        -- exists k. split; [|exact Gk].
           destruct (Nat.eq_dec i k) as [->|]; [congruence | lia].
      * split; [intros _ | reflexivity].
        exists i. split; [lia|]. rewrite G. congruence.
    + split; [intros _ | reflexivity].
      exists i. split; [lia|]. rewrite G. discriminate.
Qed.

(** [s.rfind(c)] is the index of the last [c]. *)
Lemma rfind_last (c : ascii) (s : string) (d : nat) :
  String.get d s = Some c ->
  (forall j, (d < j)%nat -> String.get j s <> Some c) ->
  Py.rfind c s = Z.of_nat d.
Proof.
  intros G N. unfold Py.rfind.
  destruct (rfind_from_spec c s 0 (-1)) as [[_ A] | (L & G' & N')].
  - exfalso. exact (A d G).
  - rewrite Z.sub_0_r in G', N'.
    set (r := Py.rfind_from c s 0 (-1)) in *.
    destruct (Nat.lt_trichotomy (Z.to_nat r) d) as [H|[H|H]].
    + exfalso. exact (N' d H G).
    + lia.
    + exfalso. exact (N (Z.to_nat r) H G').
Qed.

(** Where [os.path.splitext] splits: at the last dot, when there is one
    after the last separator and after a character that is not a dot. *)
Lemma splitext_at (p : string) (d : nat) :
  splits_at p d ->
  Py.splitext p
  = (String.substring 0 d p, String.substring d (String.length p - d) p).
Proof.
  intros (G & N & k & Hk & Gk & Sk).
  unfold Py.splitext. rewrite (rfind_last "." p d G N).
  assert (S' : (Py.rfind "/" p < Z.of_nat k)%Z).
  { unfold Py.rfind.
    destruct (rfind_from_spec "/" p 0 (-1)) as [[E _] | (L & Gs & _)];
      [lia|].
    rewrite Z.sub_0_r in Gs.
    destruct (Z.ltb_spec (Py.rfind_from "/" p 0 (-1)) (Z.of_nat k)) as [H|H];
      [exact H|].
    exfalso. apply (Sk (Z.to_nat (Py.rfind_from "/" p 0 (-1)))); [lia|].
    exact Gs. }
  pose proof (rfind_from_range "/" p 0 (-1)) as Rs. fold (Py.rfind "/" p) in Rs.
  assert (Lt : (Py.rfind "/" p <? Z.of_nat d)%Z = true)
    by (apply Z.ltb_lt; lia).
  rewrite Lt. cbn [andb].
  assert (Sc : Py.splitext_scan p (Z.to_nat (Py.rfind "/" p + 1))
                 (Z.to_nat (Z.of_nat d - (Py.rfind "/" p + 1))) = true).
  { apply splitext_scan_true_iff. exists k. split; [lia | exact Gk]. }
  rewrite Sc. unfold Py.slice_to, Py.slice_from. now rewrite Nat2Z.id.
Qed.

Lemma splitext_none (p : string) :
  (forall d, ~ splits_at p d) -> Py.splitext p = (p, "").
Proof.
  intros H. unfold Py.splitext.
  destruct (_ && _) eqn:E; [|reflexivity].
  exfalso. apply andb_true_iff in E as [Hlt Sc]. apply Z.ltb_lt in Hlt.
  apply splitext_scan_true_iff in Sc as (k & Hk & Gk).
  pose proof (rfind_from_range "/" p 0 (-1)) as Rs. fold (Py.rfind "/" p) in Rs.
  unfold Py.rfind at 1 in Hlt.
  destruct (rfind_from_spec "." p 0 (-1)) as [[Ed _] | (Ld & Gd & Nd)].
  { unfold Py.rfind in *. lia. }
  rewrite Z.sub_0_r in Gd, Nd. fold (Py.rfind "." p) in Ld, Gd, Nd, Hlt.
  apply (H (Z.to_nat (Py.rfind "." p))).
  split; [exact Gd|]. split; [exact Nd|].
  exists k. split; [lia|]. split; [exact Gk|].
  intros j Hj. unfold Py.rfind in Hk, Rs.
  destruct (rfind_from_spec "/" p 0 (-1)) as [[_ Ns] | (Ls & _ & Ns)];
    [apply Ns|].
  apply Ns. lia.
Qed.

(** ** Names in the archive *)

Lemma get_cons (c : ascii) (s : string) (j : nat) :
  String.get (S j) (String c s) = String.get j s.
Proof. reflexivity. Qed.

Lemma nul_free_app (a b : string) :
  nul_free a -> nul_free b -> nul_free (a +:+ b).
Proof.
  intros Ha Hb. induction a as [|c a IH]; [exact Hb|].
  rewrite append_cons. intros [|j].
  - exact (Ha 0%nat).
  - rewrite get_cons. apply IH. intros i. exact (Ha (S i)).
Qed.

Lemma nul_free_app_l (a b : string) : nul_free (a +:+ b) -> nul_free a.
Proof.
  induction a as [|c a IH]; intros H.
  - intros [|j]; discriminate.
  - rewrite append_cons in H. intros [|j].
    + exact (H 0%nat).
    + rewrite get_cons. apply IH. intros i. exact (H (S i)).
Qed.

Lemma name_until_nul_id (s : string) : nul_free s -> name_until_nul s = s.
Proof.
  induction s as [|c s IH]; intros H; [reflexivity|].
  cbn [name_until_nul].
  destruct (Ascii.eqb_spec c "000") as [->|_].
  - exfalso. now apply (H 0%nat).
  - f_equal. apply IH. intros j. exact (H (S j)).
Qed.

Lemma name_until_nul_cut (a b : string) :
  nul_free a -> name_until_nul (a +:+ String "000" b) = a.
Proof.
  induction a as [|c a IH]; intros H.
  - reflexivity.
  - rewrite append_cons. cbn [name_until_nul].
    destruct (Ascii.eqb_spec c "000") as [->|_].
    + exfalso. now apply (H 0%nat).
    + f_equal. apply IH. intros j. exact (H (S j)).
Qed.

Lemma entry_name_nul_free (it : Item) :
  nul_free (filename it) -> nul_free (entry_name it).
Proof.
  intros H. unfold entry_name. apply nul_free_app.
  - apply (nul_free_app_l _ (snd (Py.splitext (filename it)))).
    now rewrite splitext_join.
  - intros [|[|[|[|[|j]]]]]; discriminate.
Qed.

Lemma writestr_inr (zf zf' : Archive) (name : string) (data : bytes) :
  writestr zf name data = inr zf' ->
  zf' = zf ++ [(name_until_nul name, data)]
  /\ name_until_nul name <> ""
  /\ (encoded_length (name_until_nul name) <= 65535)%Z.
Proof.
  unfold writestr. destruct (name_until_nul name) as [|c s]; [discriminate|].
  destruct (Z.ltb_spec 65535 (encoded_length (String c s))) as [H|H];
    [discriminate|].
  intros [= <-]. split; [reflexivity|]. split; [discriminate | exact H].
Qed.

Lemma writestr_inl (zf : Archive) (name : string) (data : bytes) (e : exn) :
  writestr zf name data = inl e ->
  (name_until_nul name = "" /\ e = LibError "string index out of range")
  \/ ((65535 < encoded_length (name_until_nul name))%Z
      /\ e = LibError "ushort format requires 0 <= number <= 65535").
Proof.
  unfold writestr. destruct (name_until_nul name) as [|c s].
  - intros [= <-]. now left.
  - destruct (Z.ltb_spec 65535 (encoded_length (String c s))) as [H|H];
      [|discriminate].
    intros [= <-]. now right.
Qed.

(** ** Reading the rows of a batch *)

Lemma find_split {A} (f : A -> bool) (l : list A) (x : A) :
  List.find f l = Some x <->
  exists pre post,
    l = pre ++ x :: post /\ (forall y, In y pre -> f y = false) /\ f x = true.
Proof.
  split.
  - induction l as [|a l IH]; simpl; [discriminate|].
    destruct (f a) eqn:Fa.
    + intros [= ->]. exists [], l. repeat split; [intros y []| exact Fa].
    + intros H. destruct (IH H) as (pre & post & -> & Hpre & Hx).
      exists (a :: pre), post. repeat split; [|exact Hx].
      intros y [<-|Hy]; [exact Fa | now apply Hpre].
  - intros (pre & post & -> & Hpre & Hx).
    induction pre as [|a pre IH]; simpl.
    + now rewrite Hx.
    + rewrite (Hpre a (or_introl eq_refl)). apply IH.
      intros y Hy. apply Hpre. now right.
Qed.

Lemma find_none_iff {A} (f : A -> bool) (l : list A) :
  List.find f l = None <-> forall y, In y l -> f y = false.
Proof.
  induction l as [|a l IH]; simpl.
  - split; [intros _ y [] | reflexivity].
  - destruct (f a) eqn:Fa.
    + split; [discriminate|]. intros H. specialize (H a (or_introl eq_refl)).
      congruence.
    + rewrite IH. split.
      * intros H y [<-|Hy]; [exact Fa | now apply H].
      * intros H y Hy. apply H. now right.
Qed.

Lemma items_of_cons (r : Row) (reader : list Row) :
  items_of (r :: reader) =
  if row_valid r then mkItem (row_filename r) (row_text r) :: items_of reader
  else items_of reader.
Proof. unfold items_of. simpl. now destruct (row_valid r). Qed.

Lemma items_of_filter (reader : list Row) :
  items_of (List.filter row_valid reader) = items_of reader.
Proof.
  induction reader as [|r reader IH]; [reflexivity|].
  simpl. destruct (row_valid r) eqn:V.
  - now rewrite !items_of_cons, V, IH.
  - now rewrite items_of_cons, V.
Qed.

Lemma delivered_delivers (rows : list Row) : delivered (delivers rows) = rows.
Proof. induction rows as [|r rows IH]; simpl; [reflexivity | now f_equal]. Qed.

Lemma reader_error_delivers (rows : list Row) :
  reader_error (delivers rows) = None.
Proof. induction rows as [|r rows IH]; simpl; [reflexivity | exact IH]. Qed.

Lemma delivered_without_invalid_rows (reader : Reader) :
  delivered (without_invalid_rows reader)
  = List.filter row_valid (delivered reader).
Proof.
  induction reader as [|[r|msg] reader IH]; simpl; [reflexivity| |reflexivity].
  destruct (row_valid r); simpl; now rewrite IH.
Qed.

Lemma reader_error_without_invalid_rows (reader : Reader) :
  reader_error (without_invalid_rows reader) = reader_error reader.
Proof.
  induction reader as [|[r|msg] reader IH]; simpl; [reflexivity| |reflexivity].
  destruct (row_valid r); simpl; exact IH.
Qed.

Section Reading.

Variable P : Platform.

(** The reading loop of [tts_csv], with its checks one after the other:
    the rows the reader delivers are filtered and the first oversized item
    is looked for; then comes the error of the reader, if it has one. *)
Lemma read_rows_staged (reader : Reader) (rows : list Item) :
  Backend.read_rows P reader rows =
  match List.find (oversized P) (items_of (delivered reader)) with
  | Some it => inl (row_too_long P it)
  | None =>
      match reader_error reader with
      | Some msg => inl (LibError msg)
      | None => inr (rows ++ items_of (delivered reader))
      end
  end.
Proof.
  revert rows. induction reader as [|[r|msg] reader IH]; intros rows.
  - simpl. now rewrite app_nil_r.
  - cbn [delivered reader_error]. rewrite items_of_cons.
    cbn [Backend.read_rows].
    fold (row_filename r) (row_text r). unfold row_valid.
    destruct (Py.truthy (row_filename r)); [|apply IH].
    destruct (Py.truthy (row_text r)); [|apply IH].
    cbn [negb orb andb List.find]. unfold oversized at 1. cbn [script_text].
    destruct (MAX_CHARS P <? Py.len (row_text r))%Z; [reflexivity|].
    rewrite IH. destruct (List.find _ _); [reflexivity|].
    destruct (reader_error reader); [reflexivity|].
    now rewrite <- app_assoc.
  - reflexivity.
Qed.

Lemma load_rows_items (reader : Reader) (rows : list Item) :
  Script.load_rows reader rows =
  match reader_error reader with
  | Some msg => inl (LibError msg)
  | None => inr (rows ++ items_of (delivered reader))
  end.
Proof.
  revert rows. induction reader as [|[r|msg] reader IH]; intros rows.
  - simpl. now rewrite app_nil_r.
  - cbn [delivered reader_error]. rewrite items_of_cons.
    cbn [Script.load_rows].
    fold (row_filename r) (row_text r). fold (row_valid r).
    destruct (row_valid r); rewrite IH; [|reflexivity].
    destruct (reader_error reader); [reflexivity|].
    now rewrite <- app_assoc.
  - reflexivity.
Qed.

Lemma load_from_csv_staged (reader : Reader) :
  Script.load_from_csv reader =
  match reader_error reader with
  | Some msg => inl (LibError msg)
  | None =>
      match items_of (delivered reader) with
      | [] => inl (SystemExit empty_batch)
      | rows => inr rows
      end
  end.
Proof.
  unfold Script.load_from_csv. rewrite load_rows_items.
  destruct (reader_error reader); [reflexivity|]. cbn [app].
  destruct (items_of (delivered reader)); reflexivity.
Qed.

Lemma tts_csv_unfold (reader : Reader) (engine lang : string)
      (voice : option string) (rate : option Z) (volume : option float)
      (w : World) :
  Backend.is_known_engine (engine_name engine) = true ->
  Backend.tts_csv P (Some reader) engine lang voice rate volume w =
  match List.find (oversized P) (items_of (delivered reader)) with
  | Some it => (inl (row_too_long P it), w)
  | None =>
      match reader_error reader with
      | Some msg => (inl (LibError msg), w)
      | None =>
          match items_of (delivered reader) with
          | [] => (inl (HTTPException 400 empty_batch), w)
          | rows =>
              bind (Backend.zip_loop P (engine_name engine) lang voice rate
                                     volume rows [])
                   (fun zf =>
                      ret (mkResponse "application/zip"
                             [("Content-Disposition",
                               "attachment; filename=neonvox_batch.zip")]
                             (BodyZip zf))) w
          end
      end
  end.
Proof.
  intros K. unfold Backend.tts_csv. fold (engine_name engine). rewrite K.
  cbn [negb]. rewrite read_rows_staged. cbn [app].
  destruct (List.find _ _); [reflexivity|].
  destruct (reader_error reader); [reflexivity|].
  destruct (items_of (delivered reader)); reflexivity.
Qed.

(** Whatever the reading loop refuses, it refuses in the world as it was. *)
Lemma tts_csv_refusal (reader : Reader) (engine lang : string)
      (voice : option string) (rate : option Z) (volume : option float)
      (w : World) (e : exn) :
  Backend.read_rows P reader [] = inl e ->
  let r := Backend.tts_csv P (Some reader) engine lang voice rate volume w in
  is_error (result r) /\ world_after r = w
  /\ (Backend.is_known_engine (engine_name engine) = true ->
      result r = inl e).
Proof.
  intros R r. subst r. unfold Backend.tts_csv. fold (engine_name engine).
  destruct (Backend.is_known_engine (engine_name engine)); cbn [negb].
  - unfold bind, lift. rewrite R. split; [now eexists|]. split; reflexivity.
  - split; [now eexists|]. split; [reflexivity | discriminate].
Qed.

End Reading.

(** The HTTP batch endpoint checks the lengths first. *)
Lemma tts_csv_lengths_checked_first
      (P : Platform) (engine lang : string) (voice : option string)
      (rate : option Z) (volume : option float) :
  lengths_checked_first P
    (fun reader =>
       Backend.tts_csv P (Some reader) engine lang voice rate volume).
Proof.
  intros reader w (it & Hin & Hit).
  assert (F : exists it',
             List.find (oversized P) (items_of (delivered reader)) = Some it').
  { destruct (List.find (oversized P) (items_of (delivered reader)))
      as [it'|] eqn:E; [now exists it'|].
    rewrite (proj1 (find_none_iff _ _) E it Hin) in Hit. discriminate. }
  destruct F as [it' F].
  destruct (tts_csv_refusal P reader engine lang voice rate volume w
              (row_too_long P it')) as (He & Hw & _).
  { now rewrite read_rows_staged, F. }
  split; [exact He | now rewrite Hw].
Qed.

(** C1, as the code has it: in the HTTP batch endpoint the item lengths are
    checked while the rows are read, before the synthesis loop starts.  When
    [it] is the first oversized item among the rows the reader delivers,
    [tts_csv] fails, the world is as it was (so no backend was called, for
    any item), and for a known engine name the error is the one that names
    [it] and the limit.  When the reader raises (as [csv.DictReader] does at
    a cell over its own limit, which it does not deliver), [tts_csv] fails
    in the world as it was too, and where no oversized item came before,
    with the reader's error. *)
Theorem tts_csv_checks_lengths_first
        (P : Platform) (reader : Reader) (engine lang : string)
        (voice : option string) (rate : option Z) (volume : option float)
        (w : World) :
  let r := Backend.tts_csv P (Some reader) engine lang voice rate volume w in
  (forall (pre post : list Item) (it : Item),
      items_of (delivered reader) = pre ++ it :: post ->
      (forall x, In x pre -> oversized P x = false) ->
      oversized P it = true ->
      is_error (result r)
      /\ world_after r = w
      /\ synthesis_calls (world_after r) = synthesis_calls w
      /\ (Backend.is_known_engine (engine_name engine) = true ->
          result r = inl (row_too_long P it)))
  /\ (forall msg,
        reader_error reader = Some msg ->
        is_error (result r)
        /\ world_after r = w
        /\ synthesis_calls (world_after r) = synthesis_calls w
        /\ (Backend.is_known_engine (engine_name engine) = true ->
            List.find (oversized P) (items_of (delivered reader)) = None ->
            result r = inl (LibError msg))).
Proof.
  intros r. split.
  - intros pre post it Hsplit Hpre Hit.
    assert (F : List.find (oversized P) (items_of (delivered reader))
                = Some it).
    { apply find_split. now exists pre, post. }
    destruct (tts_csv_refusal P reader engine lang voice rate volume w
                (row_too_long P it)) as (He & Hw & Hr).
    { now rewrite read_rows_staged, F. }
    fold r in He, Hw, Hr. rewrite Hw. auto.
  - intros msg Hmsg.
    assert (R : exists e, Backend.read_rows P reader [] = inl e
                /\ (List.find (oversized P) (items_of (delivered reader))
                    = None -> e = LibError msg)).
    { rewrite read_rows_staged, Hmsg.
      destruct (List.find _ _) as [it|]; eexists; split;
        [reflexivity | discriminate | reflexivity | reflexivity]. }
    destruct R as (e & R & He').
    destruct (tts_csv_refusal P reader engine lang voice rate volume w e R)
      as (He & Hw & Hr).
    fold r in He, Hw, Hr. rewrite Hw.
    split; [exact He|]. split; [reflexivity|]. split; [reflexivity|].
    intros K F. rewrite (Hr K). now rewrite (He' F).
Qed.

Lemma tts_csv_checks_lengths_first_witness :
  result (Backend.tts_csv studio
            (Some (csv_reader
                     [csv_row (Some "a.mp3") (Some "hello");
                      csv_row (Some " b.mp3 ") (Some long_text);
                      csv_row (Some "c.mp3") (Some long_text)]))
            "gtts" "en" None None None empty_world)
  = inl (HTTPException 400 "Row 'b.mp3': text exceeds 2000 chars")
  /\ result (Backend.tts_csv studio
               (Some (csv_reader
                        [csv_row (Some "a.mp3") (Some "hello");
                         csv_row (Some "b.mp3") (Some huge_cell)]))
               "gtts" "en" None None None empty_world)
     = inl (LibError "field larger than field limit (131072)").
Proof.
  split.
  - refine (proj2 (proj2 (proj2
      (proj1 (tts_csv_checks_lengths_first studio _ "gtts" "en" None None
                None empty_world)
         [mkItem "a.mp3" "hello"] [mkItem "c.mp3" long_text]
         (mkItem "b.mp3" long_text) _ _ _))) _).
    + vm_compute. reflexivity.
    + intros x [<-|[]]. vm_compute. reflexivity.
    + vm_compute. reflexivity.
    + vm_compute. reflexivity.
  - refine (proj2 (proj2 (proj2
      (proj2 (tts_csv_checks_lengths_first studio _ "gtts" "en" None None
                None empty_world)
         "field larger than field limit (131072)" _))) _ _).
    + vm_compute. reflexivity.
    + vm_compute. reflexivity.
    + vm_compute. reflexivity.
Defined.

(** C1, as stated, fails on the command-line script: it has no length limit,
    so a document with an oversized item is synthesised all the same. *)
Lemma script_checks_no_lengths :
  ~ lengths_checked_first studio
      (fun reader =>
         Script.main studio reader "gtts" "out" "en" None None None false).
Proof.
  intros H.
  destruct (H (delivers [csv_row (Some "a.mp3") (Some long_text)])
              empty_world) as [[e He] _].
  - exists (mkItem "a.mp3" long_text). split; vm_compute; auto.
  - vm_compute in He. discriminate He.
Qed.

(** C6, as the code has it: a row the reader delivers that lacks the
    filename or the text (after trimming) is dropped while the rows are
    read.  Dropping is silent: the batch runs as if the reader had not
    delivered the row; the length check and the emptiness check see the
    remaining items only; and when the reader reaches the end of the
    document with no item left, the document is refused as an empty batch, by
    the HTTP endpoint (status 400) and by the script ([SystemExit]).  When
    the reader raises, the batch ends with the reader's error instead, unless
    an oversized item came first in the HTTP endpoint. *)
Theorem rows_without_both_cells_are_skipped
        (P : Platform) (reader : Reader) (engine lang : string)
        (voice : option string) (rate : option Z) (volume : option float)
        (w : World) :
  Backend.is_known_engine (engine_name engine) = true ->
  Backend.tts_csv P (Some reader) engine lang voice rate volume w
  = Backend.tts_csv P (Some (without_invalid_rows reader)) engine lang voice
                    rate volume w
  /\ Backend.read_rows P reader [] =
     match List.find (oversized P) (items_of (delivered reader)) with
     | Some it => inl (row_too_long P it)
     | None =>
         match reader_error reader with
         | Some msg => inl (LibError msg)
         | None => inr (items_of (delivered reader))
         end
     end
  /\ (reader_error reader = None ->
      items_of (delivered reader) = [] ->
      Backend.tts_csv P (Some reader) engine lang voice rate volume w
      = (inl (HTTPException 400 empty_batch), w))
  /\ Script.load_from_csv reader
     = Script.load_from_csv (without_invalid_rows reader)
  /\ Script.load_from_csv reader =
     match reader_error reader with
     | Some msg => inl (LibError msg)
     | None =>
         match items_of (delivered reader) with
         | [] => inl (SystemExit empty_batch)
         | rows => inr rows
         end
     end.
Proof.
  intros K.
  split; [|split; [|split; [|split]]].
  - rewrite !tts_csv_unfold by exact K.
    now rewrite delivered_without_invalid_rows,
      reader_error_without_invalid_rows, items_of_filter.
  - now rewrite read_rows_staged.
  - intros E1 E2. rewrite tts_csv_unfold by exact K. now rewrite E1, E2.
  - rewrite !load_from_csv_staged.
    now rewrite delivered_without_invalid_rows,
      reader_error_without_invalid_rows, items_of_filter.
  - apply load_from_csv_staged.
Qed.

Lemma rows_without_both_cells_are_skipped_witness :
  Backend.tts_csv studio
    (Some (csv_reader [csv_row (Some "a.mp3") None;
                       csv_row (Some "  ") (Some long_text)]))
    "gtts" "en" None None None empty_world
  = (inl (HTTPException 400 empty_batch), empty_world).
Proof.
  refine (proj1 (proj2 (proj2
    (rows_without_both_cells_are_skipped studio _ "gtts" "en" None None None
       empty_world _))) _ _).
  - vm_compute. reflexivity.
  - vm_compute. reflexivity.
  - vm_compute. reflexivity.
Defined.

(** C6, as stated, fails on a row that [csv.DictReader] does not deliver:
    a row without a filename whose text is over the field limit of the
    reader is not skipped.  The reader raises there, and the batch fails,
    in the HTTP endpoint and in the script, while the document without that
    row is synthesised. *)
Lemma row_over_the_field_limit_is_not_skipped :
  let bad := csv_row (Some "") (Some huge_cell) in
  let good := csv_row (Some "a.mp3") (Some "hello") in
  row_valid bad = false
  /\ result (Backend.tts_csv studio (Some (csv_reader [bad; good]))
               "gtts" "en" None None None empty_world)
     = inl (LibError "field larger than field limit (131072)")
  /\ result (Script.main studio (csv_reader [bad; good])
               "gtts" "out" "en" None None None false empty_world)
     = inl (LibError "field larger than field limit (131072)")
  /\ (exists resp,
        result (Backend.tts_csv studio (Some (csv_reader [good]))
                  "gtts" "en" None None None empty_world) = inr resp)
  /\ result (Script.main studio (csv_reader [good])
               "gtts" "out" "en" None None None false empty_world)
     = inr tt.
Proof.
  split; [vm_compute; reflexivity|].
  split; [vm_compute; reflexivity|].
  split; [vm_compute; reflexivity|].
  split; [eexists; vm_compute; reflexivity | vm_compute; reflexivity].
Qed.

(** ** The synthesis loop of a batch *)

Section Batch.

Variable P : Platform.
Variables (engine lang : string) (voice : option string)
          (rate : option Z) (volume : option float).

Local Abbreviation loop := (Backend.zip_loop P engine lang voice rate volume).
Local Abbreviation audio := (item_audio P engine lang voice rate volume).

Lemma zip_loop_cons (it : Item) (rest : list Item) (zf : Archive) (w : World) :
  loop (it :: rest) zf w =
  match audio it w with
  | (inl e, w') => (inl e, w')
  | (inr data, w') =>
      match writestr zf (entry_name it) data with
      | inl e => (inl e, w')
      | inr zf' => loop rest zf' w'
      end
  end.
Proof.
  cbn [Backend.zip_loop]. unfold bind at 1. fold (entry_name it).
  change (if String.eqb engine "gtts"
          then Backend.synthesize_gtts P (script_text it) lang
          else Backend.synthesize_pyttsx3_mp3 P (script_text it) voice rate
                                              volume)
    with (audio it).
  destruct (audio it w) as [[e|data] w']; [reflexivity|].
  unfold bind, lift. destruct (writestr zf (entry_name it) data); reflexivity.
Qed.

(** A loop that ends well has written one entry per item, in order. *)
Lemma zip_loop_names (rows : list Item) :
  forall zf w zf' w',
    loop rows zf w = (inr zf', w') ->
    List.map fst zf' = List.map fst zf ++ List.map stored_name rows.
Proof.
  induction rows as [|it rows IH]; intros zf w zf' w' H.
  - injection H as <- _. now rewrite app_nil_r.
  - rewrite zip_loop_cons in H.
    destruct (audio it w) as [[e|data] w1]; [discriminate|].
    destruct (writestr zf (entry_name it) data) as [e|zf1] eqn:W;
      [discriminate|].
    apply writestr_inr in W as (-> & _).
    rewrite (IH _ _ _ _ H), List.map_app, <- app_assoc. reflexivity.
Qed.

(** Items that are synthesised do not change what follows them. *)
Lemma zip_loop_app (pre rest : list Item) :
  forall zf w zf1 w1,
    loop pre zf w = (inr zf1, w1) ->
    loop (pre ++ rest) zf w = loop rest zf1 w1.
Proof.
  induction pre as [|it pre IH]; intros zf w zf1 w1 H.
  - now injection H as <- <-.
  - rewrite <- app_comm_cons, zip_loop_cons. rewrite zip_loop_cons in H.
    destruct (audio it w) as [[e|data] w']; [discriminate|].
    destruct (writestr zf (entry_name it) data) as [e|zf2]; [discriminate|].
    now apply IH.
Qed.

(** The loop ends at the first item that fails, with that item's error and
    in the world that item's call left. *)
Lemma zip_loop_fail_fast (pre post : list Item) (it : Item) :
  forall zf w zf1 w1 e w2,
    loop pre zf w = (inr zf1, w1) ->
    audio it w1 = (inl e, w2) ->
    loop (pre ++ it :: post) zf w = (inl e, w2).
Proof.
  intros zf w zf1 w1 e w2 Hpre Hit.
  rewrite (zip_loop_app _ _ _ _ _ _ Hpre), zip_loop_cons. now rewrite Hit.
Qed.

(** Every name a loop has written is a name the archive can hold. *)
Lemma zip_loop_stored (rows : list Item) :
  forall zf w zf' w',
    loop rows zf w = (inr zf', w') ->
    Forall (fun en => fst en <> ""
                      /\ (encoded_length (fst en) <= 65535)%Z) zf ->
    Forall (fun en => fst en <> ""
                      /\ (encoded_length (fst en) <= 65535)%Z) zf'.
Proof.
  induction rows as [|it rows IH]; intros zf w zf' w' H F.
  - now injection H as <- _.
  - rewrite zip_loop_cons in H.
    destruct (audio it w) as [[e|data] w1]; [discriminate|].
    destruct (writestr zf (entry_name it) data) as [e|zf1] eqn:W;
      [discriminate|].
    apply writestr_inr in W as (-> & Hn & Hl).
    apply (IH _ _ _ _ H). apply Forall_app. split; [exact F|].
    constructor; [|constructor]. now split.
Qed.

End Batch.

Lemma zip_read_last (zf1 zf2 : Archive) (name : string) (data : bytes) :
  ~ In name (List.map fst zf2) ->
  zip_read (zf1 ++ (name, data) :: zf2) name = Some data.
Proof.
  intros Hnot. induction zf1 as [|[n d] zf1 IH]; simpl.
  - assert (E : zip_read zf2 name = None).
    { induction zf2 as [|[n d] zf2 IH]; [reflexivity|]. simpl in *.
      rewrite IH by tauto.
      destruct (String.eqb_spec n name); [tauto | reflexivity]. }
    now rewrite E, String.eqb_refl.
  - now rewrite IH.
Qed.

(** C5, as the code has it: when a batch succeeds, the response carries an
    archive with one entry per item of the document, in the order of the
    items.  The name given for an entry is the item's filename with its
    extension replaced by [.mp3]: where [os.path.splitext] splits the
    filename (at its last dot, when that dot comes after the last separator
    and after a character of the last component that is not a dot), what is
    before that dot, then [.mp3]; where it does not split, the whole
    filename, then [.mp3].  The archive keeps of that name what comes before
    its first NUL character: the name itself when the filename has none.
    Names are not made unique, and of the entries of one name the last one
    is the one read back. *)
Theorem batch_archive_has_one_entry_per_item
        (P : Platform) (reader : Reader) (engine lang : string)
        (voice : option string) (rate : option Z) (volume : option float)
        (w w' : World) (resp : Response) :
  Backend.tts_csv P (Some reader) engine lang voice rate volume w
  = (inr resp, w') ->
  exists zf,
    body resp = BodyZip zf
    /\ length zf = length (items_of (delivered reader))
    /\ List.map fst zf = List.map stored_name (items_of (delivered reader))
    /\ (forall it : Item,
          (nul_free (filename it) -> stored_name it = entry_name it)
          /\ (forall a b, entry_name it = a +:+ String "000" b ->
                nul_free a -> stored_name it = a)
          /\ (forall d, splits_at (filename it) d ->
                entry_name it
                = String.substring 0 d (filename it) +:+ ".mp3")
          /\ ((forall d, ~ splits_at (filename it) d) ->
                entry_name it = filename it +:+ ".mp3"))
    /\ (forall zf1 zf2 name data,
          zf = zf1 ++ (name, data) :: zf2 ->
          ~ In name (List.map fst zf2) ->
          zip_read zf name = Some data).
Proof.
  intros H.
  destruct (Backend.is_known_engine (engine_name engine)) eqn:K.
  2:{ unfold Backend.tts_csv in H. fold (engine_name engine) in H.
      rewrite K in H. discriminate H. }
  rewrite tts_csv_unfold in H by exact K.
  destruct (List.find _ _); [discriminate|].
  destruct (reader_error reader); [discriminate|].
  destruct (items_of (delivered reader)) as [|it0 rows0] eqn:E;
    [discriminate|].
  unfold bind in H.
  destruct (Backend.zip_loop _ _ _ _ _ _ _ _ _) as [[e|zf] w1] eqn:L;
    [discriminate|].
  injection H as <- <-. exists zf. cbn [body].
  pose proof (zip_loop_names _ _ _ _ _ _ _ _ _ _ _ L) as N.
  cbn [List.map app] in N.
  split; [reflexivity|]. split; [|split; [exact N|split]].
  - rewrite <- (List.length_map fst zf), N. simpl.
    now rewrite List.length_map.
  - intros it. split; [|split; [|split]].
    + intros Hn. apply name_until_nul_id. now apply entry_name_nul_free.
    + intros a b Ha Hn. unfold stored_name. rewrite Ha.
      now apply name_until_nul_cut.
    + intros d Hd. unfold entry_name. now rewrite (splitext_at _ _ Hd).
    + intros Hd. unfold entry_name. now rewrite (splitext_none _ Hd).
  - intros zf1 zf2 name data -> Hnot. now apply zip_read_last.
Qed.

Lemma batch_archive_has_one_entry_per_item_witness :
  exists zf,
    body (mkResponse "application/zip"
            [("Content-Disposition", "attachment; filename=neonvox_batch.zip")]
            (BodyZip [("a.mp3", tone "hello"); ("a.mp3", tone "world")]))
    = BodyZip zf
    /\ List.map fst zf = ["a.mp3"; "a.mp3"]
    /\ zip_read zf "a.mp3" = Some (tone "world").
Proof.
  destruct (batch_archive_has_one_entry_per_item studio
              (delivers [csv_row (Some "a.txt") (Some "hello");
                         csv_row (Some "a.wav") (Some "world")])
              "gtts" "en" None None None empty_world
              (mkWorld [] ∅ [EvGtts "hello" "en"; EvGtts "world" "en"] 2)
              _ eq_refl)
    as (zf & Hbody & _ & Hnames & _ & Hlast).
  exists zf. split; [exact Hbody|]. split; [exact Hnames|].
  injection Hbody as <-.
  exact (Hlast [("a.mp3", tone "hello")] [] "a.mp3" (tone "world") eq_refl
               (fun H => H)).
Defined.

(** C5, as stated, fails on a filename with a NUL character in it: the
    batch succeeds, and the entry of the item is not under its filename with
    the extension replaced, but under what comes before the NUL. *)
Lemma archive_name_ends_at_nul :
  let it := mkItem (String "a" (String "000" "b.txt")) "hello" in
  exists zf w',
    Backend.tts_csv studio
      (Some (delivers [csv_row (Some (filename it)) (Some (script_text it))]))
      "gtts" "en" None None None empty_world
    = (inr (mkResponse "application/zip"
              [("Content-Disposition",
                "attachment; filename=neonvox_batch.zip")]
              (BodyZip zf)), w')
    /\ entry_name it = String "a" (String "000" "b.mp3")
    /\ List.map fst zf = ["a"]
    /\ List.map fst zf <> [entry_name it].
Proof.
  eexists. eexists. split; [vm_compute; reflexivity|].
  split; [vm_compute; reflexivity|].
  split; [reflexivity | discriminate].
Qed.

(** C2, as the code has it: the items are synthesised in the order of the
    document, and when the call for an item fails after the calls for the
    items before it succeeded, [tts_csv] ends there: it returns no response
    (so no archive), its error is the error of that call as it was raised,
    and the world is the one that call left, whatever items follow. *)
Theorem tts_csv_stops_at_first_failure
        (P : Platform) (reader : Reader) (engine lang : string)
        (voice : option string) (rate : option Z) (volume : option float)
        (w w1 w2 : World) (pre post : list Item) (it : Item)
        (zf1 : Archive) (e : exn) :
  Backend.is_known_engine (engine_name engine) = true ->
  Backend.read_rows P reader [] = inr (pre ++ it :: post) ->
  Backend.zip_loop P (engine_name engine) lang voice rate volume pre [] w
  = (inr zf1, w1) ->
  item_audio P (engine_name engine) lang voice rate volume it w1
  = (inl e, w2) ->
  Backend.tts_csv P (Some reader) engine lang voice rate volume w
  = (inl e, w2).
Proof.
  intros K R Hpre Hit.
  rewrite tts_csv_unfold by exact K.
  rewrite read_rows_staged in R.
  destruct (List.find _ _); [discriminate|].
  destruct (reader_error reader); [discriminate|].
  injection R as R. cbn [app] in R. rewrite R.
  destruct (pre ++ it :: post) as [|x l] eqn:E.
  { destruct pre; discriminate E. }
  rewrite <- E. unfold bind.
  now rewrite (zip_loop_fail_fast _ _ _ _ _ _ _ _ _ _ _ _ _ _ _ Hpre Hit).
Qed.

Lemma tts_csv_stops_at_first_failure_witness :
  Backend.tts_csv flaky (Some three_rows) "gtts" "en" None None None
                  empty_world
  = (inl (LibError "quota exceeded"),
     mkWorld [] ∅ [EvGtts "hello" "en"; EvGtts "world" "en"] 2).
Proof.
  refine (tts_csv_stops_at_first_failure flaky three_rows "gtts" "en" None
            None None empty_world
            (mkWorld [] ∅ [EvGtts "hello" "en"] 1) _
            [mkItem "a.mp3" "hello"] [mkItem "c.mp3" "again"]
            (mkItem "b.mp3" "world") [("a.mp3", tone "hello")] _ _ _ _ _).
  - vm_compute. reflexivity.
  - vm_compute. reflexivity.
  - vm_compute. reflexivity.
  - vm_compute. reflexivity.
Defined.

(** C2, as stated, fails on the error: when the second of three items fails,
    the batch ends with the backend's own error, which names neither the
    item nor its position. *)
Lemma batch_error_does_not_name_the_item :
  let a := mkItem "a.mp3" "hello" in
  let b := mkItem "b.mp3" "world" in
  let w1 := mkWorld [] ∅ [EvGtts "hello" "en"] 1 in
  Backend.read_rows flaky three_rows [] = inr [a; b; mkItem "c.mp3" "again"]
  /\ item_audio flaky "gtts" "en" None None None a empty_world
     = (inr (tone "hello"), w1)
  /\ result (item_audio flaky "gtts" "en" None None None b w1)
     = inl (LibError "quota exceeded")
  /\ exists e,
       result (Backend.tts_csv flaky (Some three_rows) "gtts" "en" None None
                               None empty_world) = inl e
       /\ names_item e 2 b = false.
Proof.
  repeat split; try (vm_compute; reflexivity).
  exists (LibError "quota exceeded"). split; vm_compute; reflexivity.
Qed.

(** ** Validation of a single request *)

Lemma validate_text_too_long (P : Platform) (v : string) :
  (MAX_CHARS P < Py.len (Py.strip v))%Z ->
  exists msg, Backend.validate_text P v = inl msg.
Proof.
  intros H. unfold Backend.validate_text.
  assert (E : Py.or_empty (Some v) = v) by (destruct v; reflexivity).
  rewrite E.
  destruct (Py.truthy (Py.strip v)); cbn [negb]; [|now eexists].
  apply Z.ltb_lt in H. rewrite H. now eexists.
Qed.

(** C3, as the code has it: the limit is on the text once trimmed.  A
    request whose trimmed text is longer than [MAX_CHARS] is refused by the
    validation of the request; the handler does not run, and the world is as
    it was: no backend was called. *)
Theorem api_tts_rejects_long_text
        (P : Platform) (raw : Backend.RawRequest) (w : World) :
  (MAX_CHARS P < Py.len (Py.strip (Backend.raw_text raw)))%Z ->
  exists errs,
    Backend.api_tts P raw w = (inl (RequestValidationError errs), w)
    /\ errs <> [].
Proof.
  intros H. destruct (validate_text_too_long P _ H) as [msg E].
  unfold Backend.api_tts, Backend.TTSRequest_new. rewrite E.
  eexists. split; [reflexivity|]. discriminate.
Qed.

Lemma api_tts_rejects_long_text_witness :
  exists errs,
    Backend.api_tts studio
      (Backend.mkRaw long_text (Some "gtts") None None None None) empty_world
    = (inl (RequestValidationError errs), empty_world)
    /\ errs <> [].
Proof.
  apply (api_tts_rejects_long_text studio
           (Backend.mkRaw long_text (Some "gtts") None None None None)
           empty_world).
  vm_compute. reflexivity.
Defined.

(** C3, as stated, fails on a text that is too long only by the blanks
    around it: 2000 letters and a space are 2001 characters, the request is
    accepted and the cloud backend is called. *)
Lemma padded_text_is_synthesised :
  let raw := Backend.mkRaw padded_text (Some "gtts") None None None None in
  let r := Backend.api_tts studio raw empty_world in
  (MAX_CHARS studio < Py.len (Backend.raw_text raw))%Z
  /\ result r = inr (Backend.audio_response (tone (repeat_char "a" 2000))
                                            "neonvox.mp3")
  /\ synthesis_calls (world_after r) = [EvGtts (repeat_char "a" 2000) "en"].
Proof.
  repeat split; vm_compute; reflexivity.
Qed.

(** ** Voice selection *)

Section VoiceSelection.

Variable P : Platform.

Lemma select_voice_loop_find (h : nat) (pref : string) (vs : list Voice)
      (w : World) :
  Backend.select_voice_loop P h (Py.lower pref) vs w =
  match List.find (voice_matchesb pref) vs with
  | Some v => setProperty_voice P h (v_id v) w
  | None => (inr tt, w)
  end.
Proof.
  induction vs as [|v vs IH]; [reflexivity|].
  cbn [Backend.select_voice_loop List.find].
  fold (voice_matchesb pref v).
  destruct (voice_matchesb pref v); [reflexivity | exact IH].
Qed.

(** What [_pyttsx3_select_voice] does, in one equation: it returns, and
    the only change is the voice of the engine, when one is set. *)
Lemma select_voice_run (h : nat) (pref : option string) (w : World) :
  Backend._pyttsx3_select_voice P h pref w =
  (inr tt,
   match voice_set_by P pref with
   | Some i => with_engines (alter (set_voice i) h) w
   | None => w
   end).
Proof.
  unfold Backend._pyttsx3_select_voice, voice_set_by.
  destruct pref as [p|]; [|reflexivity].
  destruct (Py.truthy p); cbn [negb]; [|reflexivity].
  unfold try_except, bind, getProperty_voices.
  destruct (voices P) as [msg|got]; [reflexivity|].
  cbn [ret]. rewrite select_voice_loop_find.
  destruct (List.find _ _) as [v|]; [|reflexivity].
  unfold setProperty_voice.
  destruct (set_voice_error P (v_id v)); reflexivity.
Qed.

(** The script's search finds the same voice. *)
Lemma find_voice_id_find (pref : string) (vs : list Voice) :
  Script.find_voice_id (Py.lower pref) vs =
  option_map v_id (List.find (voice_matchesb pref) vs).
Proof.
  induction vs as [|v vs IH]; [reflexivity|].
  cbn [Script.find_voice_id List.find].
  fold (voice_matchesb pref v).
  destruct (voice_matchesb pref v); [reflexivity | exact IH].
Qed.

End VoiceSelection.

(** ** One local synthesis, step by step *)

Lemma alter_at {A} (f : A -> A) (pre : list A) (e : A) (post : list A) :
  alter f (length pre) (pre ++ e :: post) = pre ++ f e :: post.
Proof.
  rewrite <- (Nat.add_0_r (length pre)). now rewrite alter_app_r.
Qed.

Lemma lookup_at {A} (pre : list A) (e : A) (post : list A) :
  (pre ++ e :: post) !! length pre = Some e.
Proof. now apply list_lookup_middle. Qed.

Lemma alter_focus {A} (f : A -> A) (es : list A) (e : A) :
  alter f (length es) (es ++ [e]) = es ++ [f e].
Proof. apply alter_at. Qed.

Lemma lookup_focus {A} (es : list A) (e : A) :
  (es ++ [e]) !! length es = Some e.
Proof. apply lookup_at. Qed.

Section LocalSynthesis.

Variable P : Platform.

Lemma update_engine_at (f : Engine -> Engine) pre e post files l t :
  update_engine (length pre) f (focus_at pre e post files l t)
  = (inr tt, focus_at pre (f e) post files l t).
Proof.
  unfold update_engine, modify_world, with_engines, focus_at. cbn.
  now rewrite alter_at.
Qed.

Lemma select_voice_at (pref : option string) pre e post files l t :
  Backend._pyttsx3_select_voice P (length pre) pref
                                (focus_at pre e post files l t)
  = (inr tt, focus_at pre (choose_voice P pref e) post files l t).
Proof.
  rewrite select_voice_run. unfold choose_voice.
  destruct (voice_set_by P pref); [|reflexivity].
  unfold with_engines, focus_at. cbn. now rewrite alter_at.
Qed.

Lemma run_queue_one (e : Engine) (text path : string) (w : World) :
  run_queue P e [(text, path)] w =
  let ev := EvSay (e_rate e) (e_volume e) (e_voice e) text path in
  match engine_render P (length (log w)) (e_rate e) (e_volume e)
                      (e_voice e) text with
  | inl msg => (inl (LibError msg), with_log (fun l => l ++ [ev]) w)
  | inr wav =>
      (inr tt, with_fs (insert path wav) (with_log (fun l => l ++ [ev]) w))
  end.
Proof.
  cbn [run_queue]. unfold bind, tick, record, modify_world. cbn.
  destruct (engine_render P _ _ _ _ _); reflexivity.
Qed.

Lemma runAndWait_at pre e post files l t :
  runAndWait P (length pre) (focus_at pre e post files l t)
  = run_queue P e (e_queue e) (focus_at pre (set_queue [] e) post files l t).
Proof.
  unfold runAndWait, bind, get_world. cbn [focus_at engines].
  rewrite lookup_at. change (mkWorld (pre ++ e :: post) files l t)
    with (focus_at pre e post files l t).
  now rewrite update_engine_at.
Qed.

Lemma update_engine_focus (f : Engine -> Engine) es e files l t :
  update_engine (length es) f (focus es e files l t)
  = (inr tt, focus es (f e) files l t).
Proof. exact (update_engine_at f es e [] files l t). Qed.

Lemma select_voice_focus (pref : option string) es e files l t :
  Backend._pyttsx3_select_voice P (length es) pref (focus es e files l t)
  = (inr tt, focus es (choose_voice P pref e) files l t).
Proof. exact (select_voice_at pref es e [] files l t). Qed.

Lemma runAndWait_focus es e files l t :
  runAndWait P (length es) (focus es e files l t)
  = run_queue P e (e_queue e) (focus es (set_queue [] e) files l t).
Proof. exact (runAndWait_at es e [] files l t). Qed.

Lemma set_queue_reset (q : list (string * string)) (e : Engine) :
  e_queue e = [] -> set_queue [] (set_queue q e) = e.
Proof. destruct e as [r v i q0]. cbn. now intros ->. Qed.

(** The conversion block of [synthesize_pyttsx3_mp3], on a WAV file that
    is there. *)
Lemma transcode_step (wav_path mp3_path : string) (wav : bytes) (w : World) :
  fs w !! wav_path = Some wav ->
  try_except
    (do audio <- from_wav wav_path;
     export P audio wav_path mp3_path)
    (fun e =>
       raise (HTTPException 500
                ("ffmpeg missing or conversion failed: " +:+ exn_text e))) w
  = let w1 := with_log (fun l => l ++ [EvTranscode wav_path mp3_path]) w in
    match wav_to_mp3 P (length (log w)) wav with
    | inl msg =>
        (inl (HTTPException 500
                ("ffmpeg missing or conversion failed: " +:+ msg)), w1)
    | inr mp3 => (inr tt, with_fs (insert mp3_path mp3) w1)
    end.
Proof.
  intros H. unfold try_except, bind, from_wav, read_file. rewrite H.
  unfold export, bind, tick, record, modify_world. cbn.
  destruct (wav_to_mp3 P _ wav); reflexivity.
Qed.

Lemma configure_queue (voice : option string) (rate : option Z)
      (volume : option float) (e0 : Engine) :
  e_queue (configure P voice rate volume e0) = e_queue e0.
Proof.
  unfold configure, choose_voice.
  destruct (voice_set_by P voice), volume, (Backend.rate_given rate);
    reflexivity.
Qed.

(** [synthesize_pyttsx3_mp3] once it has its engine: its result, and the
    world it leaves, from the world it starts in and the engine it is
    given, wherever that engine is among the engine objects. *)
Lemma synthesize_on_run (text : string) (voice : option string)
      (rate : option Z) (volume : option float) pre e0 post files l t :
  e_queue e0 = [] ->
  let e := configure P voice rate volume e0 in
  Backend.synthesize_on P (length pre) text voice rate volume
                        (focus_at pre e0 post files l t)
  = (local_outcome P (length l) e text,
     focus_at pre e post
              (local_files P (length l) e text (tmp_name t) files)
              (l ++ local_events P (length l) e text (tmp_name t))
              (S t)).
Proof.
  intros Q0 e.
  unfold Backend.synthesize_on.
  set (e1 := match Backend.rate_given rate with
             | Some r => set_rate r
             | None => fun x => x
             end e0).
  set (e2 := match volume with
             | Some v => set_volume v
             | None => fun x => x
             end e1).
  assert (Q : e_queue e = []).
  { subst e. now rewrite configure_queue. }
  unfold bind at 1.
  assert (S1 : match Backend.rate_given rate with
               | Some r => setProperty_rate (length pre) r
               | None => ret tt
               end (focus_at pre e0 post files l t)
               = (inr tt, focus_at pre e1 post files l t)).
  { subst e1. destruct (Backend.rate_given rate); [|reflexivity].
    unfold setProperty_rate. apply update_engine_at. }
  rewrite S1. unfold bind at 1.
  assert (S2 : match volume with
               | Some v => setProperty_volume (length pre) v
               | None => ret tt
               end (focus_at pre e1 post files l t)
               = (inr tt, focus_at pre e2 post files l t)).
  { subst e2. destruct volume; [|reflexivity].
    unfold setProperty_volume. apply update_engine_at. }
  rewrite S2. unfold bind at 1. rewrite select_voice_at.
  change (choose_voice P voice e2) with e.
  unfold TemporaryDirectory.
  change (with_tmpdirs S (focus_at pre e post files l t))
    with (focus_at pre e post files l (S t)).
  change (tmpdirs (focus_at pre e post files l t)) with t.
  unfold bind at 1. unfold save_to_file. rewrite update_engine_at.
  unfold bind at 1. rewrite runAndWait_at.
  cbn [set_queue e_queue e_rate e_volume e_voice]. rewrite Q. cbn [app].
  rewrite run_queue_one. cbn [set_queue e_queue e_rate e_volume e_voice].
  fold (set_queue [(text, os_path_join (tmp_name t) "out.wav")] e).
  rewrite (set_queue_reset _ _ Q).
  change (log (focus_at pre e post files l (S t))) with l.
  unfold local_outcome, local_files, local_events.
  destruct (engine_render P (length l) (e_rate e) (e_volume e) (e_voice e) text)
    as [msg|wav]; cbv zeta iota beta.
  - reflexivity.
  - unfold bind at 1.
    rewrite (transcode_step _ _ wav) by apply lookup_insert_eq.
    cbn [log with_fs with_log focus_at]. rewrite length_app, Nat.add_1_r.
    cbn [length].
    destruct (wav_to_mp3 P (S (length l)) wav) as [msg|mp3].
    + unfold with_fs, with_log, focus_at. cbn [engines fs log tmpdirs].
      now rewrite <- app_assoc.
    + unfold bind, read_file, with_fs, with_log, focus_at.
      cbn [engines fs log tmpdirs]. rewrite lookup_insert_eq.
      now rewrite <- app_assoc.
Qed.

(** [synthesize_pyttsx3_mp3] when both libraries are installed: its
    result, and the world it leaves, from the world it starts in. *)
Lemma synthesize_pyttsx3_mp3_run (text : string) (voice : option string)
      (rate : option Z) (volume : option float) es files l t :
  pyttsx3 P = true ->
  AudioSegment P = true ->
  let e := configured P voice rate volume in
  Backend.synthesize_pyttsx3_mp3 P text voice rate volume
                                 (mkWorld es files l t)
  = (local_outcome P (length l) e text,
     mkWorld (es ++ [e])
             (local_files P (length l) e text (tmp_name t) files)
             (l ++ local_events P (length l) e text (tmp_name t))
             (S t)).
Proof.
  intros Hpy Hdub e.
  unfold Backend.synthesize_pyttsx3_mp3. rewrite Hpy, Hdub. cbn [negb].
  unfold bind at 1.
  change (pyttsx3_init P (mkWorld es files l t))
    with (@inr exn nat (length es),
          focus_at es (fresh_engine P) [] files l t).
  cbv iota beta.
  exact (synthesize_on_run text voice rate volume es (fresh_engine P) []
                           files l t eq_refl).
Qed.

End LocalSynthesis.

(** ** Temporary files *)

Lemma under_join (td name : string) : under td (os_path_join td name) = true.
Proof.
  unfold under, os_path_join. apply prefix_true_iff.
  exists name. now rewrite append_assoc.
Qed.

Lemma remove_tree_insert (td name : string) (data : bytes)
      (files : gmap string bytes) :
  remove_tree td (<[os_path_join td name := data]> files)
  = remove_tree td files.
Proof.
  unfold remove_tree. apply map_filter_insert_not.
  intros y. cbn [fst]. rewrite under_join. discriminate.
Qed.

Lemma remove_tree_id (td : string) (files : gmap string bytes) :
  (forall p data, files !! p = Some data -> under td p = false) ->
  remove_tree td files = files.
Proof.
  intros H. unfold remove_tree. apply map_filter_id.
  intros p data Hp. cbn [fst]. now apply (H p data).
Qed.

(** A local synthesis of the HTTP service leaves the files as they were,
    however it ends: what it writes is in its temporary directory, which is
    removed. *)
Lemma local_synthesis_leaves_no_file
      (P : Platform) (text : string) (voice : option string)
      (rate : option Z) (volume : option float) (w : World) :
  (forall p data, fs w !! p = Some data ->
                  under (tmp_name (tmpdirs w)) p = false) ->
  fs (world_after (Backend.synthesize_pyttsx3_mp3 P text voice rate volume w))
  = fs w.
Proof.
  intros Hfresh. destruct w as [es files l t]. cbn [fs tmpdirs] in *.
  destruct (pyttsx3 P) eqn:Hpy; [destruct (AudioSegment P) eqn:Hdub|].
  - rewrite synthesize_pyttsx3_mp3_run by assumption. cbv zeta.
    cbn [world_after snd fs]. unfold local_files.
    destruct (engine_render P _ _ _ _ _) as [msg|wav].
    + now apply remove_tree_id.
    + destruct (wav_to_mp3 P _ wav) as [msg|mp3];
        rewrite ?remove_tree_insert; now apply remove_tree_id.
  - unfold Backend.synthesize_pyttsx3_mp3. now rewrite Hpy, Hdub.
  - unfold Backend.synthesize_pyttsx3_mp3. now rewrite Hpy.
Qed.

(** C7, as the code has it: in the HTTP service a local synthesis without
    pydub fails at once with status 500, in the world it started in: no
    engine object is made, no backend is called, no file is written.  The
    error names pydub when pyttsx3 is installed.  The same holds for the
    handler of a single request for the local engine. *)
Theorem local_synthesis_needs_pydub
        (P : Platform) (text lang : string) (voice : option string)
        (rate : option Z) (volume : option float) (w : World) :
  AudioSegment P = false ->
  exists detail,
    Backend.synthesize_pyttsx3_mp3 P text voice rate volume w
    = (inl (HTTPException 500 detail), w)
    /\ Backend.tts P (Backend.mkReq text "pyttsx3" lang voice rate volume) w
       = (inl (HTTPException 500 detail), w)
    /\ (pyttsx3 P = true ->
        detail = "pydub not installed. Run: pip install pydub and install ffmpeg").
Proof.
  intros H. unfold Backend.tts, Backend.synthesize_pyttsx3_mp3, bind.
  cbn [Backend.engine String.eqb Ascii.eqb Bool.eqb].
  cbn [Backend.text Backend.voice Backend.rate Backend.volume].
  rewrite H. destruct (pyttsx3 P); cbn [negb raise];
    eexists; repeat split; discriminate.
Qed.

Lemma local_synthesis_needs_pydub_witness :
  Backend.synthesize_pyttsx3_mp3 no_pydub "hello" None None None empty_world
  = (inl (HTTPException 500
            "pydub not installed. Run: pip install pydub and install ffmpeg"),
     empty_world).
Proof.
  destruct (local_synthesis_needs_pydub no_pydub "hello" "en" None None None
              empty_world eq_refl) as (detail & H & _ & D).
  rewrite H, (D eq_refl). reflexivity.
Defined.

(** C7, as stated, fails on the command-line script: without pydub the
    local engine synthesises all the same, the run ends without an error,
    and the WAV file stays where it was written, with no MP3 beside it. *)
Lemma script_keeps_the_wav_without_pydub :
  let r := Script.main no_pydub
                       (delivers [csv_row (Some "a.mp3") (Some "hello")])
                       "pyttsx3" "out" "en" None None None false empty_world in
  AudioSegment no_pydub = false
  /\ result r = inr tt
  /\ synthesis_calls (world_after r)
     = [EvSay 200 1 "voice.default" "hello" "out/a.wav"]
  /\ fs (world_after r) !! "out/a.wav" = Some (tone "RIFFhello")
  /\ fs (world_after r) !! "out/a.mp3" = None.
Proof.
  repeat split; vm_compute; reflexivity.
Qed.

(** The selection returns for every preference and every backend. *)
Lemma select_voice_always_returns
      (P : Platform) (h : nat) (pref : option string) (w : World) :
  result (Backend._pyttsx3_select_voice P h pref w) = inr tt
  /\ fs (world_after (Backend._pyttsx3_select_voice P h pref w)) = fs w
  /\ log (world_after (Backend._pyttsx3_select_voice P h pref w)) = log w.
Proof.
  rewrite select_voice_run. cbn [result world_after fst snd].
  destruct (voice_set_by P pref); repeat split.
Qed.

(** C10: the voice selection of the HTTP service never raises, for any
    preference and whatever the backend does, and it touches neither the
    files nor the record of the backend calls.  When the body of its [try]
    raises, because the enumeration of the voices does or because the
    backend refuses the voice that was found, the call still returns and the
    world is as it was, so the engine keeps its voice; and the synthesis
    that follows is made, with the default voice, and ends as it would
    without a preference. *)
Theorem voice_errors_are_swallowed
        (P : Platform) (h : nat) (pref : option string) (w : World) :
  result (Backend._pyttsx3_select_voice P h pref w) = inr tt
  /\ fs (world_after (Backend._pyttsx3_select_voice P h pref w)) = fs w
  /\ log (world_after (Backend._pyttsx3_select_voice P h pref w)) = log w
  /\ forall p msg,
       pref = Some p ->
       selection_raises P p msg ->
       select_voice_body P h p w = (inl (LibError msg), w)
       /\ Backend._pyttsx3_select_voice P h pref w = (inr tt, w)
       /\ (forall text rate volume es files l t,
             pyttsx3 P = true ->
             AudioSegment P = true ->
             let r := Backend.synthesize_pyttsx3_mp3 P text pref rate volume
                        (mkWorld es files l t) in
             exists e rest,
               e_voice e = default_voice P
               /\ engines (world_after r) = es ++ [e]
               /\ result r = local_outcome P (length l) e text
               /\ log (world_after r)
                  = l ++ EvSay (e_rate e) (e_volume e) (default_voice P) text
                               (os_path_join (tmp_name t) "out.wav") :: rest
               /\ r = Backend.synthesize_pyttsx3_mp3 P text None rate volume
                        (mkWorld es files l t)).
Proof.
  split; [|split; [|split]];
    try (apply select_voice_always_returns).
  intros p msg -> Hraise.
  assert (B : select_voice_body P h p w = (inl (LibError msg), w)).
  { unfold select_voice_body, bind, getProperty_voices.
    destruct Hraise as [E | (got & v & E & F & S)]; rewrite E; [reflexivity|].
    cbn [ret]. rewrite select_voice_loop_find, F.
    unfold setProperty_voice. now rewrite S. }
  assert (V : voice_set_by P (Some p) = None).
  { unfold voice_set_by. destruct (Py.truthy p); [|reflexivity].
    destruct Hraise as [E | (got & v & E & F & S)]; rewrite E; [reflexivity|].
    now rewrite F, S. }
  split; [exact B|]. split.
  - rewrite select_voice_run. now rewrite V.
  - intros text rate volume es files l t Hpy Hdub r.
    pose proof (synthesize_pyttsx3_mp3_run P text (Some p) rate volume
                  es files l t Hpy Hdub) as R.
    pose proof (synthesize_pyttsx3_mp3_run P text None rate volume
                  es files l t Hpy Hdub) as R0.
    cbv zeta in R, R0. fold r in R.
    assert (C : configured P (Some p) rate volume
                = configured P None rate volume).
    { unfold configured, choose_voice. now rewrite V. }
    assert (D : e_voice (configured P None rate volume) = default_voice P).
    { unfold configured, choose_voice. cbn [voice_set_by].
      destruct volume, (Backend.rate_given rate); reflexivity. }
    rewrite C in R.
    exists (configured P None rate volume).
    eexists. split; [exact D|]. rewrite R. cbn [world_after result fst snd engines log].
    repeat split.
    + unfold local_events. rewrite D. reflexivity.
    + now rewrite R0.
Qed.

Lemma voice_errors_are_swallowed_witness :
  Backend._pyttsx3_select_voice mute 0 (Some "anna")
    (mkWorld [fresh_engine mute] ∅ [] 0)
  = (inr tt, mkWorld [fresh_engine mute] ∅ [] 0)
  /\ result (Backend.synthesize_pyttsx3_mp3 mute "hi" (Some "anna") None None
               empty_world)
     = inr (tone "RIFFhi").
Proof.
  destruct (proj2 (proj2 (proj2
              (voice_errors_are_swallowed mute 0 (Some "anna")
                 (mkWorld [fresh_engine mute] ∅ [] 0))))
              "anna" "driver error" eq_refl)
    as (_ & S & R).
  - left. reflexivity.
  - split; [exact S|].
    destruct (R "hi" None None [] ∅ [] 0%nat eq_refl eq_refl)
      as (e & rest & _ & _ & _ & _ & E).
    unfold empty_world. rewrite E. vm_compute. reflexivity.
Defined.

(** ** The local engine in the script *)

Section ScriptLocal.

Variable P : Platform.

Lemma script_loop_cons (e : Engine) (item : Item) (rest : list Item)
      (outdir : string) (conv : bool) es files l t :
  e_queue e = [] ->
  let wav_path :=
    Py.path_join outdir (Py.path_stem (filename item) +:+ ".wav") in
  let mp3_path :=
    Py.path_join outdir (Py.path_stem (filename item) +:+ ".mp3") in
  let say :=
    EvSay (e_rate e) (e_volume e) (e_voice e) (script_text item) wav_path in
  Script.save_with_pyttsx3_loop P (length es) (item :: rest) outdir conv
                                (focus es e files l t)
  = match engine_render P (length l) (e_rate e) (e_volume e) (e_voice e)
                        (script_text item) with
    | inl msg => (inl (LibError msg), focus es e files (l ++ [say]) t)
    | inr wav =>
        if conv && AudioSegment P then
          match wav_to_mp3 P (S (length l)) wav with
          | inl msg =>
              (inl (LibError msg),
               focus es e (<[wav_path := wav]> files)
                     (l ++ [say; EvTranscode wav_path mp3_path]) t)
          | inr mp3 =>
              Script.save_with_pyttsx3_loop P (length es) rest outdir conv
                (focus es e
                       (<[mp3_path := mp3]> (<[wav_path := wav]> files))
                       (l ++ [say; EvTranscode wav_path mp3_path]) t)
          end
        else
          Script.save_with_pyttsx3_loop P (length es) rest outdir conv
            (focus es e (<[wav_path := wav]> files) (l ++ [say]) t)
    end.
Proof.
  intros Q wav_path mp3_path say.
  cbn [Script.save_with_pyttsx3_loop]. fold wav_path mp3_path.
  unfold bind at 1. unfold save_to_file. rewrite update_engine_focus.
  unfold bind at 1. rewrite runAndWait_focus.
  cbn [set_queue e_queue e_rate e_volume e_voice]. rewrite Q. cbn [app].
  rewrite run_queue_one. cbn [set_queue e_queue e_rate e_volume e_voice].
  fold (set_queue [(script_text item, wav_path)] e).
  rewrite (set_queue_reset _ _ Q).
  change (log (focus es e files l t)) with l. fold say. cbv zeta.
  destruct (engine_render P (length l) (e_rate e) (e_volume e) (e_voice e)
                          (script_text item)) as [msg|wav];
    [reflexivity|].
  unfold bind at 1.
  destruct conv; cbn [andb]; [|reflexivity].
  unfold Script.wav_to_mp3_if_possible.
  destruct (AudioSegment P); cbn [negb]; [|reflexivity].
  unfold bind at 1, from_wav, read_file, with_fs, with_log, focus.
  cbn [engines fs log tmpdirs]. rewrite lookup_insert_eq.
  unfold export, bind, tick, record, modify_world, with_log, with_fs.
  cbn [engines fs log tmpdirs]. rewrite length_app, Nat.add_1_r.
  cbn [length]. rewrite <- app_assoc. cbn [app].
  destruct (wav_to_mp3 P (S (length l)) wav); reflexivity.
Qed.


End ScriptLocal.

(** ** Trimming *)

Lemma lstrip_head (s : string) :
  Py.lstrip s = EmptyString
  \/ exists c r, Py.lstrip s = String c r /\ Py.isspace c = false.
Proof.
  induction s as [|c s IH]; [now left|].
  cbn [Py.lstrip]. destruct (Py.isspace c) eqn:E; [exact IH|].
  right. now exists c, s.
Qed.

Lemma rstrip_cons (c : ascii) (r : string) :
  Py.rstrip (String c r) =
  match Py.rstrip r with
  | EmptyString => if Py.isspace c then EmptyString else String c EmptyString
  | r' => String c r'
  end.
Proof. reflexivity. Qed.

Lemma rstrip_idem (s : string) : Py.rstrip (Py.rstrip s) = Py.rstrip s.
Proof.
  induction s as [|c s IH]; [reflexivity|].
  rewrite rstrip_cons. destruct (Py.rstrip s) as [|d r] eqn:E.
  - destruct (Py.isspace c) eqn:Sc; [reflexivity|].
    rewrite rstrip_cons. cbn [Py.rstrip]. now rewrite Sc.
  - rewrite rstrip_cons, IH. reflexivity.
Qed.

Lemma rstrip_head (c : ascii) (r : string) :
  Py.isspace c = false -> exists r', Py.rstrip (String c r) = String c r'.
Proof.
  intros Sc. rewrite rstrip_cons. destruct (Py.rstrip r) as [|d r'].
  - rewrite Sc. now exists EmptyString.
  - now eexists.
Qed.

(** A trimmed text is its own trimming. *)
Lemma strip_idem (s : string) : Py.strip (Py.strip s) = Py.strip s.
Proof.
  unfold Py.strip.
  destruct (lstrip_head s) as [E | (c & r & E & Sc)]; rewrite E.
  - reflexivity.
  - destruct (rstrip_head c r Sc) as [r' R]. rewrite R.
    cbn [Py.lstrip]. rewrite Sc. rewrite <- R. apply rstrip_idem.
Qed.

Lemma truthy_true_iff (s : string) : Py.truthy s = true <-> s <> "".
Proof. destruct s; split; intros H; congruence || reflexivity || discriminate. Qed.

(** ** [TTSRequest]: what validation lets through *)

(** What [validate_text] returns is the text trimmed, it is not empty and
    not longer than [MAX_CHARS], and validating it again returns it
    unchanged. *)
Theorem validate_text_result (P : Platform) (v t : string) :
  Backend.validate_text P v = inr t ->
  t = Py.strip v
  /\ t <> ""
  /\ (Py.len t <= MAX_CHARS P)%Z
  /\ Backend.validate_text P t = inr t.
Proof.
  unfold Backend.validate_text.
  assert (E : forall x, Py.or_empty (Some x) = x) by (intros []; reflexivity).
  rewrite !E.
  destruct (Py.truthy (Py.strip v)) eqn:T; cbn [negb]; [|discriminate].
  destruct (MAX_CHARS P <? Py.len (Py.strip v))%Z eqn:L; [discriminate|].
  intros [= <-]. rewrite strip_idem, T, L. cbn [negb].
  repeat split.
  - now apply truthy_true_iff.
  - apply Z.ltb_ge in L. exact L.
Qed.

Lemma validate_text_result_witness :
  Backend.validate_text studio "hello" = inr "hello".
Proof.
  exact (proj2 (proj2 (proj2
    (validate_text_result studio "  hello  " "hello" eq_refl)))).
Defined.

(** A request that names an engine other than [gtts] and [pyttsx3], in any
    case, is refused by the validation of the request: the handler does not
    run and no backend is called. *)
Theorem api_tts_rejects_unknown_engine
        (P : Platform) (raw : Backend.RawRequest) (v : string) (w : World) :
  Backend.raw_engine raw = Some v ->
  Backend.is_known_engine (Py.lower v) = false ->
  exists errs,
    Backend.api_tts P raw w = (inl (RequestValidationError errs), w)
    /\ In "engine must be 'gtts' or 'pyttsx3'" errs.
Proof.
  intros E K. unfold Backend.api_tts, Backend.TTSRequest_new.
  rewrite E. unfold Backend.validate_engine. rewrite K. cbn [negb].
  destruct (Backend.validate_text P (Backend.raw_text raw)) as [msg|t];
    eexists; (split; [reflexivity|]); cbn; auto.
Qed.

Lemma api_tts_rejects_unknown_engine_witness :
  exists errs,
    Backend.api_tts studio
      (Backend.mkRaw "hello" (Some "eSpeak") None None None None) empty_world
    = (inl (RequestValidationError errs), empty_world)
    /\ In "engine must be 'gtts' or 'pyttsx3'" errs.
Proof.
  exact (api_tts_rejects_unknown_engine studio
           (Backend.mkRaw "hello" (Some "eSpeak") None None None None)
           "eSpeak" empty_world eq_refl eq_refl).
Defined.

(** ** The cloud engine *)

Lemma temp_fresh_here (w : World) :
  temp_fresh w ->
  forall p data, fs w !! p = Some data ->
                 under (tmp_name (tmpdirs w)) p = false.
Proof. intros H p data. now apply H. Qed.

Lemma temp_fresh_empty (es : list Engine) (l : list Event) (t : nat) :
  temp_fresh (mkWorld es ∅ l t).
Proof. intros n p data _ H. cbn in H. now rewrite lookup_empty in H. Qed.

(** [synthesize_gtts] when the engine is allowed and installed. *)
Lemma synthesize_gtts_run (P : Platform) (text lang : string) es files l t :
  ALLOW_GTTS P = true ->
  gTTS P = true ->
  Backend.synthesize_gtts P text lang (mkWorld es files l t)
  = (match gtts_render P (length l) text lang with
     | inl msg => inl (LibError msg)
     | inr mp3 => inr mp3
     end,
     mkWorld es
       (remove_tree (tmp_name t)
          match gtts_render P (length l) text lang with
          | inl _ => files
          | inr mp3 => <[os_path_join (tmp_name t) "out.mp3" := mp3]> files
          end)
       (l ++ [EvGtts text lang]) (S t)).
Proof.
  intros Ha Hg. unfold Backend.synthesize_gtts. rewrite Ha, Hg. cbn [negb].
  unfold TemporaryDirectory, bind, gTTS_save, bind, tick, record, modify_world.
  cbn [with_tmpdirs with_log with_fs engines fs log tmpdirs].
  destruct (gtts_render P (length l) text lang) as [msg|mp3].
  - reflexivity.
  - unfold write_file, modify_world, read_file.
    cbn [with_fs engines fs log tmpdirs]. now rewrite lookup_insert_eq.
Qed.

Lemma synthesize_gtts_run_fresh (P : Platform) (text lang : string) (w : World) :
  ALLOW_GTTS P = true ->
  gTTS P = true ->
  temp_fresh w ->
  Backend.synthesize_gtts P text lang w
  = (match gtts_render P (length (log w)) text lang with
     | inl msg => inl (LibError msg)
     | inr mp3 => inr mp3
     end,
     mkWorld (engines w) (fs w) (log w ++ [EvGtts text lang])
             (S (tmpdirs w))).
Proof.
  intros Ha Hg Hf. pose proof (temp_fresh_here w Hf) as Hh.
  destruct w as [es files l t]. cbn [engines fs log tmpdirs] in *.
  rewrite synthesize_gtts_run by assumption. f_equal. f_equal.
  destruct (gtts_render P (length l) text lang);
    rewrite ?remove_tree_insert; now apply remove_tree_id.
Qed.

(** One call of the cloud engine, when it is allowed and installed: the
    backend is called once, what it renders is returned as it is, an error
    it raises is let through as it is, and the files are as they were: the
    temporary directory is removed on both ways out. *)
Theorem synthesize_gtts_calls_backend_once
        (P : Platform) (text lang : string) (w : World) :
  ALLOW_GTTS P = true ->
  gTTS P = true ->
  temp_fresh w ->
  let r := Backend.synthesize_gtts P text lang w in
  result r = match gtts_render P (length (log w)) text lang with
             | inl msg => inl (LibError msg)
             | inr mp3 => inr mp3
             end
  /\ log (world_after r) = log w ++ [EvGtts text lang]
  /\ fs (world_after r) = fs w
  /\ engines (world_after r) = engines w.
Proof.
  intros Ha Hg Hf r. subst r.
  rewrite synthesize_gtts_run_fresh by assumption. repeat split.
Qed.

Lemma synthesize_gtts_calls_backend_once_witness :
  result (Backend.synthesize_gtts flaky "world" "en"
            (mkWorld [] ∅ [EvGtts "hello" "en"] 1))
  = inl (LibError "quota exceeded").
Proof.
  exact (proj1 (synthesize_gtts_calls_backend_once flaky "world" "en"
                  (mkWorld [] ∅ [EvGtts "hello" "en"] 1) eq_refl eq_refl
                  (temp_fresh_empty _ _ _))).
Defined.

(** A valid request for the cloud engine, named in any case, with a backend
    that renders: the response is an [audio/mpeg] attachment named
    [neonvox.mp3] whose body is what the backend rendered from the trimmed
    text, in the language of the request or in [en]; one backend call was
    made and the files are as they were. *)
Theorem api_tts_cloud_response
        (P : Platform) (raw : Backend.RawRequest) (t v : string)
        (mp3 : bytes) (w : World) :
  Backend.validate_text P (Backend.raw_text raw) = inr t ->
  Backend.raw_engine raw = Some v ->
  Py.lower v = "gtts" ->
  ALLOW_GTTS P = true ->
  gTTS P = true ->
  temp_fresh w ->
  let lang := match Backend.raw_lang raw with Some l => l | None => "en" end in
  gtts_render P (length (log w)) t lang = inr mp3 ->
  Backend.api_tts P raw w
  = (inr (mkResponse "audio/mpeg"
            [("Content-Disposition", "attachment; filename=neonvox.mp3")]
            (BodyBytes mp3)),
     mkWorld (engines w) (fs w) (log w ++ [EvGtts t lang]) (S (tmpdirs w))).
Proof.
  intros Ht Ev Hv Ha Hg Hf lang Hr.
  unfold Backend.api_tts, Backend.TTSRequest_new.
  rewrite Ht, Ev. unfold Backend.validate_engine. rewrite Hv.
  cbn [Backend.is_known_engine String.eqb Ascii.eqb Bool.eqb orb negb].
  unfold Backend.tts.
  cbn [Backend.engine Backend.text Backend.lang String.eqb Ascii.eqb Bool.eqb].
  unfold bind. fold lang.
  rewrite synthesize_gtts_run_fresh by assumption. now rewrite Hr.
Qed.

Lemma api_tts_cloud_response_witness :
  Backend.api_tts studio
    (Backend.mkRaw "  hello " (Some "GTTS") None None None None) empty_world
  = (inr (mkResponse "audio/mpeg"
            [("Content-Disposition", "attachment; filename=neonvox.mp3")]
            (BodyBytes (tone "hello"))),
     mkWorld [] ∅ [EvGtts "hello" "en"] 1).
Proof.
  exact (api_tts_cloud_response studio
           (Backend.mkRaw "  hello " (Some "GTTS") None None None None)
           "hello" "GTTS" (tone "hello") empty_world
           eq_refl eq_refl eq_refl eq_refl eq_refl
           (temp_fresh_empty _ _ _) eq_refl).
Defined.

(** With the cloud engine disabled by policy, every request for it is
    refused with status 403 and nothing is synthesised, whether the library
    is installed or not: a single call, the handler of a single request, and
    a batch, where the refusal comes at the first item, once the rows have
    passed their own checks (and the reader has not raised). *)
Theorem cloud_engine_disabled_by_policy (P : Platform) :
  ALLOW_GTTS P = false ->
  let refused := HTTPException 403 "gTTS is disabled by server policy" in
  (forall text lang w,
      Backend.synthesize_gtts P text lang w = (inl refused, w))
  /\ (forall req w,
        Backend.engine req = "gtts" ->
        Backend.tts P req w = (inl refused, w))
  /\ (forall file engine lang voice rate volume w,
        engine_name engine = "gtts" ->
        let r := Backend.tts_csv P file engine lang voice rate volume w in
        is_error (result r)
        /\ world_after r = w
        /\ (forall reader,
              file = Some reader ->
              items_of (delivered reader) <> [] ->
              List.find (oversized P) (items_of (delivered reader)) = None ->
              result r = inl (match reader_error reader with
                              | Some msg => LibError msg
                              | None => refused
                              end))).
Proof.
  intros Ha refused.
  assert (S : forall text lang w,
             Backend.synthesize_gtts P text lang w = (inl refused, w)).
  { intros. unfold Backend.synthesize_gtts. now rewrite Ha. }
  split; [exact S|]. split.
  - intros req w E. unfold Backend.tts, bind. rewrite E.
    cbn [String.eqb Ascii.eqb Bool.eqb]. now rewrite S.
  - intros file engine lang voice rate volume w E r.
    assert (K : Backend.is_known_engine (engine_name engine) = true)
      by now rewrite E.
    destruct file as [reader|].
    + assert (U := tts_csv_unfold P reader engine lang voice rate volume w K).
      fold r in U. rewrite E in U.
      destruct (List.find (oversized P) (items_of (delivered reader)))
        as [it|] eqn:F.
      { rewrite U. split; [now eexists|]. split; [reflexivity|].
        intros reader' [= <-] _ N. rewrite F in N. discriminate N. }
      destruct (reader_error reader) as [msg|] eqn:RE.
      { rewrite U. split; [now eexists|]. split; [reflexivity|].
        intros reader' [= <-] _ _. now rewrite RE. }
      destruct (items_of (delivered reader)) as [|it rest] eqn:I.
      { rewrite U. split; [now eexists|]. split; [reflexivity|].
        intros reader' [= <-] N _. rewrite I in N. congruence. }
      unfold bind in U. rewrite zip_loop_cons in U.
      unfold item_audio in U. cbn [String.eqb Ascii.eqb Bool.eqb] in U.
      rewrite S in U. rewrite U. split; [now eexists|].
      split; [reflexivity|]. intros reader' [= <-] _ _. now rewrite RE.
    + subst r. unfold Backend.tts_csv. fold (engine_name engine).
      rewrite K. cbn [negb raise result world_after fst snd].
      split; [now eexists|]. split; [reflexivity|]. intros ? [=].
Qed.

Lemma cloud_engine_disabled_by_policy_witness :
  result (Backend.tts_csv policy_off (Some three_rows) "gtts" "en" None None
                          None empty_world)
  = inl (HTTPException 403 "gTTS is disabled by server policy").
Proof.
  exact (proj2 (proj2 (proj2 (proj2
    (cloud_engine_disabled_by_policy policy_off eq_refl))
      (Some three_rows) "gtts" "en" None None None empty_world eq_refl))
      three_rows eq_refl ltac:(discriminate) eq_refl).
Defined.

(** ** Errors of a batch *)

Lemma zip_loop_error_split
      (P : Platform) (engine lang : string) (voice : option string)
      (rate : option Z) (volume : option float) (rows : list Item) :
  forall zf w e w',
    Backend.zip_loop P engine lang voice rate volume rows zf w = (inl e, w') ->
    exists pre it post zf1 w1,
      rows = pre ++ it :: post
      /\ Backend.zip_loop P engine lang voice rate volume pre zf w
         = (inr zf1, w1)
      /\ (item_audio P engine lang voice rate volume it w1 = (inl e, w')
          \/ exists data,
               item_audio P engine lang voice rate volume it w1
               = (inr data, w')
               /\ writestr zf1 (entry_name it) data = inl e).
Proof.
  induction rows as [|it rows IH]; intros zf w e w' H; [discriminate|].
  rewrite zip_loop_cons in H.
  destruct (item_audio P engine lang voice rate volume it w)
    as [[x|data] w1] eqn:A.
  - injection H as <- <-. exists [], it, rows, zf, w.
    split; [reflexivity|]. split; [reflexivity|]. now left.
  - destruct (writestr zf (entry_name it) data) as [x|zf2] eqn:W.
    + injection H as <- <-. exists [], it, rows, zf, w.
      split; [reflexivity|]. split; [reflexivity|]. right. now exists data.
    + destruct (IH _ _ _ _ H) as (pre & it' & post & zf1 & w2 & -> & L & A').
      exists (it :: pre), it', post, zf1, w2.
      split; [reflexivity|]. split; [|exact A'].
      rewrite zip_loop_cons, A, W. exact L.
Qed.

(** An error of [tts_csv] comes from one of four places.  The handler
    raised it itself, with status 400 and before anything was synthesised:
    the world is as it was.  Or the CSV reader raised it while the rows were
    read, where no oversized item came before: the world is as it was too.
    Or it is the error of the synthesis call of an item, raised after the
    items before it were synthesised and written, and the world is the one
    that call left.  Or it is the error of the archive at the name of an
    item's entry, raised once the item was synthesised: the name the archive
    would keep is empty, or longer than 65535 bytes. *)
Theorem tts_csv_errors_by_origin
        (P : Platform) (file : option Reader) (engine lang : string)
        (voice : option string) (rate : option Z) (volume : option float)
        (w w' : World) (e : exn) :
  Backend.tts_csv P file engine lang voice rate volume w = (inl e, w') ->
  (w' = w /\ exists detail, e = HTTPException 400 detail)
  \/ (w' = w
      /\ exists reader msg,
           file = Some reader
           /\ List.find (oversized P) (items_of (delivered reader)) = None
           /\ reader_error reader = Some msg
           /\ e = LibError msg)
  \/ exists reader pre it post zf1 w1,
       file = Some reader
       /\ reader_error reader = None
       /\ items_of (delivered reader) = pre ++ it :: post
       /\ Backend.zip_loop P (engine_name engine) lang voice rate volume
                           pre [] w = (inr zf1, w1)
       /\ (item_audio P (engine_name engine) lang voice rate volume it w1
           = (inl e, w')
           \/ exists data,
                item_audio P (engine_name engine) lang voice rate volume it w1
                = (inr data, w')
                /\ ((stored_name it = ""
                     /\ e = LibError "string index out of range")
                    \/ ((65535 < encoded_length (stored_name it))%Z
                        /\ e = LibError
                                 "ushort format requires 0 <= number <= 65535"))).
Proof.
  intros H.
  destruct (Backend.is_known_engine (engine_name engine)) eqn:K.
  2:{ unfold Backend.tts_csv in H. fold (engine_name engine) in H.
      rewrite K in H. injection H as <- <-. left. split; [reflexivity|].
      now eexists. }
  destruct file as [reader|].
  2:{ unfold Backend.tts_csv in H. fold (engine_name engine) in H.
      rewrite K in H. injection H as <- <-. left. split; [reflexivity|].
      now eexists. }
  rewrite tts_csv_unfold in H by exact K.
  destruct (List.find (oversized P) (items_of (delivered reader)))
    as [it|] eqn:F.
  { injection H as <- <-. left. split; [reflexivity|].
    unfold row_too_long. now eexists. }
  destruct (reader_error reader) as [msg|] eqn:RE.
  { injection H as <- <-. right. left. split; [reflexivity|].
    now exists reader, msg. }
  destruct (items_of (delivered reader)) as [|it0 rows0] eqn:I.
  { injection H as <- <-. left. split; [reflexivity|]. now eexists. }
  unfold bind in H.
  destruct (Backend.zip_loop _ _ _ _ _ _ _ _ _) as [[x|zf] w1] eqn:L;
    [|discriminate].
  injection H as <- <-.
  destruct (zip_loop_error_split _ _ _ _ _ _ _ _ _ _ _ L)
    as (pre & it & post & zf1 & w2 & E & Lp & A).
  right. right. exists reader, pre, it, post, zf1, w2.
  split; [reflexivity|]. split; [exact RE|]. split; [now rewrite I|].
  split; [exact Lp|].
  destruct A as [A | (data & A & W)]; [now left|].
  right. exists data. split; [exact A|].
  exact (writestr_inl _ _ _ _ W).
Qed.

Lemma tts_csv_errors_by_origin_witness :
  let file :=
    Some (delivers [csv_row (Some (String "000" "a.txt")) (Some "hello")]) in
  let w' := mkWorld [] ∅ [EvGtts "hello" "en"] 1 in
  let e := LibError "string index out of range" in
  stored_name (mkItem (String "000" "a.txt") "hello") = ""
  /\ ((w' = empty_world /\ exists detail, e = HTTPException 400 detail)
      \/ (w' = empty_world
          /\ exists reader msg,
               file = Some reader
               /\ List.find (oversized studio) (items_of (delivered reader))
                  = None
               /\ reader_error reader = Some msg
               /\ e = LibError msg)
      \/ exists reader pre it post zf1 w1,
           file = Some reader
           /\ reader_error reader = None
           /\ items_of (delivered reader) = pre ++ it :: post
           /\ Backend.zip_loop studio (engine_name "gtts") "en" None None None
                               pre [] empty_world = (inr zf1, w1)
           /\ (item_audio studio (engine_name "gtts") "en" None None None
                          it w1 = (inl e, w')
               \/ exists data,
                    item_audio studio (engine_name "gtts") "en" None None
                               None it w1 = (inr data, w')
                    /\ ((stored_name it = ""
                         /\ e = LibError "string index out of range")
                        \/ ((65535 < encoded_length (stored_name it))%Z
                            /\ e = LibError
                                 "ushort format requires 0 <= number <= 65535")))).
Proof.
  split; [reflexivity|].
  refine (tts_csv_errors_by_origin studio
            (Some (delivers [csv_row (Some (String "000" "a.txt"))
                                     (Some "hello")]))
            "gtts" "en" None None None empty_world
            (mkWorld [] ∅ [EvGtts "hello" "en"] 1)
            (LibError "string index out of range") _).
  vm_compute. reflexivity.
Defined.

(** ** What a batch does to the world *)

Section BatchWorld.

Variable P : Platform.
Variables (lang : string) (voice : option string)
          (rate : option Z) (volume : option float).

Lemma temp_fresh_later (w w' : World) :
  temp_fresh w -> fs w' = fs w -> (tmpdirs w <= tmpdirs w')%nat ->
  temp_fresh w'.
Proof.
  intros H Ef Ht n p data Hn Hp. rewrite Ef in Hp.
  apply (H n p data); [lia | exact Hp].
Qed.

(** The synthesis call for an item leaves the files as they were, whatever
    the engine and however it ends. *)
Lemma item_audio_keeps_files (engine : string) (it : Item) (w : World) :
  temp_fresh w ->
  let r := item_audio P engine lang voice rate volume it w in
  fs (world_after r) = fs w /\ (tmpdirs w <= tmpdirs (world_after r))%nat.
Proof.
  intros Hf r. subst r. unfold item_audio.
  destruct (String.eqb engine "gtts").
  - destruct (ALLOW_GTTS P) eqn:Ha; [destruct (gTTS P) eqn:Hg|].
    + rewrite synthesize_gtts_run_fresh by assumption.
      cbn [world_after snd fs tmpdirs]. split; [reflexivity | lia].
    + unfold Backend.synthesize_gtts. rewrite Ha, Hg. split; reflexivity.
    + unfold Backend.synthesize_gtts. rewrite Ha. split; reflexivity.
  - split.
    + apply local_synthesis_leaves_no_file. now apply temp_fresh_here.
    + destruct (pyttsx3 P) eqn:Hpy; [destruct (AudioSegment P) eqn:Hdub|].
      * destruct w as [es files l t].
        rewrite synthesize_pyttsx3_mp3_run by assumption.
        cbn [world_after snd tmpdirs]. lia.
      * unfold Backend.synthesize_pyttsx3_mp3. now rewrite Hpy, Hdub.
      * unfold Backend.synthesize_pyttsx3_mp3. now rewrite Hpy.
Qed.

Lemma zip_loop_keeps_files (engine : string) (rows : list Item) :
  forall zf w,
    temp_fresh w ->
    fs (world_after
          (Backend.zip_loop P engine lang voice rate volume rows zf w))
    = fs w.
Proof.
  induction rows as [|it rows IH]; intros zf w Hf; [reflexivity|].
  rewrite zip_loop_cons.
  destruct (item_audio_keeps_files engine it w Hf) as [Ef Ht].
  destruct (item_audio P engine lang voice rate volume it w)
    as [[e|data] w1]; cbn [world_after snd] in *; [exact Ef|].
  destruct (writestr zf (entry_name it) data) as [e|zf1]; [exact Ef|].
  rewrite IH; [exact Ef|]. now apply (temp_fresh_later w).
Qed.

(** The loop of a batch for the cloud engine: the backend is called for the
    items in order, once each, up to the item that fails or to the last. *)
Lemma zip_loop_gtts_calls (rows : list Item) :
  ALLOW_GTTS P = true ->
  gTTS P = true ->
  forall zf w r w',
    temp_fresh w ->
    Backend.zip_loop P "gtts" lang voice rate volume rows zf w = (r, w') ->
    engines w' = engines w
    /\ exists k,
         (k <= length rows)%nat
         /\ log w' = log w ++ gtts_calls lang (take k rows)
         /\ match r with
            | inl _ => True
            | inr zf' =>
                k = length rows
                /\ exists entries,
                     zf' = zf ++ entries
                     /\ Forall2
                          (fun it en =>
                             fst en = stored_name it
                             /\ exists n,
                                  gtts_render P n (script_text it) lang
                                  = inr (snd en))
                          rows entries
            end.
Proof.
  intros Ha Hg. induction rows as [|it rows IH]; intros zf w r w' Hf H.
  - injection H as <- <-. split; [reflexivity|]. exists 0%nat.
    cbn [length take gtts_calls List.map]. rewrite app_nil_r.
    repeat split; [lia|]. exists []. now rewrite app_nil_r.
  - rewrite zip_loop_cons in H. unfold item_audio in H.
    cbn [String.eqb Ascii.eqb Bool.eqb] in H.
    rewrite synthesize_gtts_run_fresh in H by assumption.
    destruct (gtts_render P (length (log w)) (script_text it) lang)
      as [msg|mp3] eqn:R.
    + injection H as <- <-. split; [reflexivity|]. exists 1%nat.
      cbn [length take gtts_calls List.map log]. repeat split. lia.
    + destruct (writestr zf (entry_name it) mp3) as [x|zf1] eqn:W.
      { injection H as <- <-. split; [reflexivity|]. exists 1%nat.
        cbn [length take gtts_calls List.map log]. repeat split. lia. }
      apply writestr_inr in W as (-> & _).
      apply IH in H.
      2:{ apply (temp_fresh_later w); [exact Hf | reflexivity | cbn; lia]. }
      cbn [engines log] in H. destruct H as (He & k & Hk & Hl & Hr).
      split; [exact He|]. exists (S k).
      cbn [length take gtts_calls List.map]. split; [lia|].
      split; [now rewrite Hl, <- app_assoc|].
      destruct r as [e|zf']; [exact I|].
      destruct Hr as (-> & entries & -> & F).
      split; [reflexivity|].
      exists ((stored_name it, mp3) :: entries).
      split; [now rewrite <- app_assoc|].
      constructor; [|exact F]. split; [reflexivity|].
      exists (length (log w)). exact R.
Qed.

End BatchWorld.

(** A batch leaves the files as they were, for either engine and however
    it ends: every temporary directory it makes is removed. *)
Theorem tts_csv_leaves_no_file
        (P : Platform) (file : option Reader) (engine lang : string)
        (voice : option string) (rate : option Z) (volume : option float)
        (w : World) :
  temp_fresh w ->
  fs (world_after
        (Backend.tts_csv P file engine lang voice rate volume w)) = fs w.
Proof.
  intros Hf.
  destruct (Backend.is_known_engine (engine_name engine)) eqn:K.
  2:{ unfold Backend.tts_csv. fold (engine_name engine). now rewrite K. }
  destruct file as [reader|].
  2:{ unfold Backend.tts_csv. fold (engine_name engine). now rewrite K. }
  rewrite tts_csv_unfold by exact K.
  destruct (List.find (oversized P) (items_of (delivered reader)));
    [reflexivity|].
  destruct (reader_error reader); [reflexivity|].
  destruct (items_of (delivered reader)) as [|it rows]; [reflexivity|].
  pose proof (zip_loop_keeps_files P lang voice rate volume
                (engine_name engine) (it :: rows) [] w Hf) as Z.
  unfold bind.
  destruct (Backend.zip_loop _ _ _ _ _ _ _ _ _) as [[e|zf] w1]; exact Z.
Qed.

Lemma tts_csv_leaves_no_file_witness :
  fs (world_after
        (Backend.tts_csv no_ffmpeg (Some three_rows) "pyttsx3" "en" None None
                         None empty_world)) = fs empty_world.
Proof.
  exact (tts_csv_leaves_no_file no_ffmpeg (Some three_rows) "pyttsx3" "en"
           None None None empty_world (temp_fresh_empty _ _ _)).
Defined.

(** A batch for the cloud engine that succeeds: the reader reached the end
    of the document, the backend was called once per item, in the order of
    the document, with the item's text and the language of the batch; the
    response is a ZIP attachment with, for each item in turn, an entry that
    holds what the backend rendered from the item's text, under the name the
    archive keeps of the item's entry name: that name up to its first NUL
    character, which is not empty, nor longer than 65535 bytes. *)
Theorem tts_csv_cloud_batch
        (P : Platform) (reader : Reader) (engine lang : string)
        (voice : option string) (rate : option Z) (volume : option float)
        (w w' : World) (resp : Response) :
  engine_name engine = "gtts" ->
  ALLOW_GTTS P = true ->
  gTTS P = true ->
  temp_fresh w ->
  Backend.tts_csv P (Some reader) engine lang voice rate volume w
  = (inr resp, w') ->
  reader_error reader = None
  /\ log w' = log w ++ gtts_calls lang (items_of (delivered reader))
  /\ engines w' = engines w
  /\ media_type resp = "application/zip"
  /\ headers resp
     = [("Content-Disposition", "attachment; filename=neonvox_batch.zip")]
  /\ exists zf,
       body resp = BodyZip zf
       /\ Forall2
            (fun it en =>
               fst en = stored_name it
               /\ exists n,
                    gtts_render P n (script_text it) lang = inr (snd en))
            (items_of (delivered reader)) zf
       /\ Forall (fun en => fst en <> ""
                            /\ (encoded_length (fst en) <= 65535)%Z) zf.
Proof.
  intros E Ha Hg Hf H.
  assert (K : Backend.is_known_engine (engine_name engine) = true)
    by now rewrite E.
  rewrite tts_csv_unfold in H by exact K. rewrite E in H.
  destruct (List.find (oversized P) (items_of (delivered reader)));
    [discriminate|].
  destruct (reader_error reader); [discriminate|].
  destruct (items_of (delivered reader)) as [|it rows]; [discriminate|].
  unfold bind in H.
  destruct (Backend.zip_loop _ _ _ _ _ _ _ _ _) as [[e|zf] w1] eqn:L;
    [discriminate|].
  injection H as <- <-.
  destruct (zip_loop_gtts_calls P lang voice rate volume (it :: rows) Ha Hg
              _ _ _ _ Hf L) as (He & k & _ & Hl & -> & entries & -> & F).
  rewrite firstn_all in Hl.
  pose proof (zip_loop_stored _ _ _ _ _ _ _ _ _ _ _ L (List.Forall_nil _)) as G.
  cbn [app] in G.
  split; [reflexivity|]. split; [exact Hl|]. split; [exact He|].
  split; [reflexivity|]. split; [reflexivity|].
  exists entries. split; [reflexivity|]. split; [exact F | exact G].
Qed.

Lemma tts_csv_cloud_batch_witness :
  log (mkWorld [] ∅ [EvGtts "hello" "en"; EvGtts "world" "en";
                     EvGtts "again" "en"] 3)
  = log empty_world ++ gtts_calls "en" (items_of (delivered three_rows)).
Proof.
  exact (proj1 (proj2
           (tts_csv_cloud_batch studio three_rows "GTTS" "en" None None
              None empty_world _ _ eq_refl eq_refl eq_refl
              (temp_fresh_empty _ _ _) eq_refl))).
Defined.

(** ** A batch for the local engine *)

Lemma local_events_says (P : Platform) (n : nat) (e : Engine)
      (text td : string) :
  List.filter is_synthesis (local_events P n e text td)
  = [EvSay (e_rate e) (e_volume e) (e_voice e) text
           (os_path_join td "out.wav")].
Proof.
  unfold local_events.
  destruct (engine_render P n (e_rate e) (e_volume e) (e_voice e) text);
    reflexivity.
Qed.

(** The loop of a batch for the local engine, with both libraries
    installed and no engine alive between the calls: the items are
    synthesised in order, each on an engine object made for it and with the
    properties the parameters of the batch give, up to the item that fails
    or to the last. *)
Lemma zip_loop_local_calls
      (P : Platform) (engine lang : string) (voice : option string)
      (rate : option Z) (volume : option float) (rows : list Item) :
  String.eqb engine "gtts" = false ->
  pyttsx3 P = true ->
  AudioSegment P = true ->
  forall zf w r w',
    Backend.zip_loop P engine lang voice rate volume rows zf w = (r, w') ->
    let e := configured P voice rate volume in
    exists k,
      (k <= length rows)%nat
      /\ engines w' = engines w ++ replicate k e
      /\ tmpdirs w' = (tmpdirs w + k)%nat
      /\ synthesis_calls w'
         = synthesis_calls w ++ local_says e (tmpdirs w) (take k rows)
      /\ match r with
         | inr _ => k = length rows
         | inl x =>
             exists it n,
               rows !! pred k = Some it
               /\ (1 <= k)%nat
               /\ (local_outcome P n e (script_text it) = inl x
                   \/ exists data zf1,
                        local_outcome P n e (script_text it) = inr data
                        /\ writestr zf1 (entry_name it) data = inl x)
         end.
Proof.
  intros He Hpy Hdub.
  induction rows as [|it rows IH]; intros zf w r w' H e.
  - injection H as <- <-. exists 0%nat. cbn [length take local_says replicate].
    rewrite !app_nil_r, Nat.add_0_r. repeat split; reflexivity.
  - rewrite zip_loop_cons in H. unfold item_audio in H. rewrite He in H.
    destruct w as [es files l t].
    rewrite synthesize_pyttsx3_mp3_run in H by assumption. cbv zeta in H.
    fold e in H.
    assert (Calls : forall tail,
      List.filter is_synthesis
        (l ++ local_events P (length l) e (script_text it) (tmp_name t))
      ++ tail
      = List.filter is_synthesis l
        ++ EvSay (e_rate e) (e_volume e) (e_voice e) (script_text it)
                 (os_path_join (tmp_name t) "out.wav") :: tail).
    { intros tail. rewrite List.filter_app, local_events_says.
      now rewrite <- app_assoc. }
    destruct (local_outcome P (length l) e (script_text it))
      as [x|data] eqn:O.
    + injection H as <- <-. exists 1%nat.
      cbn [length take local_says replicate engines tmpdirs pred lookup].
      unfold synthesis_calls. cbn [log].
      split; [lia|]. split; [reflexivity|]. split; [lia|].
      split; [rewrite <- (app_nil_r (List.filter _ (_ ++ _))); apply Calls|].
      exists it, (length l). split; [reflexivity|]. split; [lia|]. now left.
    + destruct (writestr zf (entry_name it) data) as [x|zf1] eqn:W.
      * injection H as <- <-. exists 1%nat.
        cbn [length take local_says replicate engines tmpdirs pred lookup].
        unfold synthesis_calls. cbn [log].
        split; [lia|]. split; [reflexivity|]. split; [lia|].
        split; [rewrite <- (app_nil_r (List.filter _ (_ ++ _))); apply Calls|].
        exists it, (length l). split; [reflexivity|]. split; [lia|].
        right. now exists data, zf.
      * apply IH in H. cbv zeta in H. fold e in H.
        destruct H as (k & Hk & Hen & Ht & Hc & Hr).
        cbn [engines tmpdirs] in Hen, Ht.
        unfold synthesis_calls in Hc |- *. cbn [log] in Hc |- *.
        exists (S k).
        cbn [length take local_says replicate engines tmpdirs pred].
        split; [lia|].
        split; [now rewrite Hen, <- app_assoc|].
        split; [lia|].
        split; [now rewrite Hc, Calls|].
        destruct r as [x|zf'].
        -- destruct Hr as (it' & n & Hit & Hk1 & Hx).
           exists it', n. split; [|split; [lia | exact Hx]].
           destruct k as [|k']; [lia|]. exact Hit.
        -- now rewrite Hr.
Qed.

(** A batch for the local engine whose rows were read, with both libraries
    installed: the items are synthesised in the order of the document, one
    engine call each, with the item's text and the rate, volume and voice
    the parameters of the batch give (the defaults of a new engine
    otherwise), in a temporary directory of its own; a batch that succeeds
    has called the engine for every item, and a batch that fails has stopped
    at the item whose synthesis, or whose archive entry, failed. *)
Theorem tts_csv_local_batch_calls
        (P : Platform) (reader : Reader) (engine lang : string)
        (voice : option string) (rate : option Z) (volume : option float)
        (w : World) (items : list Item) :
  engine_name engine = "pyttsx3" ->
  pyttsx3 P = true ->
  AudioSegment P = true ->
  Backend.read_rows P reader [] = inr items ->
  items <> [] ->
  let e := configured P voice rate volume in
  let r := Backend.tts_csv P (Some reader) engine lang voice rate volume w in
  exists k,
    (1 <= k <= length items)%nat
    /\ synthesis_calls (world_after r)
       = synthesis_calls w ++ local_says e (tmpdirs w) (take k items)
    /\ tmpdirs (world_after r) = (tmpdirs w + k)%nat
    /\ (forall resp, result r = inr resp -> k = length items)
    /\ (forall x,
          result r = inl x ->
          exists it n,
            items !! pred k = Some it
            /\ (local_outcome P n e (script_text it) = inl x
                \/ exists data zf1,
                     local_outcome P n e (script_text it) = inr data
                     /\ writestr zf1 (entry_name it) data = inl x)).
Proof.
  intros E Hpy Hdub R Hne e r.
  assert (K : Backend.is_known_engine (engine_name engine) = true)
    by now rewrite E.
  subst r. rewrite tts_csv_unfold by exact K. rewrite E.
  rewrite read_rows_staged in R.
  destruct (List.find (oversized P) (items_of (delivered reader)));
    [discriminate|].
  destruct (reader_error reader); [discriminate|].
  injection R as R. cbn [app] in R. rewrite R.
  destruct items as [|it0 rows0]; [congruence|].
  unfold bind.
  destruct (Backend.zip_loop P "pyttsx3" lang voice rate volume
              (it0 :: rows0) [] w) as [res w1] eqn:L.
  destruct (zip_loop_local_calls P "pyttsx3" lang voice rate volume
              (it0 :: rows0) eq_refl Hpy Hdub _ _ _ _ L)
    as (k & Hk & Hen & Ht & Hc & Hr).
  fold e in Hen, Hc, Hr.
  exists k.
  assert (K1 : (1 <= k)%nat).
  { destruct res as [x|zf]; [|rewrite Hr; cbn; lia].
    destruct Hr as (_ & _ & _ & H1 & _). exact H1. }
  destruct res as [x|zf]; cbn [result world_after fst snd ret].
  - split; [lia|]. split; [exact Hc|].
    split; [exact Ht|]. split; [discriminate|].
    intros x' [= <-]. destruct Hr as (it & n & Hit & _ & Hx).
    now exists it, n.
  - split; [lia|]. split; [exact Hc|].
    split; [exact Ht|]. split; [intros _ _; exact Hr|]. discriminate.
Qed.

Lemma tts_csv_local_batch_calls_witness :
  let r := Backend.tts_csv no_ffmpeg (Some three_rows) "PYTTSX3" "en" None
             (Some 150%Z) (Some 0%float) empty_world in
  let items := [mkItem "a.mp3" "hello"; mkItem "b.mp3" "world";
                mkItem "c.mp3" "again"] in
  exists k,
    (1 <= k <= 3)%nat
    /\ synthesis_calls (world_after r)
       = synthesis_calls empty_world
         ++ local_says (mkEngine 150 0%float "voice.default" []) 0
                       (take k items)
    /\ tmpdirs (world_after r) = (tmpdirs empty_world + k)%nat.
Proof.
  destruct (tts_csv_local_batch_calls no_ffmpeg three_rows "PYTTSX3" "en"
              None (Some 150%Z) (Some 0%float) empty_world
              [mkItem "a.mp3" "hello"; mkItem "b.mp3" "world";
               mkItem "c.mp3" "again"]
              eq_refl eq_refl eq_refl eq_refl ltac:(discriminate))
    as (k & Hk & Hc & Ht & _).
  exists k. split; [exact Hk|]. split; [exact Hc | exact Ht].
Defined.

(** ** A single request and the files *)

(** The handler of a single request leaves the files as they were, for
    either engine and however it ends. *)
Theorem api_tts_leaves_no_file
        (P : Platform) (raw : Backend.RawRequest) (w : World) :
  temp_fresh w ->
  fs (world_after (Backend.api_tts P raw w)) = fs w.
Proof.
  intros Hf. unfold Backend.api_tts.
  destruct (Backend.TTSRequest_new P raw) as [errs|req]; [reflexivity|].
  unfold Backend.tts.
  pose proof (item_audio_keeps_files P (Backend.lang req) (Backend.voice req)
                (Backend.rate req) (Backend.volume req) (Backend.engine req)
                (mkItem "neonvox" (Backend.text req)) w Hf) as [Ef _].
  unfold item_audio in Ef. cbn [script_text] in Ef. unfold bind.
  destruct (String.eqb (Backend.engine req) "gtts").
  - destruct (Backend.synthesize_gtts _ _ _ _) as [[e|data] w1]; exact Ef.
  - destruct (Backend.synthesize_pyttsx3_mp3 _ _ _ _ _ _) as [[e|data] w1];
      exact Ef.
Qed.

Lemma api_tts_leaves_no_file_witness :
  fs (world_after
        (Backend.api_tts no_ffmpeg
           (Backend.mkRaw "hello" (Some "pyttsx3") None None None None)
           empty_world)) = fs empty_world.
Proof.
  exact (api_tts_leaves_no_file no_ffmpeg
           (Backend.mkRaw "hello" (Some "pyttsx3") None None None None)
           empty_world (temp_fresh_empty _ _ _)).
Defined.

(** The three ways a local synthesis of the HTTP service ends, with both
    libraries installed.  An error of the engine is let through as it is.
    An error of the conversion is turned into a status 500 that quotes it.
    Otherwise the result is the conversion of what the engine rendered with
    the configuration of the call. *)
Theorem local_synthesis_outcomes
        (P : Platform) (text : string) (voice : option string)
        (rate : option Z) (volume : option float)
        (es : list Engine) (files : gmap string bytes) (l : list Event)
        (t : nat) :
  pyttsx3 P = true ->
  AudioSegment P = true ->
  let e := configured P voice rate volume in
  let rendered :=
    engine_render P (length l) (e_rate e) (e_volume e) (e_voice e) text in
  let r := result (Backend.synthesize_pyttsx3_mp3 P text voice rate volume
                     (mkWorld es files l t)) in
  (forall msg, rendered = inl msg -> r = inl (LibError msg))
  /\ (forall wav msg,
        rendered = inr wav -> wav_to_mp3 P (S (length l)) wav = inl msg ->
        r = inl (HTTPException 500
                   ("ffmpeg missing or conversion failed: " +:+ msg)))
  /\ (forall wav mp3,
        rendered = inr wav -> wav_to_mp3 P (S (length l)) wav = inr mp3 ->
        r = inr mp3).
Proof.
  intros Hpy Hdub e rendered r. subst r.
  rewrite synthesize_pyttsx3_mp3_run by assumption. cbv zeta.
  cbn [result fst]. unfold local_outcome. fold e. fold rendered.
  repeat split.
  - intros msg ->. reflexivity.
  - intros wav msg -> ->. reflexivity.
  - intros wav mp3 -> ->. reflexivity.
Qed.

Lemma local_synthesis_outcomes_witness :
  result (Backend.synthesize_pyttsx3_mp3 no_ffmpeg "hi" None None None
                                         empty_world)
  = inl (HTTPException 500
           "ffmpeg missing or conversion failed: ffmpeg not found").
Proof.
  exact (proj1 (proj2
    (local_synthesis_outcomes no_ffmpeg "hi" None None None [] ∅ [] 0%nat
       eq_refl eq_refl)) (tone "RIFFhi") "ffmpeg not found" eq_refl eq_refl).
Defined.

(** ** The items a document yields *)

Lemma items_of_are_trimmed (reader : list Row) :
  Forall (fun it =>
            filename it <> "" /\ script_text it <> ""
            /\ Py.strip (filename it) = filename it
            /\ Py.strip (script_text it) = script_text it)
         (items_of reader).
Proof.
  induction reader as [|r reader IH]; [constructor|].
  rewrite items_of_cons. destruct (row_valid r) eqn:V; [|exact IH].
  constructor; [|exact IH].
  unfold row_valid in V. apply andb_true_iff in V as [Vf Vt].
  cbn [filename script_text]. repeat split.
  - now apply truthy_true_iff.
  - now apply truthy_true_iff.
  - unfold row_filename. apply strip_idem.
  - unfold row_text. apply strip_idem.
Qed.

(** The items the HTTP batch endpoint accepts: both fields are not empty
    and carry no blank at either end, and the text is within the limit.
    They are the valid rows of the document, in order. *)
Theorem read_rows_items_are_valid
        (P : Platform) (reader : Reader) (rows : list Item) :
  Backend.read_rows P reader [] = inr rows ->
  rows = items_of (delivered reader)
  /\ Forall (fun it =>
               filename it <> "" /\ script_text it <> ""
               /\ Py.strip (filename it) = filename it
               /\ Py.strip (script_text it) = script_text it
               /\ (Py.len (script_text it) <= MAX_CHARS P)%Z)
            rows.
Proof.
  rewrite read_rows_staged.
  destruct (List.find (oversized P) (items_of (delivered reader))) eqn:F;
    [discriminate|].
  destruct (reader_error reader); [discriminate|].
  intros [= <-]. split; [reflexivity|]. cbn [app].
  pose proof (items_of_are_trimmed (delivered reader)) as T.
  pose proof (proj1 (find_none_iff _ _) F) as N.
  apply List.Forall_forall. intros it Hin.
  rewrite List.Forall_forall in T. destruct (T it Hin) as (A & B & C & D).
  repeat split; try assumption.
  specialize (N it Hin). unfold oversized in N. now apply Z.ltb_ge in N.
Qed.

Lemma read_rows_items_are_valid_witness :
  [mkItem "a.mp3" "hello"; mkItem "c.mp3" "again"]
  = items_of (delivered
                (delivers [csv_row (Some " a.mp3") (Some "hello ");
                           csv_row None (Some "world");
                           csv_row (Some "c.mp3") (Some "again")])).
Proof.
  exact (proj1 (read_rows_items_are_valid studio
                  (delivers [csv_row (Some " a.mp3") (Some "hello ");
                             csv_row None (Some "world");
                             csv_row (Some "c.mp3") (Some "again")])
                  [mkItem "a.mp3" "hello"; mkItem "c.mp3" "again"] eq_refl)).
Defined.

(** The items the script loads, when the reader reaches the end of the
    document: there is at least one, and both fields of each are not empty
    and carry no blank at either end; nothing bounds the length of a text.
    The load fails with the error of the reader, when it raises, and else
    with [SystemExit] when no row is valid.  [main] makes the output
    directory first: when that fails, it ends with that error and the
    document is not read; when the load fails, it ends with the error of the
    load, before an engine is made or anything is synthesised. *)
Theorem load_from_csv_items (reader : Reader) :
  (forall rows,
      Script.load_from_csv reader = inr rows ->
      reader_error reader = None
      /\ rows <> [] /\ rows = items_of (delivered reader)
      /\ Forall (fun it =>
                   filename it <> "" /\ script_text it <> ""
                   /\ Py.strip (filename it) = filename it
                   /\ Py.strip (script_text it) = script_text it)
                rows)
  /\ (forall e,
        Script.load_from_csv reader = inl e ->
        ((exists msg, reader_error reader = Some msg /\ e = LibError msg)
         \/ (reader_error reader = None
             /\ items_of (delivered reader) = []
             /\ e = SystemExit empty_batch))
        /\ forall P engine out lang voice rate volume no_mp3_convert w,
             mkdir_error P (Py.path_str (Py.Path out)) = None ->
             Script.main P reader engine out lang voice rate volume
                         no_mp3_convert w = (inl e, w))
  /\ (forall P engine out lang voice rate volume no_mp3_convert w msg,
        mkdir_error P (Py.path_str (Py.Path out)) = Some msg ->
        Script.main P reader engine out lang voice rate volume
                    no_mp3_convert w = (inl (LibError msg), w)).
Proof.
  rewrite load_from_csv_staged.
  split; [|split].
  - intros rows H. destruct (reader_error reader); [discriminate|].
    destruct (items_of (delivered reader)) as [|it its] eqn:I;
      [discriminate|]. injection H as <-.
    split; [reflexivity|]. split; [discriminate|]. split; [reflexivity|].
    rewrite <- I. apply items_of_are_trimmed.
  - intros e H.
    assert (M : forall P engine out lang voice rate volume no_mp3_convert w,
               mkdir_error P (Py.path_str (Py.Path out)) = None ->
               Script.main P reader engine out lang voice rate volume
                           no_mp3_convert w = (inl e, w)).
    { intros P engine out lang voice rate volume no_mp3_convert w D.
      unfold Script.main, Script.ensure_dir, bind, lift. rewrite D.
      cbn [ret]. rewrite load_from_csv_staged, H. reflexivity. }
    split; [|exact M].
    destruct (reader_error reader) as [msg|].
    + injection H as <-. left. now exists msg.
    + destruct (items_of (delivered reader)) as [|it its] eqn:I;
        [|discriminate]. injection H as <-. now right.
  - intros P engine out lang voice rate volume no_mp3_convert w msg D.
    unfold Script.main, Script.ensure_dir, bind. now rewrite D.
Qed.

Lemma load_from_csv_items_witness :
  Script.main studio
    (csv_reader [csv_row (Some "a.mp3") (Some "hello");
                 csv_row (Some "b.mp3") (Some huge_cell)])
    "pyttsx3" "./reel_audio" "en" None None None false empty_world
  = (inl (LibError "field larger than field limit (131072)"), empty_world).
Proof.
  refine (proj2 (proj1 (proj2
    (load_from_csv_items
       (csv_reader [csv_row (Some "a.mp3") (Some "hello");
                    csv_row (Some "b.mp3") (Some huge_cell)])))
    (LibError "field larger than field limit (131072)") _)
    studio "pyttsx3" "./reel_audio" "en" None None None false empty_world
    eq_refl).
  vm_compute. reflexivity.
Defined.

(** ** Entry names *)

Lemma length_append (a b : string) :
  String.length (a +:+ b) = (String.length a + String.length b)%nat.
Proof.
  induction a as [|c a IH]; [reflexivity|].
  rewrite append_cons. cbn [String.length]. now rewrite IH.
Qed.

Lemma rfind_from_app (c : ascii) (a b : string) :
  forall i last,
    Py.rfind_from c (a +:+ b) i last
    = Py.rfind_from c b (i + Z.of_nat (String.length a))
                    (Py.rfind_from c a i last).
Proof.
  induction a as [|d a IH]; intros i last.
  - rewrite append_nil. cbn [String.length Py.rfind_from]. now rewrite Z.add_0_r.
  - rewrite append_cons. cbn [Py.rfind_from String.length]. rewrite IH.
    f_equal. lia.
Qed.

Lemma rfind_from_absent (c : ascii) (s : string) :
  (forall j, String.get j s <> Some c) ->
  forall i last, Py.rfind_from c s i last = last.
Proof.
  induction s as [|d s IH]; intros H i last; [reflexivity|].
  cbn [Py.rfind_from].
  destruct (Ascii.eqb_spec d c) as [->|_].
  - exfalso. now apply (H 0%nat).
  - apply IH. intros j. apply (H (S j)).
Qed.

Lemma substring_app_prefix (a b : string) :
  String.substring 0 (String.length a) (a +:+ b) = a.
Proof.
  induction a as [|c a IH].
  - rewrite append_nil. destruct b; reflexivity.
  - rewrite append_cons. cbn [String.length String.substring]. now rewrite IH.
Qed.

Lemma substring_app_suffix (a b : string) :
  String.substring (String.length a) (String.length b) (a +:+ b) = b.
Proof.
  induction a as [|c a IH].
  - rewrite append_nil. apply substring_all.
  - rewrite append_cons. cbn [String.length String.substring]. exact IH.
Qed.

Lemma splitext_scan_finds (p : string) (c : ascii) :
  c <> "."%char ->
  forall n i j,
    (i <= j < i + n)%nat -> String.get j p = Some c ->
    Py.splitext_scan p i n = true.
Proof.
  intros Hc. induction n as [|n IH]; intros i j Hj G; [lia|].
  cbn [Py.splitext_scan].
  destruct (String.get i p) as [x|] eqn:Gi; [|reflexivity].
  destruct (Ascii.eqb_spec x ".") as [->|_]; [|reflexivity].
  cbn [negb]. apply (IH (S i) j); [|exact G].
  destruct (Nat.eq_dec i j) as [->|]; [|lia].
  rewrite G in Gi. congruence.
Qed.

(** [os.path.splitext] on a path made of a root that ends in a character
    other than a dot and a separator, a dot, and an extension without dot or
    separator. *)
Lemma splitext_root_ext (r0 ext : string) (c : ascii) :
  c <> "."%char -> c <> "/"%char ->
  (forall j, String.get j ext <> Some "."%char) ->
  (forall j, String.get j ext <> Some "/"%char) ->
  Py.splitext ((r0 +:+ String c "") +:+ String "." ext)
  = (r0 +:+ String c "", String "." ext).
Proof.
  intros Hdot Hsep Ed Es.
  set (root := r0 +:+ String c "").
  assert (Lroot : String.length root = S (String.length r0)).
  { subst root. rewrite length_append. cbn. lia. }
  assert (Glast : forall b, String.get (String.length r0) (root +:+ b) = Some c).
  { intros b. subst root. rewrite append_assoc, append_cons, append_nil.
    pose proof (append_correct2 r0 (String c b) 0) as H.
    cbn [Nat.add] in H. rewrite <- H. reflexivity. }
  unfold Py.splitext, Py.rfind.
  assert (D : Py.rfind_from "." (root +:+ String "." ext) 0 (-1)
              = Z.of_nat (String.length root)).
  { rewrite rfind_from_app. cbn [Py.rfind_from Ascii.eqb Bool.eqb].
    rewrite rfind_from_absent by exact Ed. lia. }
  assert (Sp : Py.rfind_from "/" (root +:+ String "." ext) 0 (-1)
               = Py.rfind_from "/" root 0 (-1)).
  { rewrite rfind_from_app. cbn [Py.rfind_from Ascii.eqb Bool.eqb].
    now rewrite rfind_from_absent by exact Es. }
  rewrite D, Sp.
  pose proof (rfind_from_range "/" root 0 (-1)) as Rs.
  assert (Rs' : (Py.rfind_from "/" root 0 (-1)
                 < Z.of_nat (String.length r0))%Z).
  { destruct (rfind_from_spec "/" root 0 (-1)) as [[E _] | (L & G & _)];
      [lia|].
    rewrite Z.sub_0_r in G.
    destruct (Z.eq_dec (Py.rfind_from "/" root 0 (-1))
                       (Z.of_nat (String.length r0))) as [E|]; [|lia].
    rewrite E, Nat2Z.id in G.
    specialize (Glast ""). subst root.
    assert (A : forall x, x +:+ "" = x).
    { induction x as [|y x IH]; [reflexivity|].
      rewrite append_cons. now f_equal. }
    rewrite A in Glast. rewrite Glast in G. congruence. }
  assert (Lt : (Py.rfind_from "/" root 0 (-1)
                <? Z.of_nat (String.length root))%Z = true).
  { apply Z.ltb_lt. lia. }
  rewrite Lt. cbn [andb].
  rewrite (splitext_scan_finds _ c Hdot _ _ (String.length r0));
    [| lia | apply Glast].
  unfold Py.slice_to, Py.slice_from. rewrite Nat2Z.id.
  rewrite substring_app_prefix.
  replace (String.length (root +:+ String "." ext) - String.length root)%nat
    with (String.length (String "." ext))
    by (rewrite length_append; lia).
  now rewrite substring_app_suffix.
Qed.

(** The entry name of an item replaces the extension of its filename by
    [.mp3]: a filename that ends in a dot and an extension, after a
    character that is neither a dot nor a separator, keeps what is before
    that dot; in particular a filename that ends in [.mp3] already is its
    own entry name.  A filename without a dot gets [.mp3] appended. *)
Theorem entry_name_replaces_extension
        (r0 ext plain text : string) (c : ascii) :
  c <> "."%char -> c <> "/"%char ->
  (forall j, String.get j ext <> Some "."%char) ->
  (forall j, String.get j ext <> Some "/"%char) ->
  (forall j, String.get j plain <> Some "."%char) ->
  let root := r0 +:+ String c "" in
  entry_name (mkItem (root +:+ String "." ext) text) = root +:+ ".mp3"
  /\ entry_name (mkItem (root +:+ ".mp3") text) = root +:+ ".mp3"
  /\ entry_name (mkItem plain text) = plain +:+ ".mp3".
Proof.
  intros Hdot Hsep Ed Es Pd root. unfold entry_name. cbn [filename].
  split; [|split].
  - subst root. now rewrite splitext_root_ext.
  - subst root. rewrite splitext_root_ext; try assumption; try reflexivity.
    + intros [|[|[|[|j]]]]; discriminate.
    + intros [|[|[|[|j]]]]; discriminate.
  - unfold Py.splitext, Py.rfind.
    rewrite (rfind_from_absent "." plain Pd).
    pose proof (rfind_from_range "/" plain 0 (-1)) as R.
    destruct (Z.ltb_spec (Py.rfind_from "/" plain 0 (-1)) (-1)); [lia|].
    reflexivity.
Qed.

Lemma entry_name_replaces_extension_witness :
  entry_name (mkItem "reels/day 1.wav" "hello") = "reels/day 1.mp3".
Proof.
  refine (proj1 (entry_name_replaces_extension "reels/day " "wav" "readme"
                   "hello" "1" _ _ _ _ _)).
  - discriminate.
  - discriminate.
  - intros [|[|[|[|j]]]]; discriminate.
  - intros [|[|[|[|j]]]]; discriminate.
  - intros [|[|[|[|[|[|[|j]]]]]]]; discriminate.
Defined.

(** ** The script: the cloud engine *)

Lemma lower_append (a b : string) :
  Py.lower (a +:+ b) = Py.lower a +:+ Py.lower b.
Proof.
  induction a as [|c a IH]; [reflexivity|].
  rewrite append_cons. cbn [Py.lower]. now rewrite append_cons, IH.
Qed.

Lemma endswith_append (a s : string) : Py.endswith (a +:+ s) s = true.
Proof.
  unfold Py.endswith. rewrite length_append.
  replace (String.length a + String.length s - String.length s)%nat
    with (String.length a) by lia.
  rewrite substring_app_suffix, String.eqb_refl.
  apply andb_true_iff. split; [|reflexivity]. apply Nat.leb_le. lia.
Qed.

(** The name the script writes a cloud item under ends in [.mp3], in some
    case. *)
Lemma gtts_out_name_mp3 (it : Item) :
  Py.endswith (Py.lower (gtts_out_name it)) ".mp3" = true.
Proof.
  unfold gtts_out_name.
  destruct (Py.endswith (Py.lower (filename it)) ".mp3") eqn:E; cbn [negb].
  - exact E.
  - rewrite lower_append. apply endswith_append.
Qed.

Lemma is_Some_insert_mono (m : gmap string bytes) (k p : string) (v : bytes) :
  is_Some (m !! p) -> is_Some (<[k := v]> m !! p).
Proof.
  intros H. destruct (decide (k = p)) as [->|Hne].
  - rewrite lookup_insert_eq. now eexists.
  - now rewrite lookup_insert_ne.
Qed.

Section ScriptCloud.

Variable P : Platform.
Variables (outdir lang : string).

Lemma save_with_gtts_loop_cons (it : Item) (rest : list Item) (w : World) :
  Script.save_with_gtts_loop P (it :: rest) outdir lang w =
  match gtts_render P (length (log w)) (script_text it) lang with
  | inl msg =>
      (inl (LibError msg),
       with_log (fun l => l ++ [EvGtts (script_text it) lang]) w)
  | inr mp3 =>
      Script.save_with_gtts_loop P rest outdir lang
        (with_fs (insert (Py.path_join outdir (gtts_out_name it)) mp3)
           (with_log (fun l => l ++ [EvGtts (script_text it) lang]) w))
  end.
Proof.
  cbn [Script.save_with_gtts_loop]. fold (gtts_out_name it).
  unfold bind at 1. unfold gTTS_save, bind, tick, record, modify_world.
  destruct (gtts_render P (length (log w)) (script_text it) lang);
    reflexivity.
Qed.

Lemma save_with_gtts_loop_app (pre rest : list Item) :
  forall w w1,
    Script.save_with_gtts_loop P pre outdir lang w = (inr tt, w1) ->
    Script.save_with_gtts_loop P (pre ++ rest) outdir lang w
    = Script.save_with_gtts_loop P rest outdir lang w1.
Proof.
  induction pre as [|it pre IH]; intros w w1 H.
  - now injection H as <-.
  - rewrite <- app_comm_cons, save_with_gtts_loop_cons.
    rewrite save_with_gtts_loop_cons in H.
    destruct (gtts_render P (length (log w)) (script_text it) lang);
      [discriminate|].
    now apply IH.
Qed.

(** The loop of [save_with_gtts]: the backend is called for the items in
    order, up to the one that fails or to the last; files are written and
    none is removed; when the loop ends well, every item has its file. *)
Lemma save_with_gtts_loop_inv (items : list Item) :
  forall w r w',
    Script.save_with_gtts_loop P items outdir lang w = (r, w') ->
    engines w' = engines w
    /\ tmpdirs w' = tmpdirs w
    /\ (forall p, is_Some (fs w !! p) -> is_Some (fs w' !! p))
    /\ exists k,
         (k <= length items)%nat
         /\ log w' = log w ++ gtts_calls lang (take k items)
         /\ (r = inr tt ->
             k = length items
             /\ forall it, In it items ->
                  is_Some (fs w' !! Py.path_join outdir (gtts_out_name it))).
Proof.
  induction items as [|it items IH]; intros w r w' H.
  - injection H as <- <-.
    split; [reflexivity|]. split; [reflexivity|]. split; [auto|].
    exists 0%nat. cbn [length take gtts_calls List.map]. rewrite app_nil_r.
    split; [lia|]. split; [reflexivity|]. intros _.
    split; [reflexivity|]. intros it [].
  - rewrite save_with_gtts_loop_cons in H.
    destruct (gtts_render P (length (log w)) (script_text it) lang)
      as [msg|mp3].
    + injection H as <- <-.
      split; [reflexivity|]. split; [reflexivity|]. split; [auto|].
      exists 1%nat.
      cbn [length take gtts_calls List.map log with_log].
      split; [lia|]. split; [reflexivity|]. discriminate.
    + apply IH in H. cbn [engines tmpdirs fs log with_fs with_log] in H.
      destruct H as (He & Ht & Hm & k & Hk & Hl & Hok).
      split; [exact He|]. split; [exact Ht|]. split.
      { intros p Hp. apply Hm. now apply is_Some_insert_mono. }
      exists (S k). cbn [length take gtts_calls List.map].
      split; [lia|]. split; [now rewrite Hl, <- app_assoc|].
      intros ->. destruct (Hok eq_refl) as [-> Hfiles].
      split; [reflexivity|].
      intros it' [<-|Hin]; [|now apply Hfiles].
      apply Hm. rewrite lookup_insert_eq. now eexists.
Qed.

End ScriptCloud.

(** A run of the script with the cloud engine that ends well: the backend
    was called once per item, in order; every item has a file at the path
    [pathlib] makes of the output directory and the item's filename, with
    [.mp3] appended unless the filename ends in it already, in some case; no
    file that was there is gone; no engine object and no temporary directory
    is made. *)
Theorem save_with_gtts_writes_every_item
        (P : Platform) (items : list Item) (outdir lang : string)
        (w w' : World) :
  Script.save_with_gtts P items outdir lang w = (inr tt, w') ->
  gTTS P = true
  /\ log w' = log w ++ gtts_calls lang items
  /\ engines w' = engines w
  /\ tmpdirs w' = tmpdirs w
  /\ (forall p, is_Some (fs w !! p) -> is_Some (fs w' !! p))
  /\ forall it, In it items ->
       is_Some (fs w' !! Py.path_join outdir (gtts_out_name it))
       /\ Py.endswith (Py.lower (gtts_out_name it)) ".mp3" = true
       /\ (gtts_out_name it = filename it
           \/ gtts_out_name it = filename it +:+ ".mp3").
Proof.
  unfold Script.save_with_gtts. destruct (gTTS P); cbn [negb]; [|discriminate].
  intros H. apply save_with_gtts_loop_inv in H.
  destruct H as (He & Ht & Hm & k & _ & Hl & Hok).
  destruct (Hok eq_refl) as [-> Hfiles]. rewrite firstn_all in Hl.
  split; [reflexivity|]. split; [exact Hl|]. split; [exact He|].
  split; [exact Ht|]. split; [exact Hm|].
  intros it Hin. split; [now apply Hfiles|].
  split; [apply gtts_out_name_mp3|].
  unfold gtts_out_name. destruct (negb _); auto.
Qed.

Lemma save_with_gtts_writes_every_item_witness :
  is_Some (fs (mkWorld [] (<["reel_audio/b.MP3" := tone "world"]>
                             (<["reel_audio/a.wav.mp3" := tone "hello"]> ∅))
                       [EvGtts "hello" "en"; EvGtts "world" "en"] 0)
           !! Py.path_join "./reel_audio"
                           (gtts_out_name (mkItem "a.wav" "hello")))
  /\ Py.path_join "./reel_audio" (gtts_out_name (mkItem "a.wav" "hello"))
     = "reel_audio/a.wav.mp3"
  /\ Py.path_join "" (gtts_out_name (mkItem "a.wav" "hello")) = "a.wav.mp3".
Proof.
  split; [|split; reflexivity].
  exact (proj1 (proj2 (proj2 (proj2 (proj2 (proj2
    (save_with_gtts_writes_every_item studio
       [mkItem "a.wav" "hello"; mkItem "b.MP3" "world"] "./reel_audio" "en"
       empty_world _ eq_refl)))))
    (mkItem "a.wav" "hello") (or_introl eq_refl))).
Defined.

(** The script stops at the first item the cloud backend refuses: the error
    is the backend's, the items after it are not attempted, and the world is
    the one the items before it left, files included, with the one call
    added. *)
Theorem save_with_gtts_stops_at_first_failure
        (P : Platform) (pre post : list Item) (it : Item)
        (outdir lang msg : string) (w w1 : World) :
  gTTS P = true ->
  Script.save_with_gtts P pre outdir lang w = (inr tt, w1) ->
  gtts_render P (length (log w1)) (script_text it) lang = inl msg ->
  Script.save_with_gtts P (pre ++ it :: post) outdir lang w
  = (inl (LibError msg),
     mkWorld (engines w1) (fs w1) (log w1 ++ [EvGtts (script_text it) lang])
             (tmpdirs w1)).
Proof.
  unfold Script.save_with_gtts. intros -> Hpre Hit. cbn [negb] in *.
  rewrite (save_with_gtts_loop_app P outdir lang _ _ _ _ Hpre).
  rewrite save_with_gtts_loop_cons. now rewrite Hit.
Qed.

Lemma save_with_gtts_stops_at_first_failure_witness :
  Script.save_with_gtts flaky
    [mkItem "a.mp3" "hello"; mkItem "b.mp3" "world"; mkItem "c.mp3" "again"]
    "out" "en" empty_world
  = (inl (LibError "quota exceeded"),
     mkWorld [] (<["out/a.mp3" := tone "hello"]> ∅)
             [EvGtts "hello" "en"; EvGtts "world" "en"] 0).
Proof.
  exact (save_with_gtts_stops_at_first_failure flaky
           [mkItem "a.mp3" "hello"] [mkItem "c.mp3" "again"]
           (mkItem "b.mp3" "world") "out" "en" "quota exceeded" empty_world
           (mkWorld [] (<["out/a.mp3" := tone "hello"]> ∅)
                    [EvGtts "hello" "en"] 0)
           eq_refl eq_refl eq_refl).
Defined.

(** ** The script: the local engine *)

Section ScriptLocalRun.

Variable P : Platform.

Lemma script_voice_block_focus (voice_pref : option string) es e files l t :
  Script.select_voice_block P (length es) voice_pref (focus es e files l t)
  = match script_voice_choice P voice_pref with
    | inl x => (inl x, focus es e files l t)
    | inr (Some i) => (inr tt, focus es (set_voice i e) files l t)
    | inr None => (inr tt, focus es e files l t)
    end.
Proof.
  unfold Script.select_voice_block, script_voice_choice.
  destruct voice_pref as [p|]; [|reflexivity].
  destruct (Py.truthy p); cbn [negb]; [|reflexivity].
  unfold bind, getProperty_voices.
  destruct (voices P) as [msg|got]; [reflexivity|].
  cbn [ret]. rewrite find_voice_id_find.
  destruct (List.find _ _) as [v|]; cbn [option_map]; [|reflexivity].
  destruct (Py.truthy (v_id v)); [|reflexivity].
  unfold setProperty_voice.
  destruct (set_voice_error P (v_id v)); [reflexivity|].
  apply update_engine_focus.
Qed.

Lemma script_base_engine_queue (rate : option Z) (volume : option float) :
  e_queue (script_base_engine P rate volume) = [].
Proof.
  unfold script_base_engine.
  destruct volume, (Backend.rate_given rate); reflexivity.
Qed.

Lemma script_engine_queue (voice : option string) (rate : option Z)
      (volume : option float) :
  e_queue (script_engine P voice rate volume) = [].
Proof.
  unfold script_engine.
  destruct (script_voice_choice P voice) as [x|[i|]];
    cbn [set_voice e_queue]; apply script_base_engine_queue.
Qed.

(** [save_with_pyttsx3] with the library installed, up to its loop. *)
Lemma save_with_pyttsx3_unfold (items : list Item) (outdir : string)
      (voice : option string) (rate : option Z) (volume : option float)
      (conv : bool) es files l t :
  pyttsx3 P = true ->
  Script.save_with_pyttsx3 P items outdir voice rate volume conv
                           (mkWorld es files l t)
  = match script_voice_choice P voice with
    | inl x => (inl x, focus es (script_base_engine P rate volume) files l t)
    | inr _ =>
        Script.save_with_pyttsx3_loop P (length es) items outdir conv
          (focus es (script_engine P voice rate volume) files l t)
    end.
Proof.
  intros Hpy. unfold Script.save_with_pyttsx3. rewrite Hpy. cbn [negb].
  unfold bind at 1.
  change (pyttsx3_init P (mkWorld es files l t))
    with (@inr exn nat (length es), focus es (fresh_engine P) files l t).
  cbv iota beta.
  set (e1 := match Backend.rate_given rate with
             | Some r => set_rate r
             | None => fun x => x
             end (fresh_engine P)).
  assert (S1 : match Backend.rate_given rate with
               | Some r => setProperty_rate (length es) r
               | None => ret tt
               end (focus es (fresh_engine P) files l t)
               = (inr tt, focus es e1 files l t)).
  { subst e1. destruct (Backend.rate_given rate); [|reflexivity].
    unfold setProperty_rate. apply update_engine_focus. }
  unfold bind at 1. rewrite S1.
  assert (S2 : match volume with
               | Some v => setProperty_volume (length es) v
               | None => ret tt
               end (focus es e1 files l t)
               = (inr tt, focus es (script_base_engine P rate volume)
                                files l t)).
  { unfold script_base_engine. fold e1. destruct volume; [|reflexivity].
    unfold setProperty_volume. apply update_engine_focus. }
  unfold bind at 1. rewrite S2.
  unfold bind at 1. rewrite script_voice_block_focus. unfold script_engine.
  destruct (script_voice_choice P voice) as [x|[i|]]; reflexivity.
Qed.

(** What the synthesis loop of the script keeps: it works on its engine
    alone, every call it makes is made with the properties of that engine,
    the transcoder is called only when conversion is on and pydub is there,
    no file is removed, and when it ends well every item has its WAV file,
    and its MP3 file when the transcoder was called. *)
Lemma script_loop_inv (e : Engine) (outdir : string) (conv : bool)
      (items : list Item) es t :
  e_queue e = [] ->
  forall files l r w',
    Script.save_with_pyttsx3_loop P (length es) items outdir conv
                                  (focus es e files l t) = (r, w') ->
    exists files' added,
      w' = focus es e files' (l ++ added) t
      /\ Forall (said_by e) added
      /\ (conv && AudioSegment P = false ->
          Forall (fun ev => is_transcode ev = false) added)
      /\ (forall p, is_Some (files !! p) -> is_Some (files' !! p))
      /\ (r = inr tt ->
          forall it, In it items ->
            is_Some (files' !! script_wav_path outdir it)
            /\ (conv && AudioSegment P = true ->
                is_Some (files' !! script_mp3_path outdir it))).
Proof.
  intros Q. induction items as [|it items IH]; intros files l r w' H.
  - injection H as <- <-. exists files, []. rewrite app_nil_r.
    split; [reflexivity|]. split; [constructor|]. split; [constructor|].
    split; [auto|]. intros _ it [].
  - rewrite script_loop_cons in H by exact Q. cbv zeta in H.
    fold (script_wav_path outdir it) (script_mp3_path outdir it) in H.
    set (say := EvSay (e_rate e) (e_volume e) (e_voice e) (script_text it)
                      (script_wav_path outdir it)) in *.
    assert (Hsay : said_by e say) by (subst say; cbn; auto).
    destruct (engine_render P (length l) (e_rate e) (e_volume e) (e_voice e)
                            (script_text it)) as [msg|wav].
    { injection H as <- <-. exists files, [say].
      split; [reflexivity|]. split; [now constructor|].
      split; [intros _; now repeat constructor|]. split; [auto|].
      discriminate. }
    destruct (conv && AudioSegment P) eqn:CA.
    + set (tr := EvTranscode (script_wav_path outdir it)
                             (script_mp3_path outdir it)) in *.
      destruct (wav_to_mp3 P (S (length l)) wav) as [msg|mp3].
      { injection H as <- <-.
        exists (<[script_wav_path outdir it := wav]> files), [say; tr].
        split; [reflexivity|]. split; [now repeat constructor|].
        split; [discriminate|].
        split; [intros p Hp; now apply is_Some_insert_mono|].
        discriminate. }
      apply IH in H. destruct H as (files' & added & -> & Fs & _ & Hm & Hok).
      exists files', ([say; tr] ++ added).
      split; [now rewrite <- app_assoc|].
      split; [now repeat constructor|]. split; [discriminate|].
      split.
      { intros p Hp. apply Hm. now do 2 apply is_Some_insert_mono. }
      intros -> it' [<-|Hin]; [|now apply (Hok eq_refl)].
      split.
      * apply Hm. apply is_Some_insert_mono. rewrite lookup_insert_eq.
        now eexists.
      * intros _. apply Hm. rewrite lookup_insert_eq. now eexists.
    + apply IH in H. destruct H as (files' & added & -> & Fs & Ft & Hm & Hok).
      exists files', ([say] ++ added).
      split; [now rewrite <- app_assoc|].
      split; [now repeat constructor|].
      split.
      { intros _. constructor; [reflexivity | now apply Ft]. }
      split.
      { intros p Hp. apply Hm. now apply is_Some_insert_mono. }
      intros -> it' [<-|Hin]; [|now apply (Hok eq_refl)].
      split; [|discriminate].
      apply Hm. rewrite lookup_insert_eq. now eexists.
Qed.

End ScriptLocalRun.

(** In the script an error of the voice enumeration is not caught: a run
    with a voice preference raises it once the engine is made and its rate
    and volume are set, before any item is synthesised and before any file
    is written. *)
Theorem script_voice_error_ends_the_run
        (P : Platform) (items : list Item) (outdir p msg : string)
        (rate : option Z) (volume : option float) (conv : bool)
        (es : list Engine) (files : gmap string bytes) (l : list Event)
        (t : nat) :
  pyttsx3 P = true ->
  p <> "" ->
  voices P = inl msg ->
  Script.save_with_pyttsx3 P items outdir (Some p) rate volume conv
                           (mkWorld es files l t)
  = (inl (LibError msg),
     mkWorld (es ++ [script_base_engine P rate volume]) files l t).
Proof.
  intros Hpy Hp Hv. rewrite save_with_pyttsx3_unfold by exact Hpy.
  unfold script_voice_choice.
  assert (T : Py.truthy p = true) by now apply truthy_true_iff.
  now rewrite T, Hv.
Qed.

Lemma script_voice_error_ends_the_run_witness :
  Script.save_with_pyttsx3 mute [mkItem "a.mp3" "hello"] "out" (Some "anna")
                           (Some 150%Z) None true empty_world
  = (inl (LibError "driver error"),
     mkWorld [mkEngine 150 1%float "voice.default" []] ∅ [] 0).
Proof.
  refine (script_voice_error_ends_the_run mute [mkItem "a.mp3" "hello"] "out"
            "anna" "driver error" (Some 150%Z) None true [] ∅ [] 0%nat
            eq_refl _ eq_refl).
  discriminate.
Defined.

(** A run of the script with the local engine makes one engine object,
    however many items there are, and no temporary directory; every
    synthesis call of the run is made with the rate, the volume and the
    voice of that object, whose rate and volume are those of the arguments,
    or the defaults; and the cloud backend is never called. *)
Theorem script_run_uses_one_engine
        (P : Platform) (items : list Item) (outdir : string)
        (voice : option string) (rate : option Z) (volume : option float)
        (conv : bool) (es : list Engine) (files : gmap string bytes)
        (l : list Event) (t : nat) :
  pyttsx3 P = true ->
  let r := Script.save_with_pyttsx3 P items outdir voice rate volume conv
             (mkWorld es files l t) in
  exists e added,
    engines (world_after r) = es ++ [e]
    /\ tmpdirs (world_after r) = t
    /\ log (world_after r) = l ++ added
    /\ Forall (said_by e) added
    /\ e_rate e = match Backend.rate_given rate with
                  | Some x => x
                  | None => default_rate P
                  end
    /\ e_volume e = match volume with
                    | Some v => v
                    | None => default_volume P
                    end.
Proof.
  intros Hpy r. subst r. rewrite save_with_pyttsx3_unfold by exact Hpy.
  assert (Rb : e_rate (script_base_engine P rate volume)
               = match Backend.rate_given rate with
                 | Some x => x
                 | None => default_rate P
                 end).
  { unfold script_base_engine.
    destruct volume, (Backend.rate_given rate); reflexivity. }
  assert (Vb : e_volume (script_base_engine P rate volume)
               = match volume with
                 | Some v => v
                 | None => default_volume P
                 end).
  { unfold script_base_engine.
    destruct volume, (Backend.rate_given rate); reflexivity. }
  destruct (script_voice_choice P voice) as [x|o] eqn:C.
  - exists (script_base_engine P rate volume), [].
    cbn [world_after snd focus engines tmpdirs log]. rewrite app_nil_r.
    repeat split; try assumption. constructor.
  - destruct (Script.save_with_pyttsx3_loop _ _ _ _ _ _) as [r w'] eqn:L.
    destruct (script_loop_inv P _ outdir conv items es t
                (script_engine_queue P voice rate volume) _ _ _ _ L)
      as (files' & added & -> & Fs & _).
    exists (script_engine P voice rate volume), added.
    cbn [world_after snd focus engines tmpdirs log].
    split; [reflexivity|]. split; [reflexivity|]. split; [reflexivity|].
    split; [exact Fs|].
    unfold script_engine. rewrite C.
    destruct o; cbn [set_voice e_rate e_volume]; now split.
Qed.

Lemma script_run_uses_one_engine_witness :
  exists e added,
    engines (world_after
               (Script.save_with_pyttsx3 studio
                  [mkItem "a.mp3" "hello"; mkItem "b.mp3" "world"] "out"
                  (Some "female") (Some 150%Z) None true empty_world))
    = [] ++ [e]
    /\ tmpdirs (world_after
                  (Script.save_with_pyttsx3 studio
                     [mkItem "a.mp3" "hello"; mkItem "b.mp3" "world"] "out"
                     (Some "female") (Some 150%Z) None true empty_world))
       = 0%nat
    /\ log (world_after
              (Script.save_with_pyttsx3 studio
                 [mkItem "a.mp3" "hello"; mkItem "b.mp3" "world"] "out"
                 (Some "female") (Some 150%Z) None true empty_world))
       = [] ++ added
    /\ Forall (said_by e) added
    /\ e_rate e = 150%Z
    /\ e_volume e = default_volume studio.
Proof.
  exact (script_run_uses_one_engine studio
           [mkItem "a.mp3" "hello"; mkItem "b.mp3" "world"] "out"
           (Some "female") (Some 150%Z) None true [] ∅ [] 0%nat eq_refl).
Defined.

(** A run of the script with the local engine that ends well: every item
    has its WAV file, at the path [pathlib] makes of the output directory
    and the stem of the item's filename with [.wav], and beside it its MP3
    file when conversion is on and pydub is installed; otherwise the
    transcoder was not called at all.  No file that was there is gone. *)
Theorem script_local_run_writes_every_item
        (P : Platform) (items : list Item) (outdir : string)
        (voice : option string) (rate : option Z) (volume : option float)
        (conv : bool) (es : list Engine) (files : gmap string bytes)
        (l : list Event) (t : nat) (w' : World) :
  pyttsx3 P = true ->
  Script.save_with_pyttsx3 P items outdir voice rate volume conv
                           (mkWorld es files l t) = (inr tt, w') ->
  (forall it, In it items ->
     is_Some (fs w' !! script_wav_path outdir it)
     /\ (conv && AudioSegment P = true ->
         is_Some (fs w' !! script_mp3_path outdir it)))
  /\ (conv && AudioSegment P = false ->
      List.filter is_transcode (log w') = List.filter is_transcode l)
  /\ (forall p, is_Some (files !! p) -> is_Some (fs w' !! p)).
Proof.
  intros Hpy H. rewrite save_with_pyttsx3_unfold in H by exact Hpy.
  destruct (script_voice_choice P voice) as [x|o]; [discriminate|].
  destruct (script_loop_inv P _ outdir conv items es t
              (script_engine_queue P voice rate volume) _ _ _ _ H)
    as (files' & added & -> & _ & Ft & Hm & Hok).
  cbn [focus fs log]. split; [exact (Hok eq_refl)|]. split; [|exact Hm].
  intros CA. specialize (Ft CA). rewrite List.filter_app.
  assert (E : List.filter is_transcode added = []).
  { clear -Ft. induction Ft as [|ev added Hev _ IH]; [reflexivity|].
    cbn [List.filter]. now rewrite Hev. }
  now rewrite E, app_nil_r.
Qed.

Lemma script_local_run_writes_every_item_witness :
  is_Some (fs (mkWorld [mkEngine 200 1%float "voice.default" []]
                       (<["reel_audio/clips.wav" := tone "RIFFhello"]> ∅)
                       [EvSay 200 1%float "voice.default" "hello"
                              "reel_audio/clips.wav"]
                       0)
           !! script_wav_path "./reel_audio" (mkItem "clips/" "hello"))
  /\ script_wav_path "./reel_audio" (mkItem "clips/" "hello")
     = "reel_audio/clips.wav"
  /\ script_wav_path "" (mkItem "a.b.mp3" "hello") = "a.b.wav".
Proof.
  split; [|split; reflexivity].
  exact (proj1 (proj1
    (script_local_run_writes_every_item no_pydub [mkItem "clips/" "hello"]
       "./reel_audio" None None None true [] ∅ [] 0%nat _ eq_refl eq_refl)
    (mkItem "clips/" "hello") (or_introl eq_refl))).
Defined.

(** ** A single request for the local engine *)

(** A valid request that is served by the local engine, with both libraries
    installed, an engine that renders and a conversion that succeeds.  The
    local engine serves the requests that name it, in any case, and those
    that name no engine when the default engine is not [gtts].  The response
    is an [audio/mpeg] attachment named [neonvox.mp3] whose body is the
    conversion of what the engine rendered from the trimmed text; one engine
    object was made, configured from the request; the engine and then the
    transcoder were called; the files are as they were. *)
Theorem api_tts_local_response
        (P : Platform) (raw : Backend.RawRequest) (t : string)
        (wav mp3 : bytes) (w : World) :
  Backend.validate_text P (Backend.raw_text raw) = inr t ->
  ((exists v, Backend.raw_engine raw = Some v /\ Py.lower v = "pyttsx3")
   \/ (Backend.raw_engine raw = None
       /\ String.eqb (DEFAULT_ENGINE P) "gtts" = false)) ->
  pyttsx3 P = true ->
  AudioSegment P = true ->
  temp_fresh w ->
  let e := configured P (Backend.raw_voice raw) (Backend.raw_rate raw)
                      (Backend.raw_volume raw) in
  let td := tmp_name (tmpdirs w) in
  engine_render P (length (log w)) (e_rate e) (e_volume e) (e_voice e) t
  = inr wav ->
  wav_to_mp3 P (S (length (log w))) wav = inr mp3 ->
  Backend.api_tts P raw w
  = (inr (mkResponse "audio/mpeg"
            [("Content-Disposition", "attachment; filename=neonvox.mp3")]
            (BodyBytes mp3)),
     mkWorld (engines w ++ [e]) (fs w)
             (log w ++ [EvSay (e_rate e) (e_volume e) (e_voice e) t
                              (os_path_join td "out.wav");
                        EvTranscode (os_path_join td "out.wav")
                                    (os_path_join td "out.mp3")])
             (S (tmpdirs w))).
Proof.
  intros Ht He Hpy Hdub Hf e td Hr Hc.
  pose proof (temp_fresh_here w Hf) as Hh.
  destruct w as [es files l t0]. cbn [engines fs log tmpdirs] in *.
  assert (R : forall eng,
             String.eqb eng "gtts" = false ->
             Backend.tts P (Backend.mkReq t eng
                              (match Backend.raw_lang raw with
                               | Some x => x
                               | None => "en"
                               end)
                              (Backend.raw_voice raw) (Backend.raw_rate raw)
                              (Backend.raw_volume raw))
                         (mkWorld es files l t0)
             = (inr (mkResponse "audio/mpeg"
                       [("Content-Disposition",
                         "attachment; filename=neonvox.mp3")]
                       (BodyBytes mp3)),
                mkWorld (es ++ [e]) files
                  (l ++ [EvSay (e_rate e) (e_volume e) (e_voice e) t
                               (os_path_join td "out.wav");
                         EvTranscode (os_path_join td "out.wav")
                                     (os_path_join td "out.mp3")])
                  (S t0))).
  { intros eng Hg. unfold Backend.tts.
    cbn [Backend.engine Backend.text Backend.voice Backend.rate
         Backend.volume].
    rewrite Hg. unfold bind.
    rewrite synthesize_pyttsx3_mp3_run by assumption. cbv zeta.
    fold e. fold td.
    unfold local_outcome, local_files, local_events. rewrite Hr, Hc.
    rewrite !remove_tree_insert, (remove_tree_id td files Hh).
    reflexivity. }
  unfold Backend.api_tts, Backend.TTSRequest_new. rewrite Ht.
  destruct He as [(v & Ev & Hv) | (Ev & Hd)]; rewrite Ev.
  - unfold Backend.validate_engine. rewrite Hv.
    cbn [Backend.is_known_engine String.eqb Ascii.eqb Bool.eqb orb negb].
    now apply R.
  - now apply R.
Qed.

Lemma api_tts_local_response_witness :
  Backend.api_tts studio
    (Backend.mkRaw " hi " (Some "PyTTSx3") None (Some "female") None
                   (Some 0%float))
    empty_world
  = (inr (mkResponse "audio/mpeg"
            [("Content-Disposition", "attachment; filename=neonvox.mp3")]
            (BodyBytes (tone "RIFFhi"))),
     mkWorld [mkEngine 200 0%float "voice.anna" []] ∅
             [EvSay 200 0%float "voice.anna" "hi" "/tmp/tmp0/out.wav";
              EvTranscode "/tmp/tmp0/out.wav" "/tmp/tmp0/out.mp3"] 1).
Proof.
  refine (api_tts_local_response studio
            (Backend.mkRaw " hi " (Some "PyTTSx3") None (Some "female") None
                           (Some 0%float))
            "hi" (tone "RIFFhi") (tone "RIFFhi") empty_world
            eq_refl _ eq_refl eq_refl (temp_fresh_empty _ _ _)
            eq_refl eq_refl).
  left. exists "PyTTSx3". split; reflexivity.
Defined.

(** ** The engine of a local synthesis: voice, rate and volume *)

Section EngineSettings.

Variable P : Platform.

(** The voice block of the script, on any world. *)
Lemma script_voice_block_choice (h : nat) (voice_pref : option string)
      (w : World) :
  Script.select_voice_block P h voice_pref w
  = match script_voice_choice P voice_pref with
    | inl x => (inl x, w)
    | inr (Some i) => (inr tt, with_engines (alter (set_voice i) h) w)
    | inr None => (inr tt, w)
    end.
Proof.
  unfold Script.select_voice_block, script_voice_choice.
  destruct voice_pref as [p|]; [|reflexivity].
  destruct (Py.truthy p); cbn [negb]; [|reflexivity].
  unfold bind, getProperty_voices.
  destruct (voices P) as [msg|got]; [reflexivity|].
  cbn [ret]. rewrite find_voice_id_find.
  destruct (List.find _ _) as [v|]; cbn [option_map]; [|reflexivity].
  destruct (Py.truthy (v_id v)); [|reflexivity].
  unfold setProperty_voice.
  destruct (set_voice_error P (v_id v)); reflexivity.
Qed.

Lemma find_first_match (pref : string) (before after : list Voice)
      (v : Voice) :
  (forall u, In u before -> ~ voice_matches pref u) ->
  voice_matches pref v ->
  List.find (voice_matchesb pref) (before ++ v :: after) = Some v.
Proof.
  intros Hbefore Hv. apply find_split. exists before, after.
  split; [reflexivity|]. split.
  - intros u Hu. destruct (voice_matchesb pref u) eqn:E; [|reflexivity].
    exfalso. apply (Hbefore u Hu). now apply voice_matchesb_iff.
  - now apply voice_matchesb_iff.
Qed.

Lemma find_no_match (pref : string) (vs : list Voice) :
  (forall u, In u vs -> ~ voice_matches pref u) ->
  List.find (voice_matchesb pref) vs = None.
Proof.
  intros Hnone. apply find_none_iff. intros u Hu.
  destruct (voice_matchesb pref u) eqn:E; [|reflexivity].
  exfalso. apply (Hnone u Hu). now apply voice_matchesb_iff.
Qed.

(** The rate and the volume of the engine a request is served with. *)
Lemma configure_rate (voice : option string) (rate : option Z)
      (volume : option float) (e0 : Engine) :
  e_rate (configure P voice rate volume e0)
  = match Backend.rate_given rate with
    | Some r => r
    | None => e_rate e0
    end.
Proof.
  unfold configure, choose_voice.
  destruct (voice_set_by P voice), volume, (Backend.rate_given rate);
    reflexivity.
Qed.

Lemma configure_volume (voice : option string) (rate : option Z)
      (volume : option float) (e0 : Engine) :
  e_volume (configure P voice rate volume e0)
  = match volume with
    | Some v => v
    | None => e_volume e0
    end.
Proof.
  unfold configure, choose_voice.
  destruct (voice_set_by P voice), volume, (Backend.rate_given rate);
    reflexivity.
Qed.


Lemma script_engine_rate (voice : option string) (rate : option Z)
      (volume : option float) :
  e_rate (script_engine P voice rate volume)
  = match Backend.rate_given rate with
    | Some r => r
    | None => default_rate P
    end.
Proof.
  unfold script_engine, script_base_engine.
  destruct (script_voice_choice P voice) as [x|[i|]], volume,
    (Backend.rate_given rate); reflexivity.
Qed.

Lemma script_engine_volume (voice : option string) (rate : option Z)
      (volume : option float) :
  e_volume (script_engine P voice rate volume)
  = match volume with
    | Some v => v
    | None => default_volume P
    end.
Proof.
  unfold script_engine, script_base_engine.
  destruct (script_voice_choice P voice) as [x|[i|]], volume,
    (Backend.rate_given rate); reflexivity.
Qed.

Lemma rate_given_value (rate : option Z) (d : Z) :
  match Backend.rate_given rate with
  | Some r => r
  | None => d
  end
  = match rate with
    | Some r => if (r =? 0)%Z then d else r
    | None => d
    end.
Proof.
  destruct rate as [r|]; [|reflexivity].
  unfold Backend.rate_given. now destruct (r =? 0)%Z.
Qed.


(** Every backend call of such a run is made with the properties of that
    engine. *)
Lemma save_with_pyttsx3_calls
      (items : list Item) (outdir : string) (voice : option string)
      (rate : option Z) (volume : option float) (conv : bool) es files l t :
  pyttsx3 P = true ->
  let r := Script.save_with_pyttsx3 P items outdir voice rate volume conv
             (mkWorld es files l t) in
  exists added,
    engines (world_after r) = es ++ [script_engine P voice rate volume]
    /\ log (world_after r) = l ++ added
    /\ Forall (said_by (script_engine P voice rate volume)) added.
Proof.
  intros Hpy r. subst r. rewrite save_with_pyttsx3_unfold by exact Hpy.
  destruct (script_voice_choice P voice) as [x|o] eqn:C.
  - exists []. cbn [world_after snd focus engines log]. rewrite app_nil_r.
    unfold script_engine. rewrite C. repeat split. constructor.
  - destruct (Script.save_with_pyttsx3_loop _ _ _ _ _ _) as [r w'] eqn:L.
    destruct (script_loop_inv P _ outdir conv items es t
                (script_engine_queue P voice rate volume) _ _ _ _ L)
      as (files' & added & -> & Fs & _).
    exists added. cbn [world_after snd focus engines log]. now repeat split.
Qed.

End EngineSettings.

(** C4, as the code has it.  A preference that is absent or empty is no
    preference: nothing is looked at and nothing changes, for every backend,
    in the HTTP service and in the script.  With a preference that is not
    empty and voices that enumerate: when [v] is the first voice, in the
    order of the enumeration, whose lowercased name or gender contains the
    lowercased preference, and the backend accepts it, the HTTP service sets
    the engine's voice to [v]'s; so does the script, unless the identifier
    of [v] is empty: then it sets nothing, and looks no further.  When no
    voice matches, the world is as it was and the call returns. *)
Theorem select_voice_takes_first_match
        (P : Platform) (h : nat) (w : World) :
  (forall pref,
      pref = None \/ pref = Some "" ->
      Backend._pyttsx3_select_voice P h pref w = (inr tt, w)
      /\ Script.select_voice_block P h pref w = (inr tt, w))
  /\ (forall pref got,
        pref <> "" ->
        voices P = inr got ->
        let vs := match got with Some vs => vs | None => [] end in
        (forall before v after,
            vs = before ++ v :: after ->
            (forall u, In u before -> ~ voice_matches pref u) ->
            voice_matches pref v ->
            set_voice_error P (v_id v) = None ->
            Backend._pyttsx3_select_voice P h (Some pref) w
            = (inr tt, with_engines (alter (set_voice (v_id v)) h) w)
            /\ (v_id v <> "" ->
                Script.select_voice_block P h (Some pref) w
                = (inr tt, with_engines (alter (set_voice (v_id v)) h) w))
            /\ (v_id v = "" ->
                Script.select_voice_block P h (Some pref) w = (inr tt, w)))
        /\ ((forall u, In u vs -> ~ voice_matches pref u) ->
            Backend._pyttsx3_select_voice P h (Some pref) w = (inr tt, w)
            /\ Script.select_voice_block P h (Some pref) w = (inr tt, w))).
Proof.
  split.
  - intros pref [-> | ->]; split; reflexivity.
  - intros pref got Hpref Hvs vs.
    assert (T : Py.truthy pref = true)
      by (destruct pref; [congruence | reflexivity]).
    split.
    + intros before v after E Hbefore Hv Hok.
      assert (F : List.find (voice_matchesb pref)
                    (match got with Some vs => vs | None => [] end) = Some v).
      { fold vs. rewrite E. now apply find_first_match. }
      split; [|split].
      * rewrite select_voice_run. unfold voice_set_by.
        now rewrite T, Hvs, F, Hok.
      * intros Hid. rewrite script_voice_block_choice.
        unfold script_voice_choice. rewrite T, Hvs, F, Hok.
        apply truthy_true_iff in Hid. now rewrite Hid.
      * intros Hid. rewrite script_voice_block_choice.
        unfold script_voice_choice. rewrite T, Hvs, F, Hid. reflexivity.
    + intros Hnone.
      assert (F : List.find (voice_matchesb pref)
                    (match got with Some vs => vs | None => [] end) = None).
      { fold vs. now apply find_no_match. }
      split.
      * rewrite select_voice_run. unfold voice_set_by.
        now rewrite T, Hvs, F.
      * rewrite script_voice_block_choice. unfold script_voice_choice.
        now rewrite T, Hvs, F.
Qed.

Lemma select_voice_takes_first_match_witness :
  Backend._pyttsx3_select_voice studio 0 (Some "FEMALE")
    (mkWorld [fresh_engine studio] ∅ [] 0)
  = (inr tt, mkWorld [set_voice "voice.anna" (fresh_engine studio)] ∅ [] 0)
  /\ Script.select_voice_block studio 0 (Some "")
       (mkWorld [fresh_engine studio] ∅ [] 0)
     = (inr tt, mkWorld [fresh_engine studio] ∅ [] 0).
Proof.
  split.
  - refine (proj1 (proj1 (proj2 (select_voice_takes_first_match studio 0
                     (mkWorld [fresh_engine studio] ∅ [] 0))
                     "FEMALE" (Some [boris; anna; clara]) _ eq_refl)
                  [boris] anna [clara] eq_refl _ _ eq_refl)).
    + discriminate.
    + intros u [<-|[]] H. apply voice_matchesb_iff in H. vm_compute in H.
      discriminate H.
    + apply voice_matchesb_iff. vm_compute. reflexivity.
  - refine (proj2 (proj1 (select_voice_takes_first_match studio 0
                     (mkWorld [fresh_engine studio] ∅ [] 0))
                   (Some "") _)).
    now right.
Defined.

(** C4, as stated, fails on the empty preference: every name contains the
    empty string, so the specification's search selects the first voice,
    while the code takes an empty preference as no preference and leaves
    the default voice. *)
Lemma empty_preference_selects_nothing :
  let w := mkWorld [fresh_engine studio] ∅ [] 0 in
  voices studio = inr (Some [boris; anna; clara])
  /\ spec_select_voice (Some "") [boris; anna; clara] = Some boris
  /\ Backend._pyttsx3_select_voice studio 0 (Some "") w = (inr tt, w)
  /\ engines w !! 0%nat = Some (fresh_engine studio)
  /\ e_voice (fresh_engine studio) <> v_id boris.
Proof.
  repeat split; try (vm_compute; reflexivity).
  vm_compute. discriminate.
Qed.




(** C9: the two numeric parameters of the local engine differ at zero, for
    every request.  A rate of 0 is taken as no rate, whatever else the
    request gives: the run is the run without a rate, and the engine keeps
    the rate it has, the default one on a new engine.  A volume is set on
    the engine whenever one is given, 0.0 as any other, whatever the rate
    of the request and whatever the default volume: the engine a request is
    served with has the rate of the request unless it is absent or 0, and
    the volume of the request unless it is absent, and the synthesis is made
    with these.  The same holds in the HTTP service and in the script. *)
Theorem zero_rate_is_ignored_zero_volume_is_applied
        (P : Platform) (text outdir : string) (items : list Item)
        (voice : option string) (conv : bool) (es : list Engine)
        (files : gmap string bytes) (l : list Event) (t : nat) :
  pyttsx3 P = true ->
  AudioSegment P = true ->
  let w := mkWorld es files l t in
  let http := Backend.synthesize_pyttsx3_mp3 P text voice in
  let cli := fun rate volume =>
    Script.save_with_pyttsx3 P items outdir voice rate volume conv in
  let rate_of := fun rate : option Z =>
    match rate with
    | Some r => if (r =? 0)%Z then default_rate P else r
    | None => default_rate P
    end in
  let volume_of := fun volume : option float =>
    match volume with
    | Some v => v
    | None => default_volume P
    end in
  (forall volume, http (Some 0%Z) volume w = http None volume w)
  /\ (forall volume, cli (Some 0%Z) volume w = cli None volume w)
  /\ (forall h volume w0,
        Backend.synthesize_on P h text voice (Some 0%Z) volume w0
        = Backend.synthesize_on P h text voice None volume w0)
  /\ (forall rate volume,
        exists e rest,
          engines (world_after (http rate volume w)) = es ++ [e]
          /\ e_rate e = rate_of rate
          /\ e_volume e = volume_of volume
          /\ log (world_after (http rate volume w))
             = l ++ EvSay (rate_of rate) (volume_of volume) (e_voice e) text
                          (os_path_join (tmp_name t) "out.wav") :: rest)
  /\ (forall rate volume,
        exists e added,
          engines (world_after (cli rate volume w)) = es ++ [e]
          /\ e_rate e = rate_of rate
          /\ e_volume e = volume_of volume
          /\ log (world_after (cli rate volume w)) = l ++ added
          /\ Forall (said_by e) added)
  /\ (forall rate,
        rate_of (Some 0%Z) = default_rate P
        /\ volume_of (Some 0%float) = 0%float
        /\ exists e rest,
             engines (world_after (http rate (Some 0%float) w)) = es ++ [e]
             /\ e_volume e = 0%float
             /\ log (world_after (http rate (Some 0%float) w))
                = l ++ EvSay (rate_of rate) 0%float (e_voice e) text
                             (os_path_join (tmp_name t) "out.wav") :: rest).
Proof.
  intros Hpy Hdub w http cli rate_of volume_of.
  assert (G : forall rate volume,
    exists e rest,
      engines (world_after (http rate volume w)) = es ++ [e]
      /\ e_rate e = rate_of rate
      /\ e_volume e = volume_of volume
      /\ log (world_after (http rate volume w))
         = l ++ EvSay (rate_of rate) (volume_of volume) (e_voice e) text
                      (os_path_join (tmp_name t) "out.wav") :: rest).
  { intros rate volume. subst http w.
    rewrite synthesize_pyttsx3_mp3_run by assumption. cbv zeta.
    cbn [world_after snd engines log].
    set (e := configured P voice rate volume).
    assert (R : e_rate e = rate_of rate).
    { subst e rate_of. unfold configured.
      change (e_rate (configure P voice rate volume (fresh_engine P)) =
              match rate with
              | Some r => if (r =? 0)%Z then default_rate P else r
              | None => default_rate P
              end).
      rewrite configure_rate. apply rate_given_value. }
    assert (V : e_volume e = volume_of volume).
    { subst e volume_of.
      change (e_volume (configure P voice rate volume (fresh_engine P)) =
              match volume with
              | Some v => v
              | None => default_volume P
              end).
      apply configure_volume. }
    exists e. eexists. split; [reflexivity|]. split; [exact R|].
    split; [exact V|]. unfold local_events. rewrite R, V. reflexivity. }
  split; [reflexivity|]. split; [reflexivity|]. split; [reflexivity|].
  split; [exact G|]. split.
  - intros rate volume. subst cli w.
    destruct (save_with_pyttsx3_calls P items outdir voice rate volume conv
                es files l t Hpy) as (added & He & Hl & Hs).
    exists (script_engine P voice rate volume), added.
    split; [exact He|].
    split; [rewrite script_engine_rate; apply rate_given_value|].
    split; [apply script_engine_volume|]. now split.
  - intros rate. split; [reflexivity|]. split; [reflexivity|].
    destruct (G rate (Some 0%float)) as (e & rest & He & _ & Hv & Hl).
    exists e, rest. now repeat split.
Qed.

Lemma zero_rate_is_ignored_zero_volume_is_applied_witness :
  exists e rest,
    engines (world_after
               (Backend.synthesize_pyttsx3_mp3 studio "hi" None (Some 150%Z)
                  (Some 0%float) empty_world)) = [] ++ [e]
    /\ e_rate e = 150%Z
    /\ e_volume e = 0%float
    /\ log (world_after
              (Backend.synthesize_pyttsx3_mp3 studio "hi" None (Some 150%Z)
                 (Some 0%float) empty_world))
       = [] ++ EvSay 150%Z 0%float (e_voice e) "hi"
                     (os_path_join (tmp_name 0) "out.wav") :: rest.
Proof.
  exact (proj1 (proj2 (proj2 (proj2
    (zero_rate_is_ignored_zero_volume_is_applied studio "hi" "out"
       [mkItem "a.mp3" "hi"] None true [] ∅ [] 0%nat eq_refl eq_refl))))
    (Some 150%Z) (Some 0%float)).
Defined.
